(** * Epic template migration (production_template_migration.py)

    A shallow embedding of the migration handler of the Streamlit
    application: the date shifting applied to the Epic and its children,
    the ordering of the children, the creation of the destination issues
    and the reconstruction of the issue links.

    Python values are modelled as follows.
    - A JSON field that holds a string or [null] is an [option string];
      Python truthiness ([if value:]) is [truthy].
    - [datetime.date] is the proleptic Gregorian ordinal of the day
      ([date.toordinal()]), a [Z]; [datetime.datetime] (naive) is the
      number of microseconds since midnight of ordinal 0;
      [datetime.timedelta] is a number of microseconds.  Operations that
      raise in Python return [Raise].  The handlers compute with the
      date and time of what they parse, as naive datetimes; the
      migration removes the letter Z from the text before it parses.
      The sort of the children parses the text as it is and compares the
      results, which may be offset-aware ([pydatetime]).
    - Exceptions are values of [exn]; a computation that may raise returns
      a [result].
    - The Jira server and the HTTP endpoint are an oracle ([Repository])
      that answers each call from the history of the calls issued so far;
      the handler runs in a state monad over the [world] that records the
      calls, the messages shown to the operator and the console output. *)

From Stdlib Require Import ZArith Lia String Ascii DecimalString List Sorted Permutation.
From stdpp Require Import base option list gmap strings.
Import ListNotations.
Open Scope string_scope.
Open Scope list_scope.
Open Scope Z_scope.

(** ** Python exceptions and results *)

Inductive exn : Type :=
| TypeError (msg : string)
| ValueError (msg : string)
| OverflowError (msg : string)
| UnboundLocalError (var : string)
| JIRAError (msg : string)
| JSONDecodeError (msg : string)
| Exception_ (msg : string).

(** [str(e)], as interpolated by the f-strings that report an error.
    The text for [UnboundLocalError] is the one of Python 3.11 and later;
    earlier versions say [local variable 'data' referenced before
    assignment]. *)
Definition str_exn (e : exn) : string :=
  match e with
  | TypeError msg | ValueError msg | OverflowError msg
  | JIRAError msg | JSONDecodeError msg | Exception_ msg => msg
  | UnboundLocalError var =>
      "cannot access local variable '" +:+ var
      +:+ "' where it is not associated with a value"
  end.

Inductive result (A : Type) : Type :=
| Ok (a : A)
| Raise (e : exn).
Arguments Ok {A} a.
Arguments Raise {A} e.

Definition is_ok {A} (r : result A) : bool :=
  match r with Ok _ => true | Raise _ => false end.

(** [if value:] on a value that is a string or [None]. *)
Definition truthy (v : option string) : bool :=
  match v with
  | Some s => negb (String.eqb s EmptyString)
  | None => false
  end.

(** [str(value)] of a value known to be a string. *)
Definition str (v : option string) : string :=
  match v with Some s => s | None => "None" end.

(** ** The datetime module *)

Module Datetime.

Definition date := Z.
Definition datetime := Z.
Definition timedelta := Z.

Definition us_per_day : Z := 86400000000.

(** [date.min.toordinal()] and [date.max.toordinal()]. *)
Definition min_ordinal : Z := 1.
Definition max_ordinal : Z := 3652059.

(** [datetime.max] = 9999-12-31T23:59:59.999999. *)
Definition datetime_max : datetime := max_ordinal * us_per_day + (us_per_day - 1).

(** [datetime(y, m, d)] at midnight of the day with the given ordinal. *)
Definition midnight (d : date) : datetime := d * us_per_day.

(** [dt.date()]. *)
Definition date_of (dt : datetime) : date := dt / us_per_day.

(** [a - b] on two naive datetimes. *)
Definition datetime_sub (a b : datetime) : timedelta := a - b.

(** [td.days]: a timedelta is normalised with [0 <= seconds < 86400], so
    [days] is the floor. *)
Definition days (td : timedelta) : Z := td / us_per_day.

(** [timedelta(days=n)]. *)
Definition timedelta_of_days (n : Z) : timedelta := n * us_per_day.

(** [d + td] on a date: the seconds and microseconds of [td] are
    ignored, and a result outside [date.min .. date.max] raises. *)
Definition date_add (d : date) (td : timedelta) : result date :=
  let o := d + days td in
  if (min_ordinal <=? o) && (o <=? max_ordinal) then Ok o
  else Raise (OverflowError "date value out of range").

(** [a - b] on two dates. *)
Definition date_sub (a b : date) : timedelta := timedelta_of_days (a - b).

(** A value of [epic_duration]: the handler initialises it with the
    integer [0] and overwrites it with a timedelta. *)
Inductive int_or_timedelta : Type :=
| PyInt (n : Z)
| PyTimedelta (td : timedelta).

(** [d + v] where [v] is whatever [epic_duration] holds. *)
Definition date_plus (d : date) (v : int_or_timedelta) : result date :=
  match v with
  | PyInt _ =>
      Raise (TypeError "unsupported operand type(s) for +: 'datetime.date' and 'int'")
  | PyTimedelta td => date_add d td
  end.

(** A datetime as a comparison sees it: offset-naive, with its date and
    time, or offset-aware, with its instant in UTC. *)
Inductive pydatetime : Type :=
| Naive (dt : datetime)
| Aware (utc : datetime).

Definition instant (k : pydatetime) : datetime :=
  match k with Naive dt | Aware dt => dt end.

Definition is_aware (k : pydatetime) : bool :=
  match k with Aware _ => true | Naive _ => false end.

(** [a < b] on two datetimes. *)
Definition datetime_lt (a b : pydatetime) : result bool :=
  match a, b with
  | Naive x, Naive y | Aware x, Aware y => Ok (x <? y)
  | _, _ => Raise (TypeError "can't compare offset-naive and offset-aware datetimes")
  end.

End Datetime.
Import Datetime.

(** ** ISO dates: a concrete [fromisoformat] and [strftime("%Y-%m-%d")]

    The development is parametric in the parser and the formatter (see
    [DateLibrary]).  This module gives the instance used to run the
    model on concrete issues: it follows the pure Python implementation of
    the datetime module ([_ymd2ord], [_ord2ymd]) and reads the shapes
    [YYYY-MM-DD] and [YYYY-MM-DDTHH:MM:SS], the second one also followed
    by [Z] or by an offset [+HH:MM] or [-HH:MM]. *)

Module Iso.

Definition digit (c : ascii) : option Z :=
  let n := Z.of_nat (nat_of_ascii c) in
  if (48 <=? n) && (n <=? 57) then Some (n - 48) else None.

Fixpoint number (acc : Z) (cs : list ascii) : option Z :=
  match cs with
  | [] => Some acc
  | c :: cs' =>
      match digit c with
      | Some d => number (acc * 10 + d) cs'
      | None => None
      end
  end.

Definition is_leap (y : Z) : bool :=
  (y mod 4 =? 0) && (negb (y mod 100 =? 0) || (y mod 400 =? 0)).

Definition days_before_year (year : Z) : Z :=
  let y := year - 1 in y * 365 + y / 4 - y / 100 + y / 400.

Definition DAYS_IN_MONTH : list Z := [0; 31; 28; 31; 30; 31; 30; 31; 31; 30; 31; 30; 31].
Definition DAYS_BEFORE_MONTH : list Z :=
  [0; 0; 31; 59; 90; 120; 151; 181; 212; 243; 273; 304; 334].

Definition days_in_month (y m : Z) : Z :=
  if (m =? 2) && is_leap y then 29 else nth (Z.to_nat m) DAYS_IN_MONTH 0.

Definition days_before_month (y m : Z) : Z :=
  nth (Z.to_nat m) DAYS_BEFORE_MONTH 0 + (if (2 <? m) && is_leap y then 1 else 0).

Definition ymd2ord (y m d : Z) : date :=
  days_before_year y + days_before_month y m + d.

Definition ord2ymd (ordinal : date) : Z * Z * Z :=
  let n := ordinal - 1 in
  let n400 := n / 146097 in let n := n mod 146097 in
  let n100 := n / 36524 in let n := n mod 36524 in
  let n4 := n / 1461 in let n := n mod 1461 in
  let n1 := n / 365 in let n := n mod 365 in
  let year := n400 * 400 + 1 + n100 * 100 + n4 * 4 + n1 in
  if (n1 =? 4) || (n100 =? 4) then (year - 1, 12, 31)
  else
    let leapyear := (n1 =? 3) && (negb (n4 =? 24) || (n100 =? 3)) in
    let month := Z.shiftr (n + 50) 5 in
    let preceding :=
      nth (Z.to_nat month) DAYS_BEFORE_MONTH 0
      + (if (2 <? month) && leapyear then 1 else 0) in
    if n <? preceding then
      let month := month - 1 in
      let preceding :=
        preceding
        - (nth (Z.to_nat month) DAYS_IN_MONTH 0
           + (if (month =? 2) && leapyear then 1 else 0)) in
      (year, month, n - preceding + 1)
    else (year, month, n - preceding + 1).

Definition is_char (c : ascii) (s : string) : bool :=
  String.eqb (String c EmptyString) s.

Definition parse_date (cs : list ascii) : option date :=
  match cs with
  | [y1; y2; y3; y4; s1; m1; m2; s2; d1; d2] =>
      if is_char s1 "-" && is_char s2 "-" then
        y ← number 0 [y1; y2; y3; y4];
        m ← number 0 [m1; m2];
        d ← number 0 [d1; d2];
        if (1 <=? y) && (1 <=? m) && (m <=? 12) && (1 <=? d) && (d <=? days_in_month y m)
        then Some (ymd2ord y m d) else None
      else None
  | _ => None
  end.

(** The time of day, in microseconds. *)
Definition parse_time (cs : list ascii) : option Z :=
  match cs with
  | [h1; h2; s1; m1; m2; s2; c1; c2] =>
      if is_char s1 ":" && is_char s2 ":" then
        h ← number 0 [h1; h2];
        m ← number 0 [m1; m2];
        s ← number 0 [c1; c2];
        if (h <? 24) && (m <? 60) && (s <? 60)
        then Some (((h * 60 + m) * 60 + s) * 1000000) else None
      else None
  | _ => None
  end.

(** What follows the time: nothing, [Z] or an offset, in microseconds. *)
Definition parse_offset (cs : list ascii) : option (option timedelta) :=
  match cs with
  | [] => Some None
  | [z] => if is_char z "Z" then Some (Some 0) else None
  | [sign; h1; h2; sep; m1; m2] =>
      if is_char sep ":" && (is_char sign "+" || is_char sign "-") then
        h ← number 0 [h1; h2];
        m ← number 0 [m1; m2];
        if (h <? 24) && (m <? 60) then
          let off := (h * 60 + m) * 60000000 in
          Some (Some (if is_char sign "-" then - off else off))
        else None
      else None
  | _ => None
  end.

(** The date and the time of [datetime.fromisoformat(s)]; [None] stands
    for [ValueError]. *)
Definition fromisoformat (s : string) : option datetime :=
  let cs := list_ascii_of_string s in
  d ← parse_date (take 10%nat cs);
  match drop 10%nat cs with
  | [] => Some (midnight d)
  | sep :: rest =>
      if is_char sep "T" || is_char sep " " then
        t ← parse_time (take 8%nat rest);
        _ ← parse_offset (drop 8%nat rest);
        Some (midnight d + t)
      else None
  end.

(** The offset of [datetime.fromisoformat(s)], [None] when it is naive. *)
Definition utcoffset (s : string) : option timedelta :=
  match drop 10%nat (list_ascii_of_string s) with
  | [] => None
  | _ :: rest => default None (parse_offset (drop 8%nat rest))
  end.

Fixpoint zero_padded (width : nat) (z : Z) : string :=
  match width with
  | O => EmptyString
  | S w =>
      zero_padded w (z / 10)
      +:+ String (ascii_of_nat (Z.to_nat (48 + z mod 10))) EmptyString
  end.

(** [d.strftime("%Y-%m-%d")]. *)
Definition strftime (d : date) : string :=
  let '(y, m, dd) := ord2ymd d in
  zero_padded 4 y +:+ "-" +:+ zero_padded 2 m +:+ "-" +:+ zero_padded 2 dd.

End Iso.

(** ** Issues, payloads and calls *)

(** The side of a link on which the far issue sits, as recorded by the
    link snapshot: the strings ["outward"] and ["inward"]. *)
Inductive direction : Type := outward | inward.

(** One entry of [fields["issuelinks"]]: [link["type"]["name"]] and the
    key of [link["outwardIssue"]] or of [link["inwardIssue"]], for the
    entries of the dictionary that are there. *)
Record issue_link : Type := {
  link_type_name : string;
  outwardIssue : option string;
  inwardIssue : option string
}.

(** The [fields] of an issue; [status] and [issuetype] hold the [name] of
    the nested object, [None] when the entry is missing. *)
Record issue_fields : Type := {
  summary : option string;
  description : option string;
  status : option string;
  customfield_10015 : option string;
  duedate : option string;
  issuelinks : list issue_link;
  issuetype : option string
}.

Record issue : Type := {
  key : string;
  fields : issue_fields
}.

(** An entry of [jira.project(key).issueTypes]. *)
Record issue_type : Type := {
  it_name : string;
  it_id : option string
}.

(** The [issuetype] entry of a create payload: [{"name": ...}] or
    [{"id": ...}]. *)
Inductive issuetype_ref : Type :=
| ByName (name : string)
| ById (id : string).

(** The [fields] dictionary handed to [jira.create_issue]; an entry that
    the handler does not set is [None]. *)
Record create_fields : Type := {
  cf_project : string;
  cf_summary : option string;
  cf_description : option string;
  cf_issuetype : issuetype_ref;
  cf_customfield_10014 : option string;
  cf_customfield_10015 : option string;
  cf_duedate : option string
}.

(** A record of the link snapshot:
    [{"type": ..., "direction": ..., "key": ...}]. *)
Record link_record : Type := {
  lr_type : string;
  lr_direction : direction;
  lr_key : string
}.

(** The calls issued to the Issue Repository. *)
Inductive call : Type :=
| JiraIssue (issue_key : string)
| JiraProject (project_key : string)
| JiraCreateIssue (payload : create_fields)
| JiraCreateIssueLink (type inwardIssue outwardIssue : string)
| RequestsGet (url : string) (params : list (string * string)).

(** A call together with the exception it raised, if any. *)
Record event : Type := {
  ev_call : call;
  ev_raised : option exn
}.

(** The dictionary that [resp.json()] returns; the program reads its
    entry [issues], [None] when the entry is missing. *)
Record json_body : Type := {
  body_issues : option (list issue)
}.

(** An HTTP response: [resp.status_code], [resp.text] and what
    [resp.json()] does, which raises when the body is not JSON. *)
Record response : Type := {
  status_code : Z;
  text : string;
  json : result json_body
}.

(** [resp.json().get("issues")] for a body that decodes. *)
Definition json_issues (resp : response) : option (list issue) :=
  match json resp with
  | Ok body => body_issues body
  | Raise _ => None
  end.

(** What Streamlit shows to the operator. *)
Inductive message : Type :=
| st_write (s : string)
| st_info (s : string)
| st_success (s : string)
| st_error (s : string).

Record world : Type := {
  events : list event;
  screen : list message;
  console : list string
}.

(** The library functions of [datetime] whose text handling is not
    modelled.  [datetime.fromisoformat(s)] is given by two functions:
    [fromisoformat s] is the date and time of the result ([None] for
    [ValueError]) and [utcoffset s] the offset of its [tzinfo], [None]
    when the result is naive, as for every text without [Z] and without
    offset.  The third function is [date.strftime("%Y-%m-%d")]. *)
Class DateLibrary : Type := {
  fromisoformat : string -> option datetime;
  utcoffset : string -> option timedelta;
  strftime : date -> string
}.

(** The Issue Repository: what each call answers, given the calls issued
    before it. *)
Class Repository : Type := {
  jira_issue : list event -> string -> result issue;
  jira_project : list event -> string -> result (list issue_type);
  jira_create_issue : list event -> create_fields -> result string;
  jira_create_issue_link : list event -> string -> string -> string -> result unit;
  requests_get : list event -> string -> list (string * string) -> result response
}.

(** ** The handler monad *)

Definition M (A : Type) : Type := world -> result A * world.

Definition ret {A} (a : A) : M A := fun w => (Ok a, w).

Definition raise {A} (e : exn) : M A := fun w => (Raise e, w).

Definition lift {A} (r : result A) : M A := fun w => (r, w).

Definition bind {A B} (m : M A) (k : A -> M B) : M B :=
  fun w =>
    match m w with
    | (Ok a, w') => k a w'
    | (Raise e, w') => (Raise e, w')
    end.

(** [try: m  except Exception as e: h e]. *)
Definition try_except {A} (m : M A) (h : exn -> M A) : M A :=
  fun w =>
    match m w with
    | (Ok a, w') => (Ok a, w')
    | (Raise e, w') => h e w'
    end.

Definition result_bind {A B} (r : result A) (k : A -> result B) : result B :=
  match r with
  | Ok a => k a
  | Raise e => Raise e
  end.

Declare Scope py_scope.
Delimit Scope py_scope with py.
Notation "'let*' x := m 'in' k" := (bind m (fun x => k))
  (at level 10, x pattern, m at level 100, k at level 200) : py_scope.
Notation "m >> k" := (bind m (fun _ => k))
  (at level 100, k at level 200, right associativity) : py_scope.
Notation "'let?' x := r 'in' k" := (result_bind r (fun x => k))
  (at level 10, x pattern, r at level 100, k at level 200) : py_scope.
Open Scope py_scope.

Definition record_event (ev : event) (w : world) : world :=
  {| events := events w ++ [ev]; screen := screen w; console := console w |}.

(** Issue call [c], answered by [answer] from the calls made so far. *)
Definition perform {A} (c : call) (answer : list event -> result A) : M A :=
  fun w =>
    let r := answer (events w) in
    (r, record_event
          {| ev_call := c;
             ev_raised := match r with Ok _ => None | Raise e => Some e end |} w).

Definition show (m : message) : M unit :=
  fun w => (Ok tt, {| events := events w; screen := screen w ++ [m]; console := console w |}).

Definition print (line : string) : M unit :=
  fun w => (Ok tt, {| events := events w; screen := screen w; console := console w ++ [line] |}).

Fixpoint for_each {A} (l : list A) (body : A -> M unit) : M unit :=
  match l with
  | [] => ret tt
  | x :: l' => body x >> for_each l' body
  end.

(** A [for] loop whose body updates the local variables [s]. *)
Fixpoint for_fold {A S} (l : list A) (s : S) (body : S -> A -> M S) : M S :=
  match l with
  | [] => ret s
  | x :: l' => let* s' := body s x in for_fold l' s' body
  end.

(** ** Python's [sorted] and insertion-ordered dictionaries *)

Section Sorted.
Context {A : Type} (keyf : A -> pydatetime).

(** [x] goes before the first element whose key is not smaller than its
    own; a comparison that raises ends the insertion. *)
Fixpoint insert_sorted (x : A) (l : list A) : result (list A) :=
  match l with
  | [] => Ok [x]
  | y :: l' =>
      let? smaller := datetime_lt (keyf y) (keyf x) in
      if smaller then let? rest := insert_sorted x l' in Ok (y :: rest)
      else Ok (x :: y :: l')
  end.

(** [sorted(l, key=keyf)]: ascending and stable; the elements are
    compared through [<] on their keys only, and the exception of a
    comparison is the exception of the sort.  Which elements a sort
    compares depends on its algorithm, here insertions from the right.
    Its outcome does not ([sorted_outcome]): a sort has to relate every
    element to the others, so that it raises whenever the keys are of
    both kinds, and the stable ascending order of keys that compare is
    unique ([stable_sort_unique]). *)
Definition sorted (l : list A) : result (list A) :=
  fold_right (fun x acc => let? s := acc in insert_sorted x s) (Ok []) l.
End Sorted.

Section StableSort.
Context {A : Type} (keyf : A -> datetime).

(** The insertion among keys that compare. *)
Fixpoint stable_insert (x : A) (l : list A) : list A :=
  match l with
  | [] => [x]
  | y :: l' => if keyf y <? keyf x then y :: stable_insert x l' else x :: y :: l'
  end.

(** The stable ascending order of [l]. *)
Definition stable_sort (l : list A) : list A := fold_right stable_insert [] l.
End StableSort.

(** [d[k] = v] on a dictionary kept in insertion order: an existing key
    keeps its place. *)
Fixpoint dict_set {V} (d : list (string * V)) (k : string) (v : V) : list (string * V) :=
  match d with
  | [] => [(k, v)]
  | (k', v') :: d' =>
      if String.eqb k' k then (k, v) :: d' else (k', v') :: dict_set d' k v
  end.

(** [if not d.get(k)]: the value, when it is there and truthy. *)
Definition get_truthy (d : gmap string string) (k : string) : option string :=
  match d !! k with
  | Some v => if truthy (Some v) then Some v else None
  | None => None
  end.

(** [str(n)] of an integer. *)
Definition str_int (n : Z) : string := NilZero.string_of_int (Z.to_int n).

(** [s.replace("Z", "")]. *)
Fixpoint replace_Z (s : string) : string :=
  match s with
  | EmptyString => EmptyString
  | String c s' =>
      if Ascii.eqb c "Z" then replace_Z s' else String c (replace_Z s')
  end.

(** [s.rstrip("/")]. *)
Fixpoint rstrip_slash (s : string) : string :=
  match s with
  | EmptyString => EmptyString
  | String c s' =>
      match rstrip_slash s' with
      | EmptyString => if Ascii.eqb c "/" then EmptyString else String c EmptyString
      | rest => String c rest
      end
  end.

(** ** The functions of the application *)

Section Application.
Context `{!DateLibrary} `{!Repository}.

(** [datetime.fromisoformat(s)] in the handlers: the date and time of
    the result, with which they compute. *)
Definition parse_iso (s : string) : result datetime :=
  match fromisoformat s with
  | Some dt => Ok dt
  | None => Raise (ValueError ("Invalid isoformat string: '" +:+ s +:+ "'"))
  end.

(** [rest_api_get] (lines 151-160). *)
Definition rest_api_get (base_url path : string) (params : list (string * string))
  : M json_body :=
  let url := rstrip_slash base_url +:+ path in
  let* resp := perform (RequestsGet url params) (fun h => requests_get h url params) in
  if 400 <=? status_code resp then
    raise (Exception_ ("API error " +:+ str_int (status_code resp) +:+ ": " +:+ text resp))
  else lift (json resp).

(** The line printed for each issue of a search result. *)
Definition issue_line (i : issue) : string :=
  "Issue " +:+ key i +:+ ": " +:+ str (summary (fields i))
  +:+ " — status: " +:+ str (status (fields i)).

(** The body shared by the two search functions: on status 200 [data]
    is bound to [resp.json()], which raises when the body is not JSON,
    and the issues are printed; otherwise the error line is printed and
    [data] stays unbound; [data.get("issues", [])] comes next in both
    cases. *)
Definition search_issues (base_url : string) (params : list (string * string))
  : M (list issue) :=
  let url := base_url +:+ "/rest/api/3/search/jql" in
  let* resp := perform (RequestsGet url params) (fun h => requests_get h url params) in
  let* data :=
    (if status_code resp =? 200 then
       let* data := lift (json resp) in
       let issues := default [] (body_issues data) in
       for_each issues (fun i => print (issue_line i)) >>
       ret (Some data)
     else
       print ("Erreur HTTP " +:+ str_int (status_code resp) +:+ ": " +:+ text resp) >>
       ret None) in
  match data with
  | Some d => ret (default [] (body_issues d))
  | None => raise (UnboundLocalError "data")
  end.

(** [get_jql_template_epic] (lines 162-189); the query always asks for
    50 results. *)
Definition get_jql_template_epic (base_url : string) (maxResults : Z) : M (list issue) :=
  let jql := "project = PPT AND issuetype = Epic ORDER BY created DESC" in
  search_issues base_url
    [("jql", jql); ("startAt", "0"); ("maxResults", "50");
     ("fields", "summary,description,status,assignee,customfield_10015")].

(** [datetime.fromisoformat(s)] as a value: offset-aware when the text
    carries [Z] or an offset, and then compared by its instant in UTC. *)
Definition fromisoformat_value (s : string) : option pydatetime :=
  match fromisoformat s with
  | Some dt =>
      Some (match utcoffset s with
            | Some offset => Aware (dt - offset)
            | None => Naive dt
            end)
  | None => None
  end.

(** [get_start_date], the sort key of [ordre_child_issues]: the start
    date is parsed as it is, with its [Z] or its offset. *)
Definition get_start_date (i : issue) : pydatetime :=
  let start := customfield_10015 (fields i) in
  if truthy start then
    match fromisoformat_value (str start) with
    | Some dt => dt
    | None => Naive datetime_max
    end
  else Naive datetime_max.

(** [ordre_child_issues] (lines 220-235). *)
Definition ordre_child_issues (issues : list issue) : result (list issue) :=
  sorted get_start_date issues.

(** [get_child_issues_for_epic] (lines 191-218). *)
Definition get_child_issues_for_epic (base_url epic_key : string) (maxResults : Z)
  : M (list issue) :=
  let jql :=
    String "034" "parent" +:+ String "034" " = " +:+ epic_key
    +:+ " ORDER BY startdate ASC" in
  let* issues :=
    search_issues base_url
      [("jql", jql); ("maxResults", str_int maxResults);
       ("fields",
        "summary,status,assignee,reporter,description,customfield_10015,duedate,issuelinks,issuetype")] in
  lift (ordre_child_issues issues).

(** The template selection of the page (lines 359-376): the list of
    Epics, or the error shown to the operator. *)
Definition select_template (base_url : string) : M (list issue) :=
  try_except
    (let* epics := get_jql_template_epic base_url 100 in
     match epics with
     | [] => show (st_info "Aucun EPIC trouvé pour ce JQL.") >> ret []
     | _ => ret epics
     end)
    (fun e =>
       show (st_error ("Erreur en récupérant les Epics : " +:+ str_exn e)) >> ret []).

(** *** The [Migrate Template] handler (lines 552-703) *)

(** Lines 560-574: [epic_start_dt] and [epic_duration]. *)
Definition epic_dates (epic_start epic_due : option string)
  : result (option datetime * int_or_timedelta) :=
  if truthy epic_start then
    let? epic_start_dt := parse_iso (replace_Z (str epic_start)) in
    if truthy epic_due then
      let? epic_due_dt := parse_iso (replace_Z (str epic_due)) in
      Ok (Some epic_start_dt, PyTimedelta (datetime_sub epic_due_dt epic_start_dt))
    else Ok (Some epic_start_dt, PyInt 0)
  else Ok (None, PyInt 0).

(** Lines 579-586: the payload of the new Epic. *)
Definition new_epic_data (selected_key : string) (epic_fields : issue_fields)
    (new_start_date : date) (epic_duration : int_or_timedelta) : result create_fields :=
  let start := strftime new_start_date in
  let? due := date_plus new_start_date epic_duration in
  Ok {| cf_project := selected_key;
        cf_summary := summary epic_fields;
        cf_description := description epic_fields;
        cf_issuetype := ByName "Epic";
        cf_customfield_10014 := None;
        cf_customfield_10015 := Some start;
        cf_duedate := Some (strftime due) |}.

(** Lines 609-625: the snapshot of the links of a child. *)
Definition original_links (links : list issue_link) : list link_record :=
  flat_map
    (fun link =>
       match outwardIssue link, inwardIssue link with
       | Some k, _ =>
           [{| lr_type := link_type_name link; lr_direction := outward; lr_key := k |}]
       | None, Some k =>
           [{| lr_type := link_type_name link; lr_direction := inward; lr_key := k |}]
       | None, None => []
       end)
    links.

(** Lines 632-638: [new_child_start]. *)
Definition new_child_start (epic_start_dt : option datetime) (new_start_date : date)
    (orig_start : option string) : result (option date) :=
  match epic_start_dt with
  | Some epic_start_dt =>
      if truthy orig_start then
        let? child_start_dt := parse_iso (replace_Z (str orig_start)) in
        let delta_days := days (datetime_sub child_start_dt epic_start_dt) in
        let? d := date_add new_start_date (timedelta_of_days delta_days) in
        Ok (Some d)
      else Ok None
  | None => Ok None
  end.

(** Lines 640-647: [new_child_due]. *)
Definition new_child_due (new_child_start : option date)
    (orig_start orig_due : option string) : result (option date) :=
  if truthy orig_start && truthy orig_due then
    let? start_dt := parse_iso (replace_Z (str orig_start)) in
    let? due_dt := parse_iso (replace_Z (str orig_due)) in
    let duration := days (datetime_sub due_dt start_dt) in
    match new_child_start with
    | Some s =>
        let? d := date_add s (timedelta_of_days duration) in Ok (Some d)
    | None => Ok None
    end
  else Ok None.

(** Lines 652-658: the id of the first issue type of the target project
    whose name is the name of the child's type. *)
Fixpoint find_type_id (issue_types : list issue_type) (child_type_name : option string)
  : option string :=
  match issue_types with
  | [] => None
  | itype :: rest =>
      match child_type_name with
      | Some n =>
          if String.eqb (it_name itype) n then it_id itype
          else find_type_id rest child_type_name
      | None => find_type_id rest child_type_name
      end
  end.

(** The message of the exception of line 661. *)
Definition unsupported_type_message (child_type_name : option string)
    (selected_key : string) : string :=
  "Error while migrating '" +:+ str child_type_name
  +:+ "' in the project " +:+ selected_key.

(** Lines 660-661. *)
Definition child_type_id (issue_types : list issue_type)
    (child_type_name : option string) (selected_key : string) : result string :=
  let id := find_type_id issue_types child_type_name in
  if truthy id then Ok (str id)
  else Raise (Exception_ (unsupported_type_message child_type_name selected_key)).

(** Lines 665-677: the payload of a child. *)
Definition create_payload (selected_key new_epic_key type_id : string)
    (f : issue_fields) (new_child_start new_child_due : option date) : create_fields :=
  {| cf_project := selected_key;
     cf_summary := summary f;
     cf_description := description f;
     cf_issuetype := ById type_id;
     cf_customfield_10014 := Some new_epic_key;
     cf_customfield_10015 := strftime <$> new_child_start;
     cf_duedate := strftime <$> new_child_due |}.

(** The two dictionaries filled by the loop over the children. *)
Record key_maps : Type := {
  child_links_map : list (string * list link_record);
  old_to_new_keys : gmap string string
}.

(** Lines 603-684: the body of the loop over the children. *)
Definition migrate_child (selected_key new_epic_key : string)
    (epic_start_dt : option datetime) (new_start_date : date)
    (maps : key_maps) (ch : issue) : M key_maps :=
  let ch_key := key ch in
  let f := fields ch in
  let links_map := dict_set (child_links_map maps) ch_key (original_links (issuelinks f)) in
  let orig_start := customfield_10015 f in
  let orig_due := duedate f in
  let* start := lift (new_child_start epic_start_dt new_start_date orig_start) in
  let* due := lift (new_child_due start orig_start orig_due) in
  let* issue_types := perform (JiraProject selected_key) (fun h => jira_project h selected_key) in
  let child_type_name := issuetype f in
  let* type_id := lift (child_type_id issue_types child_type_name selected_key) in
  let payload := create_payload selected_key new_epic_key type_id f start due in
  let* new_issue_key :=
    perform (JiraCreateIssue payload) (fun h => jira_create_issue h payload) in
  show (st_write ("Task migrated: " +:+ new_issue_key)) >>
  ret {| child_links_map := links_map;
         old_to_new_keys := <[ch_key := new_issue_key]> (old_to_new_keys maps) |}.

(** [jira.create_issue_link(type=..., inwardIssue=..., outwardIssue=...)]. *)
Definition create_issue_link (type inwardIssue outwardIssue : string) : M unit :=
  perform (JiraCreateIssueLink type inwardIssue outwardIssue)
    (fun h => jira_create_issue_link h type inwardIssue outwardIssue).

(** Lines 690-698: the body of the loop over the links recorded for the
    child migrated to [new_key]. *)
Definition recreate_link (keys : gmap string string) (new_key : string)
    (link : link_record) : M unit :=
  let linked_old_key := lr_key link in
  match get_truthy keys linked_old_key with
  | None => ret tt
  | Some linked_new_key =>
      match lr_direction link with
      | outward => create_issue_link (lr_type link) new_key linked_new_key
      | inward => create_issue_link (lr_type link) linked_new_key new_key
      end
  end.

(** Lines 686-698: the reconstruction of the links. *)
Definition recreate_links (maps : key_maps) : M unit :=
  for_each (child_links_map maps)
    (fun '(old_key, links) =>
       match get_truthy (old_to_new_keys maps) old_key with
       | None => ret tt
       | Some new_key => for_each links (recreate_link (old_to_new_keys maps) new_key)
       end).

(** Lines 556-589: the new Epic; the key of the issue created and
    [epic_start_dt] are what the rest of the handler uses. *)
Definition create_new_epic (selected_epic selected_key : string) (new_start_date : date)
  : M (string * option datetime) :=
  let* epic_issue := perform (JiraIssue selected_epic) (fun h => jira_issue h selected_epic) in
  let epic_fields := fields epic_issue in
  let* dates := lift (epic_dates (customfield_10015 epic_fields) (duedate epic_fields)) in
  let epic_start_dt := fst dates in
  let epic_duration := snd dates in
  let* payload := lift (new_epic_data selected_key epic_fields new_start_date epic_duration) in
  let* new_epic_key :=
    perform (JiraCreateIssue payload) (fun h => jira_create_issue h payload) in
  show (st_success ("New EPIC created : " +:+ new_epic_key)) >>
  ret (new_epic_key, epic_start_dt).

(** Lines 600-684: the loop over the children, from empty dictionaries. *)
Definition migrate_children (selected_key new_epic_key : string)
    (epic_start_dt : option datetime) (new_start_date : date)
    (child_issues : list issue) : M key_maps :=
  for_fold child_issues {| child_links_map := []; old_to_new_keys := ∅ |}
    (migrate_child selected_key new_epic_key epic_start_dt new_start_date).

(** The statements of the [try] block. *)
Definition migrate_body (base_url selected_epic selected_key : string)
    (new_start_date : date) : M unit :=
  show (st_write "📌 Migration under process...") >>
  let* new_epic := create_new_epic selected_epic selected_key new_start_date in
  let* child_issues := get_child_issues_for_epic base_url selected_epic 200 in
  let* maps :=
    migrate_children selected_key (fst new_epic) (snd new_epic) new_start_date
      child_issues in
  recreate_links maps >>
  show (st_success "Successful migration!").

(** The handler of the [Migrate Template] button. *)
Definition migrate_template (base_url selected_epic selected_key : string)
    (new_start_date : date) : M unit :=
  try_except
    (migrate_body base_url selected_epic selected_key new_start_date)
    (fun e => show (st_error ("Error while migrating : " +:+ str_exn e))).

(** *** The chart of the page (lines 421-443): the dates of the Epic bar *)

(** [to_datetime_safe] (lines 267-276). *)
Definition to_datetime_safe (value : option string) : option datetime :=
  if truthy value then fromisoformat (str value) else None.

(** [delta_epic] (lines 436-439). *)
Definition delta_epic (epic_start_dt : option datetime) (new_start_date : date) : timedelta :=
  match epic_start_dt with
  | Some dt => date_sub new_start_date (date_of dt)
  | None => timedelta_of_days 0
  end.

(** [epic_start_gantt] (line 442), as a datetime. *)
Definition epic_start_gantt (epic_start_dt : option datetime) (new_start_date : date)
  : datetime :=
  match epic_start_dt with
  | Some dt => dt + delta_epic epic_start_dt new_start_date
  | None => midnight new_start_date
  end.

(** [epic_due_gantt] (line 443): without a due date, seven days after
    the start. *)
Definition epic_due_gantt (epic_start_dt epic_due_dt : option datetime)
    (new_start_date : date) : datetime :=
  match epic_due_dt with
  | Some dt => dt + delta_epic epic_start_dt new_start_date
  | None => epic_start_gantt epic_start_dt new_start_date + timedelta_of_days 7
  end.

End Application.

(** ** A sample repository

    A scripted Issue Repository to run the handler on concrete templates:
    it serves one Epic, one search response and one list of issue types,
    numbers the issues it creates ([DST-1], [DST-2], ...) and refuses the
    payloads that [accept] rejects. *)

Module Sample.

Definition iso : DateLibrary :=
  {| fromisoformat := Iso.fromisoformat;
     utcoffset := Iso.utcoffset;
     strftime := Iso.strftime |}.

Definition is_create (ev : event) : bool :=
  match ev_call ev with JiraCreateIssue _ => true | _ => false end.

Definition scripted (epic : issue) (search : response) (types : list issue_type)
    (accept : create_fields -> bool) : Repository :=
  {| jira_issue := fun _ _ => Ok epic;
     jira_project := fun _ _ => Ok types;
     jira_create_issue := fun h p =>
       if accept p
       then Ok ("DST-" +:+ str_int (1 + Z.of_nat (length (filter is_create h))))
       else Raise (JIRAError "create refused");
     jira_create_issue_link := fun _ _ _ _ => Ok tt;
     requests_get := fun _ _ _ => Ok search |}.

Definition dated (name : string) (type : string) (start due : option string)
    (links : list issue_link) : issue_fields :=
  {| summary := Some name; description := None; status := Some "To Do";
     customfield_10015 := start; duedate := due; issuelinks := links;
     issuetype := Some type |}.

Definition blocks_out (k : string) : issue_link :=
  {| link_type_name := "Blocks"; outwardIssue := Some k; inwardIssue := None |}.
Definition blocks_in (k : string) : issue_link :=
  {| link_type_name := "Blocks"; outwardIssue := None; inwardIssue := Some k |}.

Definition task_types : list issue_type :=
  [{| it_name := "Epic"; it_id := Some "10000" |};
   {| it_name := "Task"; it_id := Some "10001" |}].

(** A template Epic from 2024-01-10 to 2024-01-31. *)
Definition epic : issue :=
  {| key := "PPT-1";
     fields := dated "Template" "Epic" (Some "2024-01-10") (Some "2024-01-31") [] |}.

(** An Epic without dates. *)
Definition undated_epic : issue :=
  {| key := "PPT-1"; fields := dated "Template" "Epic" None None [] |}.

(** Two children linked to each other ([PPT-2] blocks [PPT-3]) and to an
    issue outside the template; the first has no due date. *)
Definition child_a : issue :=
  {| key := "PPT-2";
     fields := dated "Step A" "Task" (Some "2024-01-15") None
                 [blocks_out "PPT-3"; blocks_out "OTHER-9"] |}.
Definition child_b : issue :=
  {| key := "PPT-3";
     fields := dated "Step B" "Task" (Some "2024-01-12") (Some "2024-01-20")
                 [blocks_in "PPT-2"] |}.
Definition child_bug : issue :=
  {| key := "PPT-4";
     fields := dated "Step C" "Bug" (Some "2024-01-13") None [] |}.

Definition found (issues : list issue) : response :=
  {| status_code := 200; text := "{...}";
     json := Ok {| body_issues := Some issues |} |}.

(** The text of the exception of [resp.json()] on a body that does not
    start as JSON. *)
Definition not_json_message : string := "Expecting value: line 1 column 1 (char 0)".

Definition server_error : response :=
  {| status_code := 500; text := "Internal Server Error";
     json := Raise (JSONDecodeError not_json_message) |}.

(** An answer of status 200 whose body is a page of HTML. *)
Definition html_page : response :=
  {| status_code := 200; text := "<html>Maintenance</html>";
     json := Raise (JSONDecodeError not_json_message) |}.

Definition start_world : world := {| events := []; screen := []; console := [] |}.

(** 2024-06-01, the start date chosen by the operator. *)
Definition new_start_date : date := 739038.

Definition base_url : string := "https://jira.example".

End Sample.

(** * Properties *)

(** ** Dates *)

Lemma days_timedelta_of_days n : days (timedelta_of_days n) = n.
Proof. unfold days, timedelta_of_days, us_per_day. now rewrite Z.div_mul. Qed.

Lemma date_of_midnight d : date_of (midnight d) = d.
Proof. unfold date_of, midnight, us_per_day. now rewrite Z.div_mul. Qed.

Lemma days_sub_midnight a b :
  days (datetime_sub (midnight a) (midnight b)) = a - b.
Proof.
  unfold days, datetime_sub, midnight.
  rewrite <- Z.mul_sub_distr_r. unfold us_per_day. now rewrite Z.div_mul.
Qed.

(** Plain dates parse to midnight, where the time of day is 0. *)
Lemma midnight_time_of_day d : midnight d mod us_per_day = 0.
Proof. unfold midnight, us_per_day. apply Z.mod_mul. lia. Qed.

(** The chart, unlike the handler, moves the dates by a delta of 0 when
    the Epic has no start date, and ends the bar of an Epic without due
    date seven days after its start. *)
Lemma delta_epic_no_start new_start_date : delta_epic None new_start_date = 0.
Proof. reflexivity. Qed.

Lemma epic_due_gantt_placeholder epic_start_dt new_start_date :
  date_of (epic_due_gantt (Some (midnight epic_start_dt)) None new_start_date)
  = new_start_date + 7.
Proof.
  unfold epic_due_gantt, epic_start_gantt, delta_epic, date_sub, timedelta_of_days.
  rewrite date_of_midnight. unfold date_of, midnight.
  replace (epic_start_dt * us_per_day + (new_start_date - epic_start_dt) * us_per_day
           + 7 * us_per_day) with ((new_start_date + 7) * us_per_day) by lia.
  unfold us_per_day. now rewrite Z.div_mul.
Qed.



Example fromisoformat_date : Iso.fromisoformat "2024-01-15" = Some (midnight 738900).
Proof. reflexivity. Qed.

Example fromisoformat_time :
  Iso.fromisoformat "2024-01-15T06:00:00" = Some (midnight 738900 + 21600000000).
Proof. reflexivity. Qed.

Example fromisoformat_malformed : Iso.fromisoformat "15/01/2024" = None.
Proof. reflexivity. Qed.

Example fromisoformat_no_such_day : Iso.fromisoformat "2023-02-29" = None.
Proof. reflexivity. Qed.

Example strftime_date : Iso.strftime 738900 = "2024-01-15".
Proof. reflexivity. Qed.

Example strftime_leap_day : Iso.strftime (738900 + 45) = "2024-02-29".
Proof. reflexivity. Qed.

Example strftime_max : Iso.strftime max_ordinal = "9999-12-31".
Proof. reflexivity. Qed.

(** ** Sorting *)

Section SortedFacts.
Context {A : Type} (keyf : A -> datetime).

Definition key_le (a b : A) : Prop := keyf a <= keyf b.

Lemma stable_insert_perm x l : Permutation (x :: l) (stable_insert keyf x l).
Proof.
  induction l as [|y l IH]; simpl; [reflexivity|].
  destruct (keyf y <? keyf x); [|reflexivity].
  rewrite perm_swap. now apply perm_skip.
Qed.

Lemma stable_sort_perm l : Permutation l (stable_sort keyf l).
Proof.
  induction l as [|x l IH]; simpl; [constructor|].
  rewrite <- stable_insert_perm. now apply perm_skip.
Qed.

Lemma stable_insert_Forall (P : A -> Prop) x l :
  P x -> Forall P l -> Forall P (stable_insert keyf x l).
Proof.
  intros Hx Hl. eapply Permutation_Forall; [apply stable_insert_perm|].
  now constructor.
Qed.

Lemma stable_insert_ordered x l :
  StronglySorted key_le l -> StronglySorted key_le (stable_insert keyf x l).
Proof.
  induction 1 as [|y l Hs IH Hy]; simpl.
  - repeat constructor.
  - destruct (Z.ltb_spec (keyf y) (keyf x)) as [Hlt|Hge].
    + constructor; [exact IH|].
      apply stable_insert_Forall; [unfold key_le; lia | exact Hy].
    + constructor; [now constructor|].
      constructor; [exact Hge|].
      eapply Forall_impl; [exact Hy|]. unfold key_le. intros z Hz. simpl in Hz. lia.
Qed.

Lemma stable_sort_ordered l : StronglySorted key_le (stable_sort keyf l).
Proof.
  induction l as [|x l IH]; simpl; [constructor|].
  now apply stable_insert_ordered.
Qed.

(** Among the elements of one key, insertion puts the new element
    first and leaves the others as they were. *)
Lemma stable_insert_filter k x l :
  filter (fun a => keyf a = k) (stable_insert keyf x l)
  = filter (fun a => keyf a = k) (x :: l).
Proof.
  induction l as [|y l IH]; simpl; [reflexivity|].
  destruct (Z.ltb_spec (keyf y) (keyf x)) as [Hlt|Hge]; [|reflexivity].
  rewrite (filter_cons _ y), IH, !(filter_cons _ x), (filter_cons _ y).
  destruct (decide (keyf y = k)) as [Hy|Hy], (decide (keyf x = k)) as [Hx|Hx];
    try reflexivity.
  lia.
Qed.

Lemma stable_sort_stable k l :
  filter (fun a => keyf a = k) (stable_sort keyf l) = filter (fun a => keyf a = k) l.
Proof.
  induction l as [|x l IH]; simpl; [reflexivity|].
  rewrite stable_insert_filter, !filter_cons, IH. reflexivity.
Qed.

Lemma ordered_after_max l1 m l2 :
  StronglySorted key_le (l1 ++ m :: l2) ->
  Forall (fun a => keyf m <= keyf a) l2.
Proof.
  induction l1 as [|y l1 IH]; simpl; intros Hs.
  - apply StronglySorted_inv in Hs as [_ Hm]. exact Hm.
  - apply StronglySorted_inv in Hs as [Hs _]. now apply IH.
Qed.

End SortedFacts.

(** The stable ascending order does not depend on the sorting
    algorithm: two ascending arrangements that keep, for every key, the
    elements of that key in the same order are equal. *)
Section SortedUnique.
Context {A : Type} (keyf : A -> datetime).

Lemma filter_key_head (x : A) (t l : list A) :
  filter (fun a => keyf a = keyf x) l = x :: t -> In x l.
Proof.
  intros Hf. apply list_elem_of_In.
  assert (Hx : x ∈ filter (fun a => keyf a = keyf x) l) by (rewrite Hf; left).
  apply list_elem_of_filter in Hx as [_ Hx]. exact Hx.
Qed.

Lemma ascending_stable_unique (l1 l2 : list A) :
  StronglySorted (key_le keyf) l1 ->
  StronglySorted (key_le keyf) l2 ->
  (forall k, filter (fun a => keyf a = k) l1 = filter (fun a => keyf a = k) l2) ->
  l1 = l2.
Proof.
  intros Hs1. revert l2.
  induction Hs1 as [|x t1 Hs1 IH Hx]; intros l2 Hs2 Hf.
  - destruct l2 as [|y t2]; [reflexivity|].
    specialize (Hf (keyf y)). rewrite filter_cons_True in Hf by reflexivity.
    discriminate.
  - destruct Hs2 as [|y t2 Hs2 Hy].
    + specialize (Hf (keyf x)). rewrite filter_cons_True in Hf by reflexivity.
      discriminate.
    + assert (Hxy : keyf x = keyf y).
      { pose proof (Hf (keyf x)) as Hfx. rewrite filter_cons_True in Hfx by reflexivity.
        symmetry in Hfx. apply filter_key_head in Hfx as [->|Hin]; [reflexivity|].
        pose proof (Hf (keyf y)) as Hfy.
        rewrite (filter_cons_True _ y) in Hfy by reflexivity.
        apply filter_key_head in Hfy as [->|Hin']; [reflexivity|].
        rewrite Forall_forall in Hx, Hy.
        apply list_elem_of_In in Hin, Hin'. apply Hy in Hin. apply Hx in Hin'.
        unfold key_le in *. lia. }
      assert (x = y).
      { specialize (Hf (keyf x)). rewrite filter_cons_True in Hf by reflexivity.
        rewrite filter_cons_True in Hf by (symmetry; exact Hxy). congruence. }
      subst y. f_equal. apply IH; [exact Hs2|].
      intros k. specialize (Hf k). rewrite !filter_cons in Hf.
      destruct (decide (keyf x = k)); congruence.
Qed.

(** Any stable ascending arrangement is the one of [stable_sort]. *)
Lemma stable_sort_unique (l l' : list A) :
  StronglySorted (key_le keyf) l' ->
  (forall k, filter (fun a => keyf a = k) l' = filter (fun a => keyf a = k) l) ->
  l' = stable_sort keyf l.
Proof.
  intros Hs Hf. apply ascending_stable_unique; [exact Hs|apply stable_sort_ordered|].
  intros k. now rewrite Hf, stable_sort_stable.
Qed.

End SortedUnique.

(** ** The outcome of [sorted] *)

Section SortedOutcome.
Context {A : Type} (keyf : A -> pydatetime).

(** The keys of [x] and [y] are both offset-naive or both offset-aware. *)
Definition same_kind (x y : A) : bool :=
  Bool.eqb (is_aware (keyf x)) (is_aware (keyf y)).

(** The keys of [l] are all offset-naive or all offset-aware. *)
Definition one_kind (l : list A) : bool :=
  match l with
  | [] => true
  | x :: l' => forallb (same_kind x) l'
  end.

Definition comparison_message : string :=
  "can't compare offset-naive and offset-aware datetimes".

Lemma datetime_lt_same a b :
  is_aware a = is_aware b -> datetime_lt a b = Ok (instant a <? instant b).
Proof. destruct a, b; simpl; intros Hk; try discriminate; reflexivity. Qed.

Lemma datetime_lt_mixed a b :
  is_aware a <> is_aware b -> datetime_lt a b = Raise (TypeError comparison_message).
Proof. destruct a, b; simpl; intros Hk; try contradiction; reflexivity. Qed.

Lemma same_kind_true x y : same_kind x y = true <-> is_aware (keyf x) = is_aware (keyf y).
Proof. unfold same_kind. split; [apply Bool.eqb_prop|intros ->; apply Bool.eqb_reflx]. Qed.

Lemma same_kind_false x y : same_kind x y = false <-> is_aware (keyf x) <> is_aware (keyf y).
Proof.
  unfold same_kind. destruct (is_aware (keyf x)), (is_aware (keyf y)); simpl;
    split; congruence.
Qed.

Lemma one_kind_spec l :
  one_kind l = true <->
  forall a b, In a l -> In b l -> is_aware (keyf a) = is_aware (keyf b).
Proof.
  destruct l as [|x l]; simpl.
  - split; [intros _ a b []|reflexivity].
  - rewrite forallb_forall. split.
    + intros Hall a b Ha Hb.
      assert (Hx : forall c, x = c \/ In c l -> is_aware (keyf x) = is_aware (keyf c)).
      { intros c [<-|Hc]; [reflexivity|]. apply same_kind_true, Hall, Hc. }
      rewrite <- (Hx a Ha), <- (Hx b Hb). reflexivity.
    + intros Hall y Hy. apply same_kind_true. apply Hall; auto.
Qed.

Lemma one_kind_tail x l : one_kind (x :: l) = true -> one_kind l = true.
Proof.
  rewrite !one_kind_spec. intros Hall a b Ha Hb. apply Hall; right; assumption.
Qed.

Lemma insert_sorted_same x l :
  forallb (same_kind x) l = true ->
  insert_sorted keyf x l = Ok (stable_insert (fun a => instant (keyf a)) x l).
Proof.
  induction l as [|y l IH]; simpl; [reflexivity|].
  intros Hall. apply andb_prop in Hall as [Hy Hl].
  apply same_kind_true in Hy. rewrite (datetime_lt_same _ _ (eq_sym Hy)). simpl.
  destruct (instant (keyf y) <? instant (keyf x)); [|reflexivity].
  rewrite (IH Hl). reflexivity.
Qed.

Lemma sorted_one_kind l :
  one_kind l = true -> sorted keyf l = Ok (stable_sort (fun a => instant (keyf a)) l).
Proof.
  induction l as [|x l IH]; [reflexivity|].
  intros Hk. simpl. rewrite (IH (one_kind_tail _ _ Hk)). simpl.
  apply insert_sorted_same. simpl in Hk. rewrite forallb_forall in *.
  intros y Hy. apply Hk. eapply Permutation_in; [|exact Hy].
  symmetry. apply stable_sort_perm.
Qed.

Lemma sorted_mixed l :
  one_kind l = false -> sorted keyf l = Raise (TypeError comparison_message).
Proof.
  induction l as [|x l IH]; [discriminate|].
  intros Hk. simpl. destruct (one_kind l) eqn:Hl; [|now rewrite IH].
  rewrite (sorted_one_kind _ Hl). simpl.
  simpl in Hk.
  assert (Hy : exists y, In y l /\ same_kind x y = false).
  { clear -Hk. induction l as [|y l IH]; [discriminate|]. simpl in Hk.
    destruct (same_kind x y) eqn:Hy; [|exists y; split; [now left|assumption]].
    destruct (IH Hk) as (z & Hz & Hxz). exists z. split; [now right|assumption]. }
  destruct Hy as (y & Hy & Hxy).
  pose proof (stable_sort_perm (fun a => instant (keyf a)) l) as Hperm.
  destruct (stable_sort (fun a => instant (keyf a)) l) as [|h t] eqn:Hs.
  - apply Permutation_sym, Permutation_nil in Hperm. subst l. destruct Hy.
  - simpl. rewrite datetime_lt_mixed; [reflexivity|].
    assert (Hh : In h l) by (eapply Permutation_in; [symmetry; exact Hperm|now left]).
    rewrite one_kind_spec in Hl. rewrite (Hl h y Hh Hy).
    apply same_kind_false in Hxy. congruence.
Qed.

(** What [sorted] does: it raises exactly when the keys are of both
    kinds, and returns otherwise the stable ascending order. *)
Lemma sorted_outcome l :
  sorted keyf l =
  if one_kind l then Ok (stable_sort (fun a => instant (keyf a)) l)
  else Raise (TypeError comparison_message).
Proof.
  destruct (one_kind l) eqn:Hk; [now apply sorted_one_kind|now apply sorted_mixed].
Qed.

End SortedOutcome.

Section Ordering.
Context `{!DateLibrary}.

(** The start date of an issue is missing (absent, null or empty) or
    is text that [fromisoformat] rejects. *)
Definition no_start_date (i : issue) : Prop :=
  truthy (customfield_10015 (fields i)) = false
  \/ fromisoformat (str (customfield_10015 (fields i))) = None.

(** The start date of an issue parses to the date and time [dt], with
    the offset [offset] if it carries one. *)
Definition start_date_parsed (i : issue) (dt : datetime) (offset : option timedelta)
  : Prop :=
  truthy (customfield_10015 (fields i)) = true
  /\ fromisoformat (str (customfield_10015 (fields i))) = Some dt
  /\ utcoffset (str (customfield_10015 (fields i))) = offset.

Lemma get_start_date_missing i : no_start_date i -> get_start_date i = Naive datetime_max.
Proof.
  unfold no_start_date, get_start_date, fromisoformat_value.
  intros [Hm|Hm]; rewrite Hm; [reflexivity|]. now destruct (truthy _).
Qed.

Lemma get_start_date_naive i dt :
  start_date_parsed i dt None -> get_start_date i = Naive dt.
Proof.
  unfold get_start_date, fromisoformat_value. now intros (-> & -> & ->).
Qed.

Lemma get_start_date_aware i dt offset :
  start_date_parsed i dt (Some offset) -> get_start_date i = Aware (dt - offset).
Proof.
  unfold get_start_date, fromisoformat_value. now intros (-> & -> & ->).
Qed.

(** The start dates of [issues] carry no offset: each is missing, or
    rejected, or parses to a naive datetime. *)
Definition without_offsets (issues : list issue) : Prop :=
  forall i, In i issues -> is_aware (get_start_date i) = false.


Lemma ordre_child_issues_without_offsets issues :
  without_offsets issues ->
  ordre_child_issues issues
  = Ok (stable_sort (fun i => instant (get_start_date i)) issues).
Proof.
  intros Hnaive. unfold ordre_child_issues. apply sorted_one_kind.
  apply one_kind_spec. intros a b Ha Hb. now rewrite (Hnaive a Ha), (Hnaive b Hb).
Qed.

(** C6.  [ordre_child_issues] parses the start dates as they are.  A
    start date that carries [Z] or an offset gives an offset-aware key,
    while a missing or rejected start date gives [datetime.max] and a
    start date without offset its datetime, both naive.  The two kinds
    do not compare: when the list holds a child of the first kind, [a],
    and a child of the second, [b], the sort raises [TypeError] and
    returns no ordering. *)
Theorem ordre_child_issues_raises_on_mixed_keys (issues : list issue) (a b : issue)
    (dt : datetime) (offset : timedelta) :
  In a issues -> In b issues ->
  start_date_parsed a dt (Some offset) ->
  (no_start_date b \/ exists dt', start_date_parsed b dt' None) ->
  get_start_date a = Aware (dt - offset)
  /\ is_aware (get_start_date b) = false
  /\ ordre_child_issues issues = Raise (TypeError comparison_message).
Proof.
  intros Ha Hb Haware Hnaive.
  assert (Hka : get_start_date a = Aware (dt - offset)) by now apply get_start_date_aware.
  assert (Hkb : is_aware (get_start_date b) = false).
  { destruct Hnaive as [Hm|[dt' Hp]].
    - now rewrite (get_start_date_missing _ Hm).
    - now rewrite (get_start_date_naive _ _ Hp). }
  split; [exact Hka|]. split; [exact Hkb|].
  unfold ordre_child_issues. apply sorted_mixed.
  destruct (one_kind get_start_date issues) eqn:Hk; [|reflexivity].
  rewrite one_kind_spec in Hk. specialize (Hk a b Ha Hb).
  rewrite Hka, Hkb in Hk. discriminate.
Qed.

End Ordering.

(** The ordering of the specification's example, with a malformed start
    date added: [2024-03-01, missing, malformed, 2024-01-15] comes out as
    [2024-01-15, 2024-03-01, missing, malformed]. *)
Example ordre_child_issues_sample :
  let child (k : string) (start : option string) :=
    {| key := k; fields := Sample.dated k "Task" start None [] |} in
  @ordre_child_issues Sample.iso
    [child "K-1" (Some "2024-03-01"); child "K-2" None;
     child "K-3" (Some "01/02/2024"); child "K-4" (Some "2024-01-15")]
  = Ok [child "K-4" (Some "2024-01-15"); child "K-1" (Some "2024-03-01");
        child "K-2" None; child "K-3" (Some "01/02/2024")].
Proof. reflexivity. Qed.

(** ** The handler monad: what a computation adds to the history *)

Definition ev_ok (ev : event) : Prop := ev_raised ev = None.

Definition is_create_issue (ev : event) : bool :=
  match ev_call ev with JiraCreateIssue _ => true | _ => false end.

Definition is_create_link (ev : event) : bool :=
  match ev_call ev with JiraCreateIssueLink _ _ _ => true | _ => false end.

(** The calls that write to the repository. *)
Definition is_write (ev : event) : bool := is_create_issue ev || is_create_link ev.

Definition writes (evs : list event) : list event := List.filter is_write evs.

Lemma bind_inv {A B} (m : M A) (k : A -> M B) w r w' :
  bind m k w = (r, w') ->
  (exists a w1, m w = (Ok a, w1) /\ k a w1 = (r, w'))
  \/ (exists e, m w = (Raise e, w') /\ r = Raise e).
Proof.
  unfold bind. destruct (m w) as [[a|e] w1]; intros Hk.
  - left. eauto.
  - right. inversion Hk; subst. eauto.
Qed.

Lemma perform_inv {A} (c : call) (answer : list event -> result A) w r w' :
  perform c answer w = (r, w') ->
  answer (events w) = r
  /\ events w' =
       events w ++ [{| ev_call := c;
                       ev_raised := match r with Ok _ => None | Raise e => Some e end |}]
  /\ screen w' = screen w.
Proof. unfold perform. intros Hp. inversion Hp; subst. auto. Qed.

Lemma show_inv (m : message) w r w' :
  show m w = (r, w') ->
  r = Ok tt /\ events w' = events w /\ screen w' = screen w ++ [m].
Proof. unfold show. intros Hs. inversion Hs; subst. auto. Qed.

Lemma print_inv line w r w' :
  print line w = (r, w') -> r = Ok tt /\ events w' = events w /\ screen w' = screen w.
Proof. unfold print. intros Hs. inversion Hs; subst. auto. Qed.

Lemma lift_inv {A} (x : result A) w r w' : lift x w = (r, w') -> x = r /\ w' = w.
Proof. unfold lift. intros Hl. inversion Hl; subst. auto. Qed.

Lemma ret_inv {A} (a : A) w r w' : ret a w = (r, w') -> r = Ok a /\ w' = w.
Proof. unfold ret. intros Hl. inversion Hl; subst. auto. Qed.

Lemma raise_inv {A} (e : exn) w (r : result A) w' :
  raise e w = (r, w') -> r = Raise e /\ w' = w.
Proof. unfold raise. intros Hl. inversion Hl; subst. auto. Qed.

(** One step of inversion on a hypothesis [H : m w = (r, w')]. *)
Ltac inv_step H :=
  let a := fresh "a" in
  let w1 := fresh "w" in
  let e := fresh "e" in
  let H1 := fresh "Hm" in
  let H2 := fresh "Hk" in
  cbv beta iota in H;
  lazymatch type of H with
  | @bind _ _ _ _ _ = _ =>
      apply bind_inv in H as [(a & w1 & H1 & H2)|(e & H1 & H2)]
  | @perform _ _ _ _ = _ => apply perform_inv in H as (H1 & H2 & H)
  | show _ _ = _ => apply show_inv in H as (H1 & H2 & H)
  | print _ _ = _ => apply print_inv in H as (H1 & H2 & H)
  | @lift _ _ _ = _ => apply lift_inv in H as (H1 & H2)
  | @ret _ _ _ = _ => apply ret_inv in H as (H1 & H2)
  | @raise _ _ _ = _ => apply raise_inv in H as (H1 & H2)
  end.

(** Inversion of every run among the hypotheses. *)
Ltac inv_run :=
  repeat
    (cbv beta iota in *;
     match goal with
     | H : @bind _ _ _ _ _ = _ |- _ =>
         apply bind_inv in H as [(? & ? & ? & H)|(? & H & ?)]
     | H : @perform _ _ _ _ = _ |- _ => apply perform_inv in H as (? & ? & ?)
     | H : show _ _ = _ |- _ => apply show_inv in H as (? & ? & ?)
     | H : print _ _ = _ |- _ => apply print_inv in H as (? & ? & ?)
     | H : @lift _ _ _ = _ |- _ => apply lift_inv in H as (? & ?)
     | H : @ret _ _ _ = _ |- _ => apply ret_inv in H as (? & ?)
     | H : @raise _ _ _ = _ |- _ => apply raise_inv in H as (? & ?)
     end);
  simplify_eq.


Lemma for_each_print_inv {A} (l : list A) (line : A -> string) w r w' :
  for_each l (fun x => print (line x)) w = (r, w') ->
  r = Ok tt /\ events w' = events w /\ screen w' = screen w.
Proof.
  revert w. induction l as [|x l IH]; simpl; intros w Hf.
  - inv_step Hf. subst. auto.
  - inv_step Hf.
    + inv_step Hm. apply IH in Hk as (-> & -> & ->). auto.
    + inv_step Hm. subst. discriminate.
Qed.

(** ** The search functions *)

Section Search.
Context `{!DateLibrary} `{!Repository}.

Definition search_url (base_url : string) : string := base_url +:+ "/rest/api/3/search/jql".

(** What a search returns for the response [resp]. *)
Definition search_result (resp : response) : result (list issue) :=
  if status_code resp =? 200 then
    match json resp with
    | Ok body => Ok (default [] (body_issues body))
    | Raise e => Raise e
    end
  else Raise (UnboundLocalError "data").

(** After the response: nothing is added to the history or shown. *)
Lemma search_data_inv (resp : response) w r w' :
  (let* data :=
     (if status_code resp =? 200 then
        let* data := lift (json resp) in
        for_each (default [] (body_issues data)) (fun i => print (issue_line i)) >>
        ret (Some data)
      else
        print ("Erreur HTTP " +:+ str_int (status_code resp) +:+ ": " +:+ text resp) >>
        ret None) in
   match data with
   | Some d => ret (default [] (body_issues d))
   | None => raise (UnboundLocalError "data")
   end) w = (r, w') ->
  events w' = events w /\ screen w' = screen w /\ r = search_result resp.
Proof.
  unfold search_result. intros Hs. destruct (status_code resp =? 200).
  - destruct (json resp) as [body|e].
    + destruct (for_each (default [] (body_issues body)) (fun i => print (issue_line i)) w)
        as [r1 w1] eqn:Hp.
      pose proof (for_each_print_inv _ _ _ _ _ Hp) as (-> & Hev & Hsc).
      unfold bind, lift, ret in Hs. rewrite Hp in Hs. simplify_eq. auto.
    + unfold bind, lift in Hs. simplify_eq. auto.
  - unfold bind, print, ret, raise in Hs. simpl in Hs. simplify_eq. auto.
Qed.

(** A search issues one call and shows nothing; it returns what
    [search_result] says of the response, or the exception of the call. *)
Lemma search_issues_exact base_url params w :
  exists w',
    search_issues base_url params w
    = (match requests_get (events w) (search_url base_url) params with
       | Ok resp => search_result resp
       | Raise e => Raise e
       end, w')
    /\ events w'
       = events w
         ++ [{| ev_call := RequestsGet (search_url base_url) params;
                ev_raised :=
                  match requests_get (events w) (search_url base_url) params with
                  | Ok _ => None
                  | Raise e => Some e
                  end |}]
    /\ screen w' = screen w.
Proof.
  destruct (search_issues base_url params w) as [r w'] eqn:Hs. exists w'.
  unfold search_issues in Hs. fold (search_url base_url) in Hs.
  inv_step Hs.
  - inv_step Hm. apply search_data_inv in Hk as (Hev & Hsc & ->).
    rewrite Hm0. split; [reflexivity|]. split; congruence.
  - inv_step Hm. subst r. rewrite Hm0. split; [reflexivity|]. split; congruence.
Qed.

(** What a search adds to the history and returns: one call, and either
    the issues of a response of status 200, or the exception of the call,
    or [UnboundLocalError] for [data] after any other status, or the
    exception of [resp.json()] on a body that is not JSON. *)
Lemma search_issues_inv base_url params w r w' :
  search_issues base_url params w = (r, w') ->
  exists ev,
    events w' = events w ++ [ev]
    /\ screen w' = screen w
    /\ ev_call ev = RequestsGet (search_url base_url) params
    /\ match r with
       | Ok issues =>
           exists resp,
             requests_get (events w) (search_url base_url) params = Ok resp
             /\ status_code resp = 200
             /\ issues = default [] (json_issues resp)
             /\ ev_ok ev
       | Raise e =>
           (requests_get (events w) (search_url base_url) params = Raise e /\ ~ ev_ok ev)
           \/ (exists resp,
                 requests_get (events w) (search_url base_url) params = Ok resp
                 /\ status_code resp <> 200
                 /\ e = UnboundLocalError "data"
                 /\ ev_ok ev)
           \/ (exists resp,
                 requests_get (events w) (search_url base_url) params = Ok resp
                 /\ status_code resp = 200
                 /\ json resp = Raise e
                 /\ ev_ok ev)
       end.
Proof.
  intros Hs. destruct (search_issues_exact base_url params w) as (w1 & Hrun & Hev & Hsc).
  rewrite Hs in Hrun. injection Hrun as -> <-.
  eexists. split; [exact Hev|]. split; [exact Hsc|]. split; [reflexivity|].
  destruct (requests_get (events w) (search_url base_url) params) as [resp|e] eqn:Hresp.
  - unfold search_result.
    destruct (Z.eqb_spec (status_code resp) 200) as [H200|H200].
    + destruct (json resp) as [body|e] eqn:Hjson.
      * exists resp. unfold json_issues. rewrite Hjson.
        split; [reflexivity|]. split; [assumption|]. split; reflexivity.
      * right. right. exists resp.
        split; [reflexivity|]. split; [assumption|]. split; [assumption|reflexivity].
    + right. left. exists resp.
      split; [reflexivity|]. split; [assumption|]. split; reflexivity.
  - left. split; [reflexivity|]. unfold ev_ok. simpl. discriminate.
Qed.

End Search.

(** ** The loop over the children *)

Section Children.
Context `{!DateLibrary} `{!Repository}.
Variables (selected_key new_epic_key : string).
Variables (epic_start_dt : option datetime) (new_start_date : date).

(** [ev] is the call that creates the copy of the child [ch]: its payload
    is the one of lines 665-677, with the dates of lines 632-647. *)
Definition creates_child (ch : issue) (ev : event) : Prop :=
  exists type_id start due,
    new_child_start epic_start_dt new_start_date (customfield_10015 (fields ch)) = Ok start
    /\ new_child_due start (customfield_10015 (fields ch)) (duedate (fields ch)) = Ok due
    /\ ev_call ev =
         JiraCreateIssue
           (create_payload selected_key new_epic_key type_id (fields ch) start due).

(** The calls of one iteration, and whether it completed. *)
Inductive child_step (ch : issue) : list event -> bool -> Prop :=
| step_no_call : child_step ch [] false
| step_no_type pev :
    ev_call pev = JiraProject selected_key ->
    child_step ch [pev] false
| step_refused pev cev :
    ev_call pev = JiraProject selected_key -> ev_ok pev ->
    creates_child ch cev -> ~ ev_ok cev ->
    child_step ch [pev; cev] false
| step_created pev cev :
    ev_call pev = JiraProject selected_key -> ev_ok pev ->
    creates_child ch cev -> ev_ok cev ->
    child_step ch [pev; cev] true.

(** The calls of the loop, and whether it reached its end. *)
Inductive child_phase : list issue -> list event -> bool -> Prop :=
| phase_done : child_phase [] [] true
| phase_abort ch rest evs :
    child_step ch evs false -> child_phase (ch :: rest) evs false
| phase_next ch rest evs1 evs2 b :
    child_step ch evs1 true -> child_phase rest evs2 b ->
    child_phase (ch :: rest) (evs1 ++ evs2) b.



End Children.

(** ** The reconstruction of the links *)

(** A list of calls issued one after the other until one raises: the
    calls issued, and whether the end of the list was reached. *)
Inductive plan_run : list call -> list event -> bool -> Prop :=
| plan_done : plan_run [] [] true
| plan_raised c rest ev :
    ev_call ev = c -> ~ ev_ok ev -> plan_run (c :: rest) [ev] false
| plan_next c rest ev evs b :
    ev_call ev = c -> ev_ok ev -> plan_run rest evs b ->
    plan_run (c :: rest) (ev :: evs) b.

Lemma plan_run_app p1 p2 evs1 evs2 b :
  plan_run p1 evs1 true -> plan_run p2 evs2 b -> plan_run (p1 ++ p2) (evs1 ++ evs2) b.
Proof.
  intros H1. remember true as t eqn:Ht. revert Ht.
  induction H1; intros Ht H2; simpl; try discriminate; [assumption|].
  apply plan_next; auto.
Qed.

Lemma plan_run_abort p1 p2 evs : plan_run p1 evs false -> plan_run (p1 ++ p2) evs false.
Proof.
  intros H1. remember false as f eqn:Hf. revert Hf.
  induction H1; intros Hf; simpl; try discriminate.
  - now apply plan_raised.
  - apply plan_next; auto.
Qed.

Lemma plan_run_calls p evs b :
  plan_run p evs b ->
  exists rest, p = map ev_call evs ++ rest /\ (b = true -> rest = [] /\ Forall ev_ok evs).
Proof.
  induction 1 as [|c rest ev Hc Hr|c rest ev evs b Hc Hok Hrun IH]; simpl.
  - exists []. split; [reflexivity|]. intros _. split; [reflexivity|constructor].
  - exists rest. subst c. split; [reflexivity|discriminate].
  - destruct IH as (rest' & -> & Hb). exists rest'. subst c. split; [reflexivity|].
    intros Hbt. destruct (Hb Hbt) as [-> Hall]. split; [reflexivity|now constructor].
Qed.

Lemma plan_run_ok_but_last p evs b :
  plan_run p evs b -> Forall ev_ok (removelast evs) /\ (b = false -> evs <> []).
Proof.
  induction 1 as [|c rest ev Hc Hr|c rest ev evs b Hc Hok Hrun [IH1 IH2]]; simpl.
  - split; [constructor|discriminate].
  - split; [constructor|discriminate].
  - split; [|discriminate]. destruct evs as [|ev' evs]; [constructor|].
    constructor; assumption.
Qed.

Section Links.
Context `{!DateLibrary} `{!Repository}.

(** [m] issues the calls of [plan], in order, until one raises, and shows
    nothing. *)
Definition follows_plan (m : M unit) (plan : list call) : Prop :=
  forall w r w',
    m w = (r, w') ->
    exists evs,
      events w' = events w ++ evs /\ screen w' = screen w /\ plan_run plan evs (is_ok r).

(** The call of lines 695-698 for one recorded link, when the far issue
    has a new key. *)
Definition link_call (keys : gmap string string) (new_key : string) (link : link_record)
  : option call :=
  match get_truthy keys (lr_key link) with
  | None => None
  | Some linked_new_key =>
      Some (match lr_direction link with
            | outward => JiraCreateIssueLink (lr_type link) new_key linked_new_key
            | inward => JiraCreateIssueLink (lr_type link) linked_new_key new_key
            end)
  end.

(** The calls for the links recorded under one old key. *)
Definition entry_calls (keys : gmap string string) (entry : string * list link_record)
  : list call :=
  match get_truthy keys (fst entry) with
  | None => []
  | Some new_key => omap (link_call keys new_key) (snd entry)
  end.

(** All the calls of the reconstruction, in the order of the dictionary. *)
Definition planned_links (maps : key_maps) : list call :=
  flat_map (entry_calls (old_to_new_keys maps)) (child_links_map maps).

Lemma follows_plan_ret : follows_plan (ret tt) [].
Proof.
  intros w r w' Hr. inv_run. exists []. rewrite app_nil_r. repeat split. constructor.
Qed.

Lemma follows_plan_create_issue_link type inw outw :
  follows_plan (create_issue_link type inw outw) [JiraCreateIssueLink type inw outw].
Proof.
  intros w r w' Hr. unfold create_issue_link in Hr. inv_run.
  eexists. split; [eassumption|]. split; [assumption|].
  destruct (jira_create_issue_link _ _ _ _) as [[]|e]; simpl.
  - apply plan_next; [reflexivity..|constructor].
  - apply plan_raised; [reflexivity|discriminate].
Qed.

Lemma follows_plan_for_each {A} (l : list A) (body : A -> M unit) (plan : A -> list call) :
  (forall x, In x l -> follows_plan (body x) (plan x)) ->
  follows_plan (for_each l body) (flat_map plan l).
Proof.
  induction l as [|x l IH]; simpl; intros Hbody.
  - apply follows_plan_ret.
  - intros w r w' Hr. inv_step Hr.
    + apply (Hbody x (or_introl eq_refl)) in Hm as (evs1 & Hev1 & Hsc1 & Hrun1).
      apply IH in Hk as (evs2 & Hev2 & Hsc2 & Hrun2); [|auto].
      exists (evs1 ++ evs2). rewrite Hev2, Hev1, app_assoc, Hsc2, Hsc1.
      repeat split. now apply plan_run_app.
    + apply (Hbody x (or_introl eq_refl)) in Hm as (evs1 & Hev1 & Hsc1 & Hrun1).
      subst r. exists evs1. repeat split; [assumption..|]. now apply plan_run_abort.
Qed.

Lemma follows_plan_recreate_link keys new_key link :
  follows_plan (recreate_link keys new_key link)
    (option_list (link_call keys new_key link)).
Proof.
  unfold recreate_link, link_call.
  destruct (get_truthy keys (lr_key link)) as [linked|]; simpl.
  - destruct (lr_direction link); apply follows_plan_create_issue_link.
  - apply follows_plan_ret.
Qed.

Lemma flat_map_option_list {A B} (f : A -> option B) (l : list A) :
  flat_map (fun x => option_list (f x)) l = omap f l.
Proof.
  induction l as [|x l IH]; simpl; [reflexivity|].
  rewrite IH. now destruct (f x).
Qed.

Lemma follows_plan_recreate_links maps :
  follows_plan (recreate_links maps) (planned_links maps).
Proof.
  unfold recreate_links, planned_links.
  apply follows_plan_for_each. intros [old_key links] _.
  unfold entry_calls. simpl.
  destruct (get_truthy (old_to_new_keys maps) old_key) as [new_key|].
  - rewrite <- flat_map_option_list.
    apply follows_plan_for_each. intros link _. apply follows_plan_recreate_link.
  - apply follows_plan_ret.
Qed.

End Links.

Section LinkClaims.
Context `{!DateLibrary} `{!Repository}.

(** The link that the call [c] creates has type [type] and joins [from]
    to [to] with [to] on the side [dir]: as [outwardIssue] of the call
    for [outward], as [inwardIssue] for [inward].  This is the side
    under which the snapshot of [from] records a far issue. *)
Definition links_from_to (c : call) (type : string) (dir : direction) (from to : string)
  : Prop :=
  c = match dir with
      | outward => JiraCreateIssueLink type from to
      | inward => JiraCreateIssueLink type to from
      end.

Lemma get_truthy_lookup (keys : gmap string string) k v :
  get_truthy keys k = Some v -> keys !! k = Some v.
Proof.
  unfold get_truthy. destruct (keys !! k) as [v'|]; [|discriminate].
  destruct (truthy (Some v')); congruence.
Qed.

Lemma get_truthy_absent (keys : gmap string string) k :
  keys !! k = None -> get_truthy keys k = None.
Proof. unfold get_truthy. now intros ->. Qed.

Lemma In_omap {A B} (f : A -> option B) (l : list A) (y : B) :
  In y (omap f l) <-> exists x, In x l /\ f x = Some y.
Proof.
  rewrite <- list_elem_of_In, list_elem_of_omap.
  split; intros (x & Hx & Hf); exists x; split; auto; now apply list_elem_of_In.
Qed.

Lemma In_planned_links maps c :
  In c (planned_links maps) <->
  exists old_key links link new_key,
    In (old_key, links) (child_links_map maps)
    /\ In link links
    /\ get_truthy (old_to_new_keys maps) old_key = Some new_key
    /\ link_call (old_to_new_keys maps) new_key link = Some c.
Proof.
  unfold planned_links. rewrite in_flat_map. split.
  - intros ([old_key links] & Hentry & Hc). unfold entry_calls in Hc. simpl in Hc.
    destruct (get_truthy _ old_key) as [new_key|] eqn:Hnew; [|contradiction].
    apply In_omap in Hc as (link & Hlink & Hcall).
    exists old_key, links, link, new_key. auto.
  - intros (old_key & links & link & new_key & Hentry & Hlink & Hnew & Hcall).
    exists (old_key, links). split; [assumption|].
    unfold entry_calls. simpl. rewrite Hnew. apply In_omap. eauto.
Qed.

Lemma link_call_Some keys new_key link c :
  link_call keys new_key link = Some c <->
  exists linked_new_key,
    get_truthy keys (lr_key link) = Some linked_new_key
    /\ links_from_to c (lr_type link) (lr_direction link) new_key linked_new_key.
Proof.
  unfold link_call, links_from_to.
  destruct (get_truthy keys (lr_key link)) as [linked|]; split.
  - intros Hc. inversion Hc. eauto.
  - intros (l' & Hl & ->). inversion Hl. reflexivity.
  - discriminate.
  - intros (l' & Hl & _). discriminate.
Qed.

Lemma plan_run_In p evs b ev : plan_run p evs b -> In ev evs -> In (ev_call ev) p.
Proof.
  intros Hrun Hin. apply plan_run_calls in Hrun as (rest & -> & _).
  apply in_or_app. left. now apply in_map.
Qed.

Lemma plan_run_complete p evs c :
  plan_run p evs true -> In c p -> exists ev, In ev evs /\ ev_ok ev /\ ev_call ev = c.
Proof.
  intros Hrun Hin. apply plan_run_calls in Hrun as (rest & -> & Hb).
  destruct (Hb eq_refl) as [-> Hall]. rewrite app_nil_r in Hin.
  apply in_map_iff in Hin as (ev & Hc & Hev). exists ev. repeat split; auto.
  rewrite Forall_forall in Hall. apply Hall. now apply list_elem_of_In.
Qed.

Lemma original_links_In links r :
  In r (original_links links) <->
  exists l,
    In l links
    /\ lr_type r = link_type_name l
    /\ ((outwardIssue l = Some (lr_key r) /\ lr_direction r = outward)
        \/ (outwardIssue l = None /\ inwardIssue l = Some (lr_key r)
            /\ lr_direction r = inward)).
Proof.
  unfold original_links. rewrite in_flat_map. split.
  - intros (l & Hl & Hr). exists l. split; [assumption|].
    destruct (outwardIssue l) as [k|] eqn:Hout; [|destruct (inwardIssue l) as [k|] eqn:Hinw].
    + destruct Hr as [<-|[]]. simpl. auto.
    + destruct Hr as [<-|[]]. simpl. auto.
    + contradiction.
  - intros (l & Hl & Ht & Hside). exists l. split; [assumption|].
    destruct r as [t d k]. simpl in *. subst t.
    destruct Hside as [[-> ->]|(-> & -> & ->)]; simpl; auto.
Qed.

(** C4.  The snapshot records a link as outward exactly when the entry
    of the child names an [outwardIssue] (and as inward when it names
    only an [inwardIssue]), with the name of the link type.  Every call
    that the reconstruction issues comes from a record [link] of a child
    [old_key], both ends having new keys, and creates a link of the
    recorded type from the new key of the child to the new key of the far
    issue with the far issue on the recorded side: an outward record
    gives [create_issue_link(type, inwardIssue=new_key,
    outwardIssue=linked_new_key)], so the far issue is again the outward
    issue.  When no call raises, every such record is recreated. *)
Theorem recreated_links_keep_type_and_direction (maps : key_maps) (w : world) :
  (forall links r,
     In r (original_links links) <->
     exists l,
       In l links
       /\ lr_type r = link_type_name l
       /\ ((outwardIssue l = Some (lr_key r) /\ lr_direction r = outward)
           \/ (outwardIssue l = None /\ inwardIssue l = Some (lr_key r)
               /\ lr_direction r = inward)))
  /\ exists evs,
       events (snd (recreate_links maps w)) = events w ++ evs
       /\ (forall ev,
             In ev evs ->
             exists old_key links link new_key linked_new_key,
               In (old_key, links) (child_links_map maps)
               /\ In link links
               /\ old_to_new_keys maps !! old_key = Some new_key
               /\ old_to_new_keys maps !! lr_key link = Some linked_new_key
               /\ links_from_to (ev_call ev) (lr_type link) (lr_direction link)
                    new_key linked_new_key)
       /\ (fst (recreate_links maps w) = Ok tt ->
           forall old_key links link new_key linked_new_key,
             In (old_key, links) (child_links_map maps) ->
             In link links ->
             get_truthy (old_to_new_keys maps) old_key = Some new_key ->
             get_truthy (old_to_new_keys maps) (lr_key link) = Some linked_new_key ->
             exists ev,
               In ev evs /\ ev_ok ev
               /\ links_from_to (ev_call ev) (lr_type link) (lr_direction link)
                    new_key linked_new_key).
Proof.
  split; [apply original_links_In|].
  destruct (recreate_links maps w) as [r w'] eqn:Hrun. simpl.
  apply follows_plan_recreate_links in Hrun as (evs & Hev & _ & Hplan).
  exists evs. split; [assumption|]. split.
  - intros ev Hin. apply (plan_run_In _ _ _ _ Hplan) in Hin.
    apply In_planned_links in Hin as (old_key & links & link & new_key & He & Hl & Hn & Hc).
    apply link_call_Some in Hc as (linked & Hlinked & Hft).
    exists old_key, links, link, new_key, linked.
    repeat split; auto using get_truthy_lookup.
  - intros -> old_key links link new_key linked He Hl Hn Hlinked.
    destruct (plan_run_complete _ _
                (match lr_direction link with
                 | outward => JiraCreateIssueLink (lr_type link) new_key linked
                 | inward => JiraCreateIssueLink (lr_type link) linked new_key
                 end) Hplan) as (ev & Hin & Hok & Hcall).
    + apply In_planned_links. exists old_key, links, link, new_key.
      repeat split; auto. apply link_call_Some. exists linked. split; [assumption|].
      reflexivity.
    + exists ev. repeat split; auto.
Qed.

End LinkClaims.

Section LinkEndpoints.
Context `{!DateLibrary} `{!Repository}.

Lemma for_each_skip {A} (l : list A) (body : A -> M unit) w :
  (forall x w0, In x l -> body x w0 = (Ok tt, w0)) -> for_each l body w = (Ok tt, w).
Proof.
  induction l as [|x l IH]; simpl; intros Hbody; [reflexivity|].
  unfold bind. rewrite Hbody by auto. apply IH. auto.
Qed.

Lemma recreate_link_skip keys new_key link w :
  keys !! lr_key link = None -> recreate_link keys new_key link w = (Ok tt, w).
Proof.
  intros Hnone. unfold recreate_link. now rewrite (get_truthy_absent _ _ Hnone).
Qed.

(** C5.  Every call that the reconstruction issues is for a recorded
    link whose two ends, the child and the far issue, are both in
    [old_to_new_keys], and it joins their new keys.  A recorded link
    whose far issue is not in the dictionary is passed over: the body of
    the loop returns normally and leaves the history, the screen and the
    console as they were; when that holds for all the recorded links the
    whole reconstruction does nothing and succeeds. *)
Theorem links_need_both_endpoints (maps : key_maps) (w : world) :
  (exists evs,
     events (snd (recreate_links maps w)) = events w ++ evs
     /\ screen (snd (recreate_links maps w)) = screen w
     /\ forall ev,
          In ev evs ->
          exists old_key links link new_key linked_new_key,
            In (old_key, links) (child_links_map maps)
            /\ In link links
            /\ old_to_new_keys maps !! old_key = Some new_key
            /\ old_to_new_keys maps !! lr_key link = Some linked_new_key
            /\ (ev_call ev = JiraCreateIssueLink (lr_type link) new_key linked_new_key
                \/ ev_call ev = JiraCreateIssueLink (lr_type link) linked_new_key new_key))
  /\ (forall new_key link w0,
        old_to_new_keys maps !! lr_key link = None ->
        recreate_link (old_to_new_keys maps) new_key link w0 = (Ok tt, w0))
  /\ ((forall old_key links link,
         In (old_key, links) (child_links_map maps) ->
         In link links ->
         old_to_new_keys maps !! lr_key link = None) ->
      recreate_links maps w = (Ok tt, w)).
Proof.
  split; [|split].
  - destruct (recreate_links maps w) as [r w'] eqn:Hrun. simpl.
    apply follows_plan_recreate_links in Hrun as (evs & Hev & Hsc & Hplan).
    exists evs. split; [assumption|]. split; [assumption|].
    intros ev Hin. apply (plan_run_In _ _ _ _ Hplan) in Hin.
    apply In_planned_links in Hin as (old_key & links & link & new_key & He & Hl & Hn & Hc).
    apply link_call_Some in Hc as (linked & Hlinked & Hft).
    exists old_key, links, link, new_key, linked.
    repeat split; auto using get_truthy_lookup.
    unfold links_from_to in Hft. destruct (lr_direction link); auto.
  - intros new_key link w0. apply recreate_link_skip.
  - intros Hout. unfold recreate_links. apply for_each_skip.
    intros [old_key links] w0 Hentry.
    destruct (get_truthy (old_to_new_keys maps) old_key); [|reflexivity].
    apply for_each_skip. intros link w1 Hlink.
    apply recreate_link_skip. eauto.
Qed.

Lemma In_two_split {A} (x y : A) (l : list A) :
  In x l -> In y l -> x <> y ->
  exists l1 l2 l3, l = l1 ++ x :: l2 ++ y :: l3 \/ l = l1 ++ y :: l2 ++ x :: l3.
Proof.
  intros Hx Hy Hne. apply in_split in Hx as (a & b & ->).
  apply in_app_or in Hy as [Hy|[Hy|Hy]].
  - apply in_split in Hy as (a1 & a2 & ->). exists a1, a2, b. right.
    now rewrite <- app_assoc.
  - contradiction.
  - apply in_split in Hy as (b1 & b2 & ->). exists a, b1, b2. now left.
Qed.

Lemma flat_map_two {A B} (f : A -> list B) (c : B) (x y : A) (l1 l2 l3 : list A) :
  In c (f x) -> In c (f y) ->
  exists p1 p2 p3, flat_map f (l1 ++ x :: l2 ++ y :: l3) = p1 ++ c :: p2 ++ c :: p3.
Proof.
  intros Hx Hy.
  apply in_split in Hx as (a1 & a2 & Hfx). apply in_split in Hy as (b1 & b2 & Hfy).
  rewrite flat_map_app. simpl. rewrite flat_map_app. simpl. rewrite Hfx, Hfy.
  exists (flat_map f l1 ++ a1), (a2 ++ flat_map f l2 ++ b1), (b2 ++ flat_map f l3).
  repeat (rewrite <- app_assoc; simpl). reflexivity.
Qed.

Lemma map_split_two {A B} (f : A -> B) (l : list A) (c : B) (p1 p2 p3 : list B) :
  map f l = p1 ++ c :: p2 ++ c :: p3 ->
  exists l1 x l2 y l3, l = l1 ++ x :: l2 ++ y :: l3 /\ f x = c /\ f y = c.
Proof.
  intros Hmap.
  apply map_eq_app in Hmap as (l1 & r1 & -> & _ & Hr1).
  destruct r1 as [|x r1]; [discriminate|]. simpl in Hr1.
  injection Hr1 as Hx Hr2.
  apply map_eq_app in Hr2 as (l2 & r2 & -> & _ & Hr3).
  destruct r2 as [|y l3]; [discriminate|]. simpl in Hr3.
  injection Hr3 as Hy _.
  exists l1, x, l2, y, l3. auto.
Qed.

(** C10.  When the child [A] records an outward link of type [T] to
    the child [B], [B] records the opposite inward link from [A], and
    both children have new keys, the planned calls hold the call
    [create_issue_link(T, inwardIssue=A', outwardIssue=B')] twice, once
    for each record; and when no call raises, the reconstruction issues
    that same call at two places of the history. *)
Theorem symmetric_link_created_twice (maps : key_maps) (w : world)
    (A B A' B' T : string) (linksA linksB : list link_record) :
  A <> B ->
  In (A, linksA) (child_links_map maps) ->
  In (B, linksB) (child_links_map maps) ->
  In {| lr_type := T; lr_direction := outward; lr_key := B |} linksA ->
  In {| lr_type := T; lr_direction := inward; lr_key := A |} linksB ->
  get_truthy (old_to_new_keys maps) A = Some A' ->
  get_truthy (old_to_new_keys maps) B = Some B' ->
  (exists p1 p2 p3,
     planned_links maps =
       p1 ++ JiraCreateIssueLink T A' B' :: p2 ++ JiraCreateIssueLink T A' B' :: p3)
  /\ (fst (recreate_links maps w) = Ok tt ->
      exists evs1 ev1 evs2 ev2 evs3,
        events (snd (recreate_links maps w)) =
          events w ++ evs1 ++ ev1 :: evs2 ++ ev2 :: evs3
        /\ ev_call ev1 = JiraCreateIssueLink T A' B' /\ ev_ok ev1
        /\ ev_call ev2 = JiraCreateIssueLink T A' B' /\ ev_ok ev2).
Proof.
  intros Hne HA HB HlA HlB HkA HkB.
  set (c := JiraCreateIssueLink T A' B').
  assert (HcA : In c (entry_calls (old_to_new_keys maps) (A, linksA))).
  { unfold entry_calls. simpl. rewrite HkA. apply In_omap.
    eexists. split; [exact HlA|]. unfold link_call. simpl. now rewrite HkB. }
  assert (HcB : In c (entry_calls (old_to_new_keys maps) (B, linksB))).
  { unfold entry_calls. simpl. rewrite HkB. apply In_omap.
    eexists. split; [exact HlB|]. unfold link_call. simpl. now rewrite HkA. }
  assert (Hplan : exists p1 p2 p3, planned_links maps = p1 ++ c :: p2 ++ c :: p3).
  { unfold planned_links.
    destruct (In_two_split (A, linksA) (B, linksB) _ HA HB) as (l1 & l2 & l3 & [-> | ->]).
    - congruence.
    - now apply flat_map_two.
    - now apply flat_map_two. }
  split; [exact Hplan|].
  destruct (recreate_links maps w) as [r w'] eqn:Hrun. simpl. intros ->.
  apply follows_plan_recreate_links in Hrun as (evs & Hev & _ & Hrun).
  apply plan_run_calls in Hrun as (rest & Hcalls & Hb).
  destruct (Hb eq_refl) as [-> Hall]. rewrite app_nil_r in Hcalls.
  destruct Hplan as (p1 & p2 & p3 & Hp). rewrite Hp in Hcalls. symmetry in Hcalls.
  apply map_split_two in Hcalls as (evs1 & ev1 & evs2 & ev2 & evs3 & -> & Hc1 & Hc2).
  exists evs1, ev1, evs2, ev2, evs3.
  rewrite Forall_forall in Hall.
  repeat split; auto; apply Hall; apply list_elem_of_In.
  - apply in_elt.
  - apply in_or_app. right. right. apply in_elt.
Qed.

End LinkEndpoints.

(** ** A run of the handler *)

Section Run.
Context `{!DateLibrary} `{!Repository}.
Variables (base_url selected_epic selected_key : string) (new_start_date : date).

(** The payload of lines 579-586 for a due date [due]. *)
Definition epic_payload (f : issue_fields) (due : date) : create_fields :=
  {| cf_project := selected_key;
     cf_summary := summary f;
     cf_description := description f;
     cf_issuetype := ByName "Epic";
     cf_customfield_10014 := None;
     cf_customfield_10015 := Some (strftime new_start_date);
     cf_duedate := Some (strftime due) |}.

(** [ev] is the call that creates the copy of [epic], whose start date
    parses to [epic_start_dt]. *)
Definition creates_epic (epic : issue) (epic_start_dt : datetime) (ev : event) : Prop :=
  exists epic_due_dt due,
    truthy (customfield_10015 (fields epic)) = true
    /\ truthy (duedate (fields epic)) = true
    /\ parse_iso (replace_Z (str (customfield_10015 (fields epic)))) = Ok epic_start_dt
    /\ parse_iso (replace_Z (str (duedate (fields epic)))) = Ok epic_due_dt
    /\ date_add new_start_date (datetime_sub epic_due_dt epic_start_dt) = Ok due
    /\ ev_call ev = JiraCreateIssue (epic_payload (fields epic) due).


(** The parameters of the search for the children (lines 192-197). *)
Definition children_params : list (string * string) :=
  [("jql",
    String "034" "parent" +:+ String "034" " = " +:+ selected_epic
    +:+ " ORDER BY startdate ASC");
   ("maxResults", "200");
   ("fields",
    "summary,status,assignee,reporter,description,customfield_10015,duedate,issuelinks,issuetype")].





End Run.

Section RunInversion.
Context `{!DateLibrary} `{!Repository}.
Variables (base_url selected_epic selected_key : string) (new_start_date : date).



(** The handler catches every exception: it returns normally, and an
    exception of the body ends as one error message on the screen. *)
Lemma migrate_template_body w :
  migrate_template base_url selected_epic selected_key new_start_date w =
  match migrate_body base_url selected_epic selected_key new_start_date w with
  | (Ok _, w') => (Ok tt, w')
  | (Raise e, w') =>
      (Ok tt,
       {| events := events w';
          screen := screen w' ++ [st_error ("Error while migrating : " +:+ str_exn e)];
          console := console w' |})
  end.
Proof.
  unfold migrate_template, try_except.
  destruct (migrate_body _ _ _ _ w) as [[[]|e] w']; reflexivity.
Qed.


End RunInversion.

(** ** The dates of the children *)

Section ChildDates.
Context `{!DateLibrary}.



Lemma new_child_start_no_epic_start nsd orig_start :
  new_child_start None nsd orig_start = Ok None.
Proof. reflexivity. Qed.


End ChildDates.

(** ** Which issue each created issue copies *)

Section Origins.
Context `{!DateLibrary} `{!Repository}.
Variables (base_url selected_epic selected_key : string) (new_start_date : date).







End Origins.

(** ** The dates written to the created issues *)

Section CreatedDates.
Context `{!DateLibrary} `{!Repository}.
Variables (base_url selected_epic selected_key : string) (new_start_date : date).





End CreatedDates.

Section DateClaims.
Context `{!DateLibrary} `{!Repository}.
Variables (base_url selected_epic selected_key : string) (new_start_date : date).



End DateClaims.

(** ** The order of the calls *)

Section Order.
Context `{!DateLibrary} `{!Repository}.
Variables (base_url selected_epic selected_key : string) (new_start_date : date).

Lemma writes_app evs1 evs2 : writes (evs1 ++ evs2) = writes evs1 ++ writes evs2.
Proof. apply List.filter_app. Qed.

Lemma writes_read ev evs :
  match ev_call ev with
  | JiraCreateIssue _ | JiraCreateIssueLink _ _ _ => False
  | _ => True
  end ->
  writes (ev :: evs) = writes evs.
Proof.
  unfold writes, is_write, is_create_issue, is_create_link. simpl.
  destruct (ev_call ev); simpl; tauto.
Qed.

Lemma writes_create ev evs p :
  ev_call ev = JiraCreateIssue p -> writes (ev :: evs) = ev :: writes evs.
Proof.
  unfold writes, is_write, is_create_issue. simpl. now intros ->.
Qed.

Lemma creates_child_call sk nek esd nsd ch ev :
  creates_child sk nek esd nsd ch ev -> exists p, ev_call ev = JiraCreateIssue p.
Proof. intros (? & ? & ? & _ & _ & Hc). eauto. Qed.

Lemma creates_epic_call epic esd ev :
  creates_epic selected_key new_start_date epic esd ev ->
  exists p, ev_call ev = JiraCreateIssue p.
Proof. intros (? & ? & _ & _ & _ & _ & _ & Hc). eauto. Qed.

Lemma child_step_writes sk nek esd nsd ch evs b :
  child_step sk nek esd nsd ch evs b ->
  (writes evs = [] /\ b = false)
  \/ exists cev,
       writes evs = [cev] /\ creates_child sk nek esd nsd ch cev
       /\ (b = true -> ev_ok cev).
Proof.
  intros [|pev Hp|pev cev Hp _ Hc Hfail|pev cev Hp _ Hc Hok].
  - left. auto.
  - left. split; [|reflexivity]. rewrite writes_read; [reflexivity|now rewrite Hp].
  - right. exists cev. destruct (creates_child_call _ _ _ _ _ _ Hc) as [p Hcall].
    rewrite writes_read by now rewrite Hp. rewrite (writes_create _ _ _ Hcall).
    repeat split; auto. discriminate.
  - right. exists cev. destruct (creates_child_call _ _ _ _ _ _ Hc) as [p Hcall].
    rewrite writes_read by now rewrite Hp. rewrite (writes_create _ _ _ Hcall).
    repeat split; auto.
Qed.

(** The creations of the loop over the children follow the list of the
    children, one per child, and only the last one may have raised. *)
Lemma child_phase_writes sk nek esd nsd children evs b :
  child_phase sk nek esd nsd children evs b ->
  Forall2 (creates_child sk nek esd nsd) (take (length (writes evs)) children) (writes evs)
  /\ Forall ev_ok (removelast (writes evs))
  /\ (b = true -> length (writes evs) = length children /\ Forall ev_ok (writes evs)).
Proof.
  induction 1 as [|ch rest evs Hstep|ch rest evs1 evs2 b Hstep Hphase (IH1 & IH2 & IH3)].
  - simpl. repeat split; constructor.
  - apply child_step_writes in Hstep as [[-> _]|(cev & -> & Hc & _)]; simpl.
    + repeat split; try constructor; discriminate.
    + rewrite take_0. repeat split; try discriminate; repeat constructor. assumption.
  - apply child_step_writes in Hstep as [[_ Habs]|(cev & Hw & Hc & Hok)]; [discriminate|].
    rewrite writes_app, Hw. simpl. repeat split.
    + constructor; assumption.
    + destruct (writes evs2) as [|ev' l] eqn:Hl; [constructor|].
      constructor; [now apply Hok|exact IH2].
    + destruct (IH3 H1) as [-> _]. reflexivity.
    + destruct (IH3 H1) as [_ Hall]. constructor; [now apply Hok|assumption].
Qed.

Lemma Forall_removelast_app {A} (P : A -> Prop) (l1 l2 : list A) :
  Forall P l1 -> Forall P (removelast l2) -> Forall P (removelast (l1 ++ l2)).
Proof.
  intros H1 H2. destruct l2 as [|x l2].
  - rewrite app_nil_r. clear H2.
    induction H1 as [|a l Ha Hl IH]; simpl; [constructor|].
    destruct l; [constructor|]. constructor; assumption.
  - rewrite removelast_app by discriminate. apply Forall_app. auto.
Qed.

Lemma planned_links_writes maps evs b :
  plan_run (planned_links maps) evs b ->
  writes evs = evs /\ Forall (fun ev => is_create_link ev = true) evs.
Proof.
  intros Hrun.
  assert (Hall : Forall (fun ev => is_create_link ev = true) evs).
  { apply Forall_forall. intros ev Hin. apply list_elem_of_In in Hin.
    apply (plan_run_In _ _ _ _ Hrun) in Hin.
    apply In_planned_links in Hin as (? & ? & link & ? & _ & _ & _ & Hc).
    apply link_call_Some in Hc as (? & _ & Hft). unfold links_from_to in Hft.
    unfold is_create_link. rewrite Hft. now destruct (lr_direction link). }
  split; [|exact Hall]. clear Hrun. unfold writes.
  induction Hall as [|ev evs Hev Hall IH]; simpl; [reflexivity|].
  unfold is_write at 1. rewrite Hev, orb_true_r. now rewrite IH.
Qed.

End Order.

(** ** The calls of a run, from the answers of the repository *)

(** The record of the call [c], answered by [answer]. *)
Definition called {A} (c : call) (answer : result A) : event :=
  {| ev_call := c;
     ev_raised := match answer with Ok _ => None | Raise e => Some e end |}.

(** [maps] after the iteration for [ch], created under [new_key]. *)
Definition record_child (maps : key_maps) (ch : issue) (new_key : string) : key_maps :=
  {| child_links_map :=
       dict_set (child_links_map maps) (key ch) (original_links (issuelinks (fields ch)));
     old_to_new_keys := <[key ch := new_key]> (old_to_new_keys maps) |}.

(** The two dictionaries for children created, in this order, under
    [new_keys]. *)
Definition key_maps_of (children : list issue) (new_keys : list string) : key_maps :=
  fold_left (fun maps entry => record_child maps (fst entry) (snd entry))
    (combine children new_keys)
    {| child_links_map := []; old_to_new_keys := ∅ |}.

Section Calls.
Context `{!DateLibrary} `{!Repository}.
Variables (base_url selected_epic selected_key : string) (new_start_date : date).

(** The records of the calls of the handler, issued from the history
    [h]. *)
Definition fetch_event (h : list event) : event :=
  called (JiraIssue selected_epic) (jira_issue h selected_epic).

Definition create_event (h : list event) (payload : create_fields) : event :=
  called (JiraCreateIssue payload) (jira_create_issue h payload).

Definition search_answer (h : list event) : result response :=
  requests_get h (search_url base_url) (children_params selected_epic).

Definition search_event (h : list event) : event :=
  called (RequestsGet (search_url base_url) (children_params selected_epic))
    (search_answer h).

Definition project_event (h : list event) : event :=
  called (JiraProject selected_key) (jira_project h selected_key).

Definition link_event (h : list event) (type inw outw : string) : event :=
  called (JiraCreateIssueLink type inw outw) (jira_create_issue_link h type inw outw).

(** The dates of the copy of a child (lines 629-647). *)
Definition child_dates (epic_start_dt : option datetime) (ch : issue)
  : result (option date * option date) :=
  let? start :=
    new_child_start epic_start_dt new_start_date (customfield_10015 (fields ch)) in
  let? due := new_child_due start (customfield_10015 (fields ch)) (duedate (fields ch)) in
  Ok (start, due).

(** The calls of the iteration for the child [ch] from the history [h],
    and the key of its copy: the dates are computed first, then the
    issue types of the target project are fetched, the type of the
    child is resolved, and the copy is created.  The first step that
    raises ends the iteration. *)
Inductive child_calls (new_epic_key : string) (epic_start_dt : option datetime)
    (h : list event) (ch : issue) : list event -> result string -> Prop :=
| child_no_dates e :
    child_dates epic_start_dt ch = Raise e ->
    child_calls new_epic_key epic_start_dt h ch [] (Raise e)
| child_no_project start due e :
    child_dates epic_start_dt ch = Ok (start, due) ->
    jira_project h selected_key = Raise e ->
    child_calls new_epic_key epic_start_dt h ch [project_event h] (Raise e)
| child_no_type start due issue_types e :
    child_dates epic_start_dt ch = Ok (start, due) ->
    jira_project h selected_key = Ok issue_types ->
    child_type_id issue_types (issuetype (fields ch)) selected_key = Raise e ->
    child_calls new_epic_key epic_start_dt h ch [project_event h] (Raise e)
| child_create start due issue_types type_id payload :
    child_dates epic_start_dt ch = Ok (start, due) ->
    jira_project h selected_key = Ok issue_types ->
    child_type_id issue_types (issuetype (fields ch)) selected_key = Ok type_id ->
    payload = create_payload selected_key new_epic_key type_id (fields ch) start due ->
    child_calls new_epic_key epic_start_dt h ch
      [project_event h; create_event (h ++ [project_event h]) payload]
      (jira_create_issue (h ++ [project_event h]) payload).

(** The calls of the loop over the children, one iteration after the
    other in the order of the list, up to the first one that raises; and
    the keys of the copies. *)
Inductive children_calls (new_epic_key : string) (epic_start_dt : option datetime)
  : list event -> list issue -> list event -> result (list string) -> Prop :=
| children_done h : children_calls new_epic_key epic_start_dt h [] [] (Ok [])
| children_abort h ch rest evs e :
    child_calls new_epic_key epic_start_dt h ch evs (Raise e) ->
    children_calls new_epic_key epic_start_dt h (ch :: rest) evs (Raise e)
| children_next h ch rest evs new_key evs' r :
    child_calls new_epic_key epic_start_dt h ch evs (Ok new_key) ->
    children_calls new_epic_key epic_start_dt (h ++ evs) rest evs' r ->
    children_calls new_epic_key epic_start_dt h (ch :: rest) (evs ++ evs')
      (let? new_keys := r in Ok (new_key :: new_keys)).

(** The calls of a list of link creations, in order and up to the first
    one that raises. *)
Inductive link_calls : list event -> list call -> list event -> result unit -> Prop :=
| links_done h : link_calls h [] [] (Ok tt)
| link_raised h type inw outw plan e :
    jira_create_issue_link h type inw outw = Raise e ->
    link_calls h (JiraCreateIssueLink type inw outw :: plan)
      [link_event h type inw outw] (Raise e)
| link_created h type inw outw plan evs r :
    jira_create_issue_link h type inw outw = Ok tt ->
    link_calls (h ++ [link_event h type inw outw]) plan evs r ->
    link_calls h (JiraCreateIssueLink type inw outw :: plan)
      (link_event h type inw outw :: evs) r.

(** Lines 560-586: [epic_start_dt] and the payload of the new Epic. *)
Definition new_epic_payload (epic : issue) : result (option datetime * create_fields) :=
  let? dates := epic_dates (customfield_10015 (fields epic)) (duedate (fields epic)) in
  let? payload := new_epic_data selected_key (fields epic) new_start_date (snd dates) in
  Ok (fst dates, payload).

(** The children of the Epic, in the order of the handler, for the
    answer [answer] to the search. *)
Definition children_of_answer (answer : result response) : result (list issue) :=
  let? issues :=
    match answer with
    | Ok resp => search_result resp
    | Raise e => Raise e
    end in
  ordre_child_issues issues.

(** The calls of a run of the handler from the history [h], and how the
    body of its [try] ends: the fetch of the Epic; the creation of its
    copy; the search for the children; the loop over the children in the
    order of [ordre_child_issues]; the creations of the links recorded
    for the children created.  The first step that raises ends the run:
    after a creation of the Epic that raised nothing is called. *)
Inductive handler_calls (h : list event) : list event -> result unit -> Prop :=
| calls_fetch_raised e :
    jira_issue h selected_epic = Raise e ->
    handler_calls h [fetch_event h] (Raise e)
| calls_dates_raised epic e :
    jira_issue h selected_epic = Ok epic ->
    new_epic_payload epic = Raise e ->
    handler_calls h [fetch_event h] (Raise e)
| calls_epic_raised epic epic_start_dt payload e :
    jira_issue h selected_epic = Ok epic ->
    new_epic_payload epic = Ok (epic_start_dt, payload) ->
    jira_create_issue (h ++ [fetch_event h]) payload = Raise e ->
    handler_calls h [fetch_event h; create_event (h ++ [fetch_event h]) payload] (Raise e)
| calls_search_raised epic epic_start_dt payload new_epic_key iev eev e :
    jira_issue h selected_epic = Ok epic ->
    new_epic_payload epic = Ok (epic_start_dt, payload) ->
    iev = fetch_event h ->
    jira_create_issue (h ++ [iev]) payload = Ok new_epic_key ->
    eev = create_event (h ++ [iev]) payload ->
    children_of_answer (search_answer (h ++ [iev; eev])) = Raise e ->
    handler_calls h [iev; eev; search_event (h ++ [iev; eev])] (Raise e)
| calls_child_raised epic epic_start_dt payload new_epic_key iev eev sev children cevs e :
    jira_issue h selected_epic = Ok epic ->
    new_epic_payload epic = Ok (epic_start_dt, payload) ->
    iev = fetch_event h ->
    jira_create_issue (h ++ [iev]) payload = Ok new_epic_key ->
    eev = create_event (h ++ [iev]) payload ->
    children_of_answer (search_answer (h ++ [iev; eev])) = Ok children ->
    sev = search_event (h ++ [iev; eev]) ->
    children_calls new_epic_key epic_start_dt (h ++ [iev; eev; sev]) children cevs
      (Raise e) ->
    handler_calls h (iev :: eev :: sev :: cevs) (Raise e)
| calls_links epic epic_start_dt payload new_epic_key iev eev sev children cevs
    new_keys levs r :
    jira_issue h selected_epic = Ok epic ->
    new_epic_payload epic = Ok (epic_start_dt, payload) ->
    iev = fetch_event h ->
    jira_create_issue (h ++ [iev]) payload = Ok new_epic_key ->
    eev = create_event (h ++ [iev]) payload ->
    children_of_answer (search_answer (h ++ [iev; eev])) = Ok children ->
    sev = search_event (h ++ [iev; eev]) ->
    children_calls new_epic_key epic_start_dt (h ++ [iev; eev; sev]) children cevs
      (Ok new_keys) ->
    link_calls (h ++ iev :: eev :: sev :: cevs)
      (planned_links (key_maps_of children new_keys)) levs r ->
    handler_calls h (iev :: eev :: sev :: cevs ++ levs) r.

(** *** The handler issues these calls *)

Lemma perform_run {A} (c : call) (answer : list event -> result A) w :
  perform c answer w = (answer (events w), record_event (called c (answer (events w))) w).
Proof. reflexivity. Qed.

Lemma migrate_child_calls new_epic_key epic_start_dt maps ch w r w' :
  migrate_child selected_key new_epic_key epic_start_dt new_start_date maps ch w = (r, w') ->
  exists evs new_key,
    events w' = events w ++ evs
    /\ child_calls new_epic_key epic_start_dt (events w) ch evs new_key
    /\ r = (let? k := new_key in Ok (record_child maps ch k)).
Proof.
  unfold migrate_child, bind, lift, perform, show, ret. cbv beta iota.
  destruct (new_child_start epic_start_dt new_start_date (customfield_10015 (fields ch)))
    as [start|e] eqn:Hstart.
  2: { intros Hc. injection Hc as <- <-. exists [], (Raise e). rewrite app_nil_r.
       split; [reflexivity|]. split; [|reflexivity].
       apply child_no_dates. unfold child_dates. now rewrite Hstart. }
  destruct (new_child_due start (customfield_10015 (fields ch)) (duedate (fields ch)))
    as [due|e] eqn:Hdue.
  2: { intros Hc. injection Hc as <- <-. exists [], (Raise e). rewrite app_nil_r.
       split; [reflexivity|]. split; [|reflexivity].
       apply child_no_dates. unfold child_dates. rewrite Hstart. simpl. now rewrite Hdue. }
  assert (Hd : child_dates epic_start_dt ch = Ok (start, due))
    by (unfold child_dates; rewrite Hstart; simpl; rewrite Hdue; reflexivity).
  destruct (jira_project (events w) selected_key) as [types|e] eqn:Hp.
  2: { intros Hc. injection Hc as <- <-. exists [project_event (events w)], (Raise e).
       split; [|split; [|reflexivity]].
       - simpl. unfold project_event, called. rewrite Hp. reflexivity.
       - eapply child_no_project; eauto. }
  destruct (child_type_id types (issuetype (fields ch)) selected_key)
    as [type_id|e] eqn:Ht.
  2: { intros Hc. injection Hc as <- <-. exists [project_event (events w)], (Raise e).
       split; [|split; [|reflexivity]].
       - simpl. unfold project_event, called. rewrite Hp. reflexivity.
       - eapply child_no_type; eauto. }
  simpl events.
  set (payload := create_payload selected_key new_epic_key type_id (fields ch) start due).
  assert (Hpev : {| ev_call := JiraProject selected_key; ev_raised := None |}
                 = project_event (events w))
    by (unfold project_event, called; rewrite Hp; reflexivity).
  rewrite Hpev.
  intros Hc.
  exists [project_event (events w);
          create_event (events w ++ [project_event (events w)]) payload],
    (jira_create_issue (events w ++ [project_event (events w)]) payload).
  split; [|split].
  - unfold create_event, called.
    destruct (jira_create_issue _ payload) eqn:Hcreate;
      injection Hc as <- <-; simpl; rewrite <- app_assoc; reflexivity.
  - eapply child_create; eauto.
  - destruct (jira_create_issue _ payload) eqn:Hcreate;
      injection Hc as <- <-; reflexivity.
Qed.

Lemma migrate_children_calls new_epic_key epic_start_dt children maps w r w' :
  for_fold children maps
    (migrate_child selected_key new_epic_key epic_start_dt new_start_date) w = (r, w') ->
  exists evs new_keys,
    events w' = events w ++ evs
    /\ children_calls new_epic_key epic_start_dt (events w) children evs new_keys
    /\ r = (let? ks := new_keys in
            Ok (fold_left (fun maps entry => record_child maps (fst entry) (snd entry))
                  (combine children ks) maps)).
Proof.
  revert maps w. induction children as [|ch rest IH]; simpl; intros maps w Hf.
  - apply ret_inv in Hf as [-> ->]. exists [], (Ok []). rewrite app_nil_r.
    split; [reflexivity|]. split; [constructor|reflexivity].
  - apply bind_inv in Hf as [(maps1 & w1 & Hch & Hrest)|(e & Hch & ->)].
    + apply migrate_child_calls in Hch as (evs1 & rk & Hev1 & Hcalls & Hr).
      destruct rk as [k|e]; [|discriminate]. simpl in Hr. injection Hr as ->.
      apply IH in Hrest as (evs2 & rks & Hev2 & Hcalls2 & ->).
      exists (evs1 ++ evs2), (let? new_keys := rks in Ok (k :: new_keys)).
      split; [rewrite Hev2, Hev1, app_assoc; reflexivity|].
      split; [rewrite Hev1 in Hcalls2; now apply children_next|].
      destruct rks; reflexivity.
    + apply migrate_child_calls in Hch as (evs1 & rk & Hev1 & Hcalls & Hr).
      destruct rk as [k|e']; [discriminate|]. simpl in Hr. injection Hr as ->.
      exists evs1, (Raise e'). split; [assumption|].
      split; [now apply children_abort|reflexivity].
Qed.

(** [m] issues the creations of the links of [plan], and nothing else. *)
Definition issues_links (m : M unit) (plan : list call) : Prop :=
  forall w r w',
    m w = (r, w') ->
    exists evs, events w' = events w ++ evs /\ link_calls (events w) plan evs r.

Lemma link_calls_app h p1 p2 evs1 evs2 r :
  link_calls h p1 evs1 (Ok tt) -> link_calls (h ++ evs1) p2 evs2 r ->
  link_calls h (p1 ++ p2) (evs1 ++ evs2) r.
Proof.
  intros H1. remember (Ok tt) as ok eqn:Hok. revert Hok.
  induction H1 as [h|h type inw outw plan e He|h type inw outw plan evs r' Hc H1 IH];
    intros Hok H2; simpl.
  - now rewrite app_nil_r in H2.
  - discriminate.
  - apply link_created; [assumption|]. apply IH; [assumption|].
    rewrite <- app_assoc. exact H2.
Qed.

Lemma link_calls_abort h p1 p2 evs e :
  link_calls h p1 evs (Raise e) -> link_calls h (p1 ++ p2) evs (Raise e).
Proof.
  intros H1. remember (Raise e) as re eqn:Hre. revert Hre.
  induction H1 as [h|h type inw outw plan e' He|h type inw outw plan evs r' Hc H1 IH];
    intros Hre; simpl.
  - discriminate.
  - injection Hre as ->. now apply link_raised.
  - apply link_created; auto.
Qed.

Lemma issues_links_ret : issues_links (ret tt) [].
Proof.
  intros w r w' Hr. apply ret_inv in Hr as [-> ->]. exists []. rewrite app_nil_r.
  split; [reflexivity|constructor].
Qed.

Lemma issues_links_create_issue_link type inw outw :
  issues_links (create_issue_link type inw outw) [JiraCreateIssueLink type inw outw].
Proof.
  intros w r w' Hr. unfold create_issue_link in Hr. rewrite perform_run in Hr.
  injection Hr as <- <-. exists [link_event (events w) type inw outw].
  split; [reflexivity|].
  destruct (jira_create_issue_link (events w) type inw outw) as [[]|e] eqn:Hc.
  - apply link_created; [assumption|constructor].
  - now apply link_raised.
Qed.

Lemma issues_links_for_each {A} (l : list A) (body : A -> M unit) (plan : A -> list call) :
  (forall x, In x l -> issues_links (body x) (plan x)) ->
  issues_links (for_each l body) (flat_map plan l).
Proof.
  induction l as [|x l IH]; simpl; intros Hbody.
  - apply issues_links_ret.
  - intros w r w' Hr.
    apply bind_inv in Hr as [([] & w1 & Hx & Hl)|(e & Hx & ->)].
    + apply (Hbody x (or_introl eq_refl)) in Hx as (evs1 & Hev1 & Hrun1).
      apply IH in Hl as (evs2 & Hev2 & Hrun2); [|auto].
      exists (evs1 ++ evs2). rewrite Hev2, Hev1, app_assoc. split; [reflexivity|].
      rewrite Hev1 in Hrun2. now apply link_calls_app.
    + apply (Hbody x (or_introl eq_refl)) in Hx as (evs1 & Hev1 & Hrun1).
      exists evs1. split; [assumption|]. now apply link_calls_abort.
Qed.

Lemma issues_links_recreate_links maps :
  issues_links (recreate_links maps) (planned_links maps).
Proof.
  unfold recreate_links, planned_links.
  apply issues_links_for_each. intros [old_key links] _.
  unfold entry_calls. simpl.
  destruct (get_truthy (old_to_new_keys maps) old_key) as [new_key|].
  - rewrite <- flat_map_option_list.
    apply issues_links_for_each. intros link _.
    unfold recreate_link, link_call.
    destruct (get_truthy (old_to_new_keys maps) (lr_key link)) as [linked|]; simpl.
    + destruct (lr_direction link); apply issues_links_create_issue_link.
    + apply issues_links_ret.
  - apply issues_links_ret.
Qed.

Lemma create_new_epic_calls w r w' :
  create_new_epic selected_epic selected_key new_start_date w = (r, w') ->
  let h := events w in
  match jira_issue h selected_epic with
  | Raise e => r = Raise e /\ events w' = h ++ [fetch_event h]
  | Ok epic =>
      match new_epic_payload epic with
      | Raise e => r = Raise e /\ events w' = h ++ [fetch_event h]
      | Ok (epic_start_dt, payload) =>
          events w' = h ++ [fetch_event h; create_event (h ++ [fetch_event h]) payload]
          /\ r = (let? k := jira_create_issue (h ++ [fetch_event h]) payload in
                  Ok (k, epic_start_dt))
      end
  end.
Proof.
  unfold create_new_epic, new_epic_payload, bind, lift, perform, show, ret.
  cbv beta iota zeta.
  assert (Hiev : forall epic, jira_issue (events w) selected_epic = Ok epic ->
                   {| ev_call := JiraIssue selected_epic; ev_raised := None |}
                   = fetch_event (events w))
    by (intros epic He; unfold fetch_event, called; rewrite He; reflexivity).
  destruct (jira_issue (events w) selected_epic) as [epic|e] eqn:Hepic.
  2: { intros Hc. injection Hc as <- <-. simpl.
       unfold fetch_event, called. rewrite Hepic. auto. }
  rewrite (Hiev epic eq_refl).
  destruct (epic_dates _ _) as [dates|e]; simpl result_bind.
  2: { intros Hc. injection Hc as <- <-. auto. }
  destruct (new_epic_data _ _ _ _) as [payload|e]; simpl result_bind.
  2: { intros Hc. injection Hc as <- <-. auto. }
  simpl events. unfold create_event, called.
  destruct (jira_create_issue _ payload) as [k|e];
    intros Hc; injection Hc as <- <-; simpl; rewrite <- app_assoc; auto.
Qed.

Lemma get_child_issues_for_epic_calls w r w' :
  get_child_issues_for_epic base_url selected_epic 200 w = (r, w') ->
  r = children_of_answer (search_answer (events w))
  /\ events w' = events w ++ [search_event (events w)].
Proof.
  unfold get_child_issues_for_epic.
  change (str_int 200) with "200". fold (children_params selected_epic).
  intros Hg.
  destruct (search_issues_exact base_url (children_params selected_epic) w)
    as (w1 & Hrun & Hev & _).
  unfold bind in Hg. rewrite Hrun in Hg. unfold children_of_answer, search_answer.
  destruct (match requests_get _ _ _ with Ok resp => _ | Raise e => _ end) as [issues|e].
  - apply lift_inv in Hg as [<- ->]. split; [reflexivity|exact Hev].
  - injection Hg as <- <-. split; [reflexivity|exact Hev].
Qed.

(** The calls of a run of the body of the handler. *)
Lemma migrate_body_calls w r w' :
  migrate_body base_url selected_epic selected_key new_start_date w = (r, w') ->
  exists evs, events w' = events w ++ evs /\ handler_calls (events w) evs r.
Proof.
  unfold migrate_body. intros Hb.
  apply bind_inv in Hb as [([] & w0 & Hshow & Hb)|(e & Hshow & _)];
    [|apply show_inv in Hshow as [Habs _]; discriminate].
  apply show_inv in Hshow as (_ & Hev0 & _). rewrite <- Hev0. clear Hev0.
  set (h := events w0).
  apply bind_inv in Hb as [([new_epic_key esd] & w1 & Hepic & Hb)|(e & Hepic & ->)].
  2: { apply create_new_epic_calls in Hepic. simpl in Hepic. fold h in Hepic.
       destruct (jira_issue h selected_epic) as [epic|e'] eqn:Hj.
       - destruct (new_epic_payload epic) as [[esd payload]|e'] eqn:Hp.
         + destruct Hepic as [Hev Hr].
           destruct (jira_create_issue _ payload) as [k|e'] eqn:Hc; [discriminate|].
           injection Hr as ->. eexists. split; [exact Hev|].
           eapply calls_epic_raised; eauto.
         + destruct Hepic as [Hr Hev]. injection Hr as ->.
           eexists. split; [exact Hev|]. eapply calls_dates_raised; eauto.
       - destruct Hepic as [Hr Hev]. injection Hr as ->.
         eexists. split; [exact Hev|]. now apply calls_fetch_raised. }
  apply create_new_epic_calls in Hepic. simpl in Hepic. fold h in Hepic.
  destruct (jira_issue h selected_epic) as [epic|e'] eqn:Hj;
    [|destruct Hepic as [Habs _]; discriminate].
  destruct (new_epic_payload epic) as [[esd' payload]|e'] eqn:Hp;
    [|destruct Hepic as [Habs _]; discriminate].
  destruct Hepic as [Hev1 Hr].
  destruct (jira_create_issue _ payload) as [k|e'] eqn:Hc; [|discriminate].
  injection Hr as <- <-. simpl fst in Hb. simpl snd in Hb.
  set (iev := fetch_event h) in *.
  set (eev := create_event (h ++ [iev]) payload) in *.
  apply bind_inv in Hb as [(children & w2 & Hsearch & Hb)|(e & Hsearch & ->)].
  2: { apply get_child_issues_for_epic_calls in Hsearch as [Hr Hev2].
       rewrite Hev1 in Hr, Hev2. rewrite <- app_assoc in Hev2. simpl in Hev2.
       eexists. split; [exact Hev2|].
       eapply calls_search_raised; eauto. }
  apply get_child_issues_for_epic_calls in Hsearch as [Hr Hev2].
  rewrite Hev1 in Hr, Hev2. rewrite <- app_assoc in Hev2. simpl in Hev2.
  set (sev := search_event (h ++ [iev; eev])) in *.
  apply bind_inv in Hb as [(maps & w3 & Hchildren & Hb)|(e & Hchildren & ->)].
  2: { apply migrate_children_calls in Hchildren as (cevs & rks & Hev3 & Hcalls & Hrk).
       destruct rks as [ks|e']; [discriminate|]. injection Hrk as ->.
       rewrite Hev2 in Hev3, Hcalls. rewrite <- app_assoc in Hev3. simpl in Hev3.
       eexists. split; [exact Hev3|].
       eapply calls_child_raised; eauto. }
  apply migrate_children_calls in Hchildren as (cevs & rks & Hev3 & Hcalls & Hrk).
  destruct rks as [ks|e']; [|discriminate]. injection Hrk as ->.
  fold (key_maps_of children ks) in Hb.
  rewrite Hev2 in Hev3, Hcalls. rewrite <- app_assoc in Hev3. simpl in Hev3.
  assert (Hlinks : exists w4 rl levs,
             recreate_links (key_maps_of children ks) w3 = (rl, w4)
             /\ events w4 = events w3 ++ levs
             /\ link_calls (events w3) (planned_links (key_maps_of children ks)) levs rl).
  { destruct (recreate_links (key_maps_of children ks) w3) as [rl w4] eqn:Hl.
    destruct (issues_links_recreate_links _ _ _ _ Hl) as (levs & Hev4 & Hlc).
    eauto 10. }
  destruct Hlinks as (w4 & rl & levs & Hl & Hev4 & Hlc).
  rewrite Hev3 in Hev4, Hlc. rewrite <- app_assoc in Hev4. simpl in Hev4.
  exists (iev :: eev :: sev :: cevs ++ levs).
  unfold bind in Hb. rewrite Hl in Hb.
  destruct rl as [[]|e'].
  - apply show_inv in Hb as (-> & Hev5 & _).
    split; [rewrite Hev5; exact Hev4|]. eapply calls_links; eauto.
  - injection Hb as <- <-. split; [exact Hev4|]. eapply calls_links; eauto.
Qed.

(** *** Only the last call of a run may have raised *)

Lemma called_ok {A} (c : call) (answer : result A) (a : A) :
  answer = Ok a -> ev_ok (called c answer).
Proof. intros ->. reflexivity. Qed.

Lemma called_ok_iff {A} (c : call) (answer : result A) :
  ev_ok (called c answer) <-> is_ok answer = true.
Proof. unfold ev_ok, called. destruct answer; simpl; split; congruence. Qed.

(** The calls [evs] of a computation that ended as [r]: all went well,
    but possibly the last one, and all of them if [r] is a value. *)
Definition ok_but_last {A} (evs : list event) (r : result A) : Prop :=
  Forall ev_ok (removelast evs) /\ (is_ok r = true -> Forall ev_ok evs).

Lemma ok_but_last_app {A B} (evs1 evs2 : list event) (r1 : result A) (r2 : result B) :
  ok_but_last evs1 r1 -> is_ok r1 = true -> ok_but_last evs2 r2 ->
  ok_but_last (evs1 ++ evs2) r2.
Proof.
  intros [_ H1] Hok [H2 H3]. specialize (H1 Hok). split.
  - now apply Forall_removelast_app.
  - intros Hr. apply Forall_app. auto.
Qed.

Lemma child_calls_ok nek esd h ch evs rk :
  child_calls nek esd h ch evs rk -> ok_but_last evs rk.
Proof.
  intros [e He|start due e Hd Hp|start due types e Hd Hp Ht
         |start due types type_id payload Hd Hp Ht Hpay]; split; simpl;
    try discriminate; try (constructor; fail).
  - repeat constructor. eapply called_ok; eauto.
  - intros Hok. repeat constructor; [eapply called_ok; eauto|].
    now apply called_ok_iff.
Qed.

Lemma children_calls_ok nek esd h children evs rks :
  children_calls nek esd h children evs rks -> ok_but_last evs rks.
Proof.
  induction 1 as [h|h ch rest evs e Hc|h ch rest evs k evs' r Hc Hrest IH].
  - split; constructor.
  - apply child_calls_ok in Hc as [H1 _]. split; [exact H1|discriminate].
  - apply child_calls_ok in Hc.
    eapply (ok_but_last_app _ _ (Ok k)); [exact Hc|reflexivity|].
    destruct IH as [IH1 IH2]. split; [exact IH1|].
    intros Hok. apply IH2. now destruct r.
Qed.

Lemma link_calls_ok h plan evs r : link_calls h plan evs r -> ok_but_last evs r.
Proof.
  induction 1 as [h|h type inw outw plan e He|h type inw outw plan evs r Hc Hrest IH].
  - split; constructor.
  - split; [constructor|discriminate].
  - change (link_event h type inw outw :: evs) with ([link_event h type inw outw] ++ evs).
    eapply (ok_but_last_app _ _ (Ok tt)); [|reflexivity|exact IH].
    split; [constructor|]. intros _. repeat constructor. eapply called_ok; eauto.
Qed.

Lemma search_event_ok h children :
  children_of_answer (search_answer h) = Ok children -> ev_ok (search_event h).
Proof.
  unfold children_of_answer, search_event. intros Hs. apply called_ok_iff.
  now destruct (search_answer h).
Qed.

Lemma first_calls_ok h epic payload nek children :
  jira_issue h selected_epic = Ok epic ->
  jira_create_issue (h ++ [fetch_event h]) payload = Ok nek ->
  children_of_answer
    (search_answer (h ++ [fetch_event h; create_event (h ++ [fetch_event h]) payload]))
  = Ok children ->
  Forall ev_ok
    [fetch_event h; create_event (h ++ [fetch_event h]) payload;
     search_event (h ++ [fetch_event h; create_event (h ++ [fetch_event h]) payload])].
Proof.
  intros Hj Hc Hs. constructor; [eapply called_ok; exact Hj|].
  constructor; [eapply called_ok; exact Hc|].
  constructor; [eapply search_event_ok; exact Hs|constructor].
Qed.

Lemma handler_calls_ok h evs r : handler_calls h evs r -> ok_but_last evs r.
Proof.
  intros [e He|epic e Hj Hp|epic esd payload e Hj Hp Hc
         |epic esd payload nek iev eev e Hj Hp -> Hc -> Hs
         |epic esd payload nek iev eev sev children cevs e Hj Hp -> Hc -> Hs -> Hch
         |epic esd payload nek iev eev sev children cevs ks levs r' Hj Hp -> Hc -> Hs ->
            Hch Hl].
  - split; [constructor|discriminate].
  - split; [constructor|discriminate].
  - split; [|discriminate]. simpl. repeat constructor. eapply called_ok; exact Hj.
  - split; [|discriminate]. simpl.
    constructor; [eapply called_ok; exact Hj|].
    constructor; [eapply called_ok; exact Hc|constructor].
  - split; [|discriminate].
    pose proof (first_calls_ok _ _ _ _ _ Hj Hc Hs) as H3.
    change (?a :: ?b :: ?c :: cevs) with ([a; b; c] ++ cevs).
    apply Forall_removelast_app; [exact H3|apply (children_calls_ok _ _ _ _ _ _ Hch)].
  - pose proof (first_calls_ok _ _ _ _ _ Hj Hc Hs) as H3.
    change (?a :: ?b :: ?c :: cevs ++ levs) with ([a; b; c] ++ cevs ++ levs).
    eapply (ok_but_last_app _ _ (Ok tt)); [|reflexivity|].
    { split; [|intros _; exact H3].
      simpl. inversion H3 as [|? ? Ha Hb]. inversion Hb as [|? ? Ha' Hb'].
      repeat constructor; assumption. }
    eapply (ok_but_last_app _ _ (Ok ks));
      [apply (children_calls_ok _ _ _ _ _ _ Hch)|reflexivity|].
    apply (link_calls_ok _ _ _ _ Hl).
Qed.

End Calls.

Section OrderClaim.
Context `{!DateLibrary} `{!Repository}.
Variables (base_url selected_epic selected_key : string) (new_start_date : date).

(** C9.  The calls of a run are the ones of [handler_calls], in that
    order: the fetch of the Epic, the creation of its copy, the search
    for the children, then for each child, in the order of
    [ordre_child_issues], the fetch of the issue types and the creation
    of its copy, then the creations of the links recorded for the
    children created.  Every call is issued after the one before it has
    returned, and the first one that raises is the last call of the run.
    In particular, when the creation of the copy of the Epic raises, the
    run consists of the fetch of the Epic and that call: no search, no
    child and no link follow. *)
Theorem repository_calls_in_order (w : world) :
  exists evs,
    events (snd (migrate_template base_url selected_epic selected_key new_start_date w))
    = events w ++ evs
    /\ handler_calls base_url selected_epic selected_key new_start_date (events w) evs
         (fst (migrate_body base_url selected_epic selected_key new_start_date w))
    /\ Forall ev_ok (removelast evs)
    /\ (forall epic epic_start_dt payload e,
          jira_issue (events w) selected_epic = Ok epic ->
          new_epic_payload selected_key new_start_date epic = Ok (epic_start_dt, payload) ->
          jira_create_issue (events w ++ [fetch_event selected_epic (events w)]) payload
          = Raise e ->
          evs = [fetch_event selected_epic (events w);
                 create_event (events w ++ [fetch_event selected_epic (events w)])
                   payload]).
Proof.
  rewrite migrate_template_body.
  destruct (migrate_body _ _ _ _ w) as [r w'] eqn:Hb.
  apply migrate_body_calls in Hb as (evs & Hev & Hcalls).
  exists evs. split; [destruct r as [[]|e]; exact Hev|].
  split; [exact Hcalls|]. split; [apply (handler_calls_ok _ _ _ _ _ _ _ Hcalls)|].
  intros epic esd payload e Hj Hp Hc.
  destruct Hcalls as [e' He|epic' e' Hj' Hp'|epic' esd' payload' e' Hj' Hp' Hc'
                     |epic' esd' payload' nek iev eev e' Hj' Hp' -> Hc' -> Hs
                     |epic' esd' payload' nek iev eev sev children cevs e' Hj' Hp' ->
                        Hc' -> Hs -> Hch
                     |epic' esd' payload' nek iev eev sev children cevs ks levs r'
                        Hj' Hp' -> Hc' -> Hs -> Hch Hl];
    try congruence.
  all: assert (epic' = epic) by congruence; subst epic';
    assert (payload' = payload) by congruence; subst payload';
    first [reflexivity|congruence].
Qed.

End OrderClaim.

(** ** The duration of the copies *)

Section DurationClaim.
Context `{!DateLibrary} `{!Repository}.
Variables (base_url selected_epic selected_key : string) (new_start_date : date).

(** [(due - start).days] against the difference of the two dates: one
    day less when the time of day of [due] is earlier than that of
    [start]. *)
Lemma days_sub_times (due start : datetime) :
  days (datetime_sub due start)
  = date_of due - date_of start
    - (if start mod us_per_day <=? due mod us_per_day then 0 else 1).
Proof.
  unfold days, datetime_sub, date_of.
  assert (HD : 0 < us_per_day) by (unfold us_per_day; lia).
  pose proof (Z.div_mod due us_per_day ltac:(lia)) as Hd.
  pose proof (Z.div_mod start us_per_day ltac:(lia)) as Hs.
  pose proof (Z.mod_pos_bound due us_per_day HD) as Bd.
  pose proof (Z.mod_pos_bound start us_per_day HD) as Bs.
  destruct (Z.leb_spec (start mod us_per_day) (due mod us_per_day)) as [Hle|Hlt].
  - symmetry.
    apply (Z.div_unique _ _ _ (due mod us_per_day - start mod us_per_day)); lia.
  - symmetry.
    apply (Z.div_unique _ _ _ (due mod us_per_day - start mod us_per_day + us_per_day));
      lia.
Qed.

Lemma date_add_in_range d td :
  min_ordinal <= d + days td <= max_ordinal -> date_add d td = Ok (d + days td).
Proof.
  unfold date_add. intros [Hlo Hhi].
  apply Z.leb_le in Hlo. apply Z.leb_le in Hhi. now rewrite Hlo, Hhi.
Qed.

(** C3, amended.  For an Epic that has a start date and a due date,
    parsed to the naive datetimes [start_dt] and [due_dt] (the texts
    carry no offset once the letter Z is removed), the handler, once it
    has fetched the Epic, issues the creation of a copy that starts on
    the date chosen and is due that date plus [(due_dt - start_dt).days],
    as long as this date exists.  The copy lasts the whole days from the
    original start to the original due date: the difference of the two
    original dates when the time of day of the due date is not earlier
    than that of the start date, as for two plain dates, and one day
    less otherwise.  The same holds of a child with a start and a due
    date without offset: once the issue types of the target project are
    fetched and the type of the child is resolved, its iteration of the
    loop issues the creation of a copy that starts the whole days from
    the start of the Epic to its own start after the date chosen, and is
    due [(due - start).days] later. *)
Theorem duration_preserved_in_whole_days (w : world) (epic : issue)
    (start_dt due_dt : datetime) :
  jira_issue (events w) selected_epic = Ok epic ->
  truthy (customfield_10015 (fields epic)) = true ->
  truthy (duedate (fields epic)) = true ->
  parse_iso (replace_Z (str (customfield_10015 (fields epic)))) = Ok start_dt ->
  parse_iso (replace_Z (str (duedate (fields epic)))) = Ok due_dt ->
  utcoffset (replace_Z (str (customfield_10015 (fields epic)))) = None ->
  utcoffset (replace_Z (str (duedate (fields epic)))) = None ->
  min_ordinal <= new_start_date + days (datetime_sub due_dt start_dt) <= max_ordinal ->
  let new_due := new_start_date + days (datetime_sub due_dt start_dt) in
  (exists eev rest,
     events (snd (migrate_template base_url selected_epic selected_key new_start_date w))
     = events w ++ fetch_event selected_epic (events w) :: eev :: rest
     /\ ev_call eev
        = JiraCreateIssue
            {| cf_project := selected_key;
               cf_summary := summary (fields epic);
               cf_description := description (fields epic);
               cf_issuetype := ByName "Epic";
               cf_customfield_10014 := None;
               cf_customfield_10015 := Some (strftime new_start_date);
               cf_duedate := Some (strftime new_due) |})
  /\ new_due - new_start_date
     = date_of due_dt - date_of start_dt
       - (if start_dt mod us_per_day <=? due_dt mod us_per_day then 0 else 1)
  /\ (forall (ch : issue) (child_start_dt child_due_dt : datetime),
        truthy (customfield_10015 (fields ch)) = true ->
        truthy (duedate (fields ch)) = true ->
        parse_iso (replace_Z (str (customfield_10015 (fields ch)))) = Ok child_start_dt ->
        parse_iso (replace_Z (str (duedate (fields ch)))) = Ok child_due_dt ->
        utcoffset (replace_Z (str (customfield_10015 (fields ch)))) = None ->
        utcoffset (replace_Z (str (duedate (fields ch)))) = None ->
        let child_start := new_start_date + days (datetime_sub child_start_dt start_dt) in
        let child_due := child_start + days (datetime_sub child_due_dt child_start_dt) in
        min_ordinal <= child_start <= max_ordinal ->
        min_ordinal <= child_due <= max_ordinal ->
        (forall (new_epic_key : string) (maps : key_maps) (w1 : world)
                (issue_types : list issue_type) (type_id : string),
            jira_project (events w1) selected_key = Ok issue_types ->
            child_type_id issue_types (issuetype (fields ch)) selected_key = Ok type_id ->
            let pev := project_event selected_key (events w1) in
            events (snd (migrate_child selected_key new_epic_key (Some start_dt)
                           new_start_date maps ch w1))
            = events w1
              ++ [pev;
                  create_event (events w1 ++ [pev])
                    (create_payload selected_key new_epic_key type_id (fields ch)
                       (Some child_start) (Some child_due))])
        /\ child_due - child_start
           = date_of child_due_dt - date_of child_start_dt
             - (if child_start_dt mod us_per_day <=? child_due_dt mod us_per_day
                then 0 else 1)).
Proof.
  intros Hj Hts Htd Hps Hpd _ _ Hrange new_due.
  assert (Hpayload : new_epic_payload selected_key new_start_date epic
                     = Ok (Some start_dt,
                           epic_payload selected_key new_start_date (fields epic) new_due)).
  { unfold new_epic_payload, epic_dates, new_epic_data.
    rewrite Hts, Hps. simpl. rewrite Htd, Hpd. simpl.
    rewrite (date_add_in_range _ _ Hrange). reflexivity. }
  split; [|split].
  - rewrite migrate_template_body.
    destruct (migrate_body _ _ _ _ w) as [r w'] eqn:Hb.
    apply migrate_body_calls in Hb as (evs & Hev & Hcalls).
    assert (Hevs : exists eev rest,
               evs = fetch_event selected_epic (events w) :: eev :: rest
               /\ ev_call eev
                  = JiraCreateIssue
                      (epic_payload selected_key new_start_date (fields epic) new_due)).
    { destruct Hcalls as [e' He|epic' e' Hj' Hp'|epic' esd' payload' e' Hj' Hp' Hc'
                         |epic' esd' payload' nek iev eev e' Hj' Hp' -> Hc' -> Hs
                         |epic' esd' payload' nek iev eev sev children cevs e' Hj' Hp' ->
                            Hc' -> Hs -> Hch
                         |epic' esd' payload' nek iev eev sev children cevs ks levs r'
                            Hj' Hp' -> Hc' -> Hs -> Hch Hl];
        try congruence;
        assert (epic' = epic) by congruence; subst epic';
        rewrite Hpayload in Hp'; try discriminate;
        injection Hp' as <- <-; eexists _, _; split; reflexivity. }
    destruct Hevs as (eev & rest & -> & Hcall).
    exists eev, rest. split; [destruct r as [[]|e]; exact Hev|exact Hcall].
  - unfold new_due. rewrite days_sub_times. lia.
  - intros ch cs cd Hcs Hcd Hpcs Hpcd _ _ child_start child_due Hrs Hrd. split.
    + assert (Hadd : date_add new_start_date
                       (timedelta_of_days (days (datetime_sub cs start_dt)))
                     = Ok child_start).
      { rewrite date_add_in_range; rewrite days_timedelta_of_days; [reflexivity|exact Hrs]. }
      assert (Hadd2 : date_add child_start
                        (timedelta_of_days (days (datetime_sub cd cs)))
                      = Ok child_due).
      { rewrite date_add_in_range; rewrite days_timedelta_of_days; [reflexivity|exact Hrd]. }
      assert (Hdates : child_dates new_start_date (Some start_dt) ch
                       = Ok (Some child_start, Some child_due)).
      { unfold child_dates, new_child_start, new_child_due.
        repeat (first [rewrite Hcs|rewrite Hcd|rewrite Hpcs|rewrite Hpcd
                      |rewrite Hadd|rewrite Hadd2]; simpl).
        reflexivity. }
      intros new_epic_key maps w1 issue_types type_id Hproj Htype pev.
      destruct (migrate_child selected_key new_epic_key (Some start_dt) new_start_date
                  maps ch w1) as [r w'] eqn:Hrun.
      apply migrate_child_calls in Hrun as (evs & new_key & Hev & Hcalls & _).
      simpl. rewrite Hev. f_equal.
      destruct Hcalls as [e He|start due e Hd Hp|start due types e Hd Hp Ht
                         |start due types tid payload Hd Hp Ht ->];
        try congruence.
      assert (types = issue_types) by congruence. subst types.
      assert (tid = type_id) by congruence. subst tid.
      rewrite Hdates in Hd. injection Hd as <- <-. reflexivity.
    + unfold child_due. rewrite days_sub_times. lia.
Qed.

End DurationClaim.

(** ** The resolution of the issue type *)

Lemma bind_ok {A B} (m : M A) (k : A -> M B) w a w1 :
  m w = (Ok a, w1) -> bind m k w = k a w1.
Proof. unfold bind. now intros ->. Qed.

Lemma bind_raise {A B} (m : M A) (k : A -> M B) w e w1 :
  m w = (Raise e, w1) -> bind m k w = (Raise e, w1).
Proof. unfold bind. now intros ->. Qed.

Lemma for_fold_app {A S} (l1 l2 : list A) (s : S) (body : S -> A -> M S) w :
  for_fold (l1 ++ l2) s body w
  = bind (for_fold l1 s body) (fun s' => for_fold l2 s' body) w.
Proof.
  revert s w. induction l1 as [|x l1 IH]; intros s w; simpl; [reflexivity|].
  unfold bind. destruct (body s x w) as [[s'|e] w1]; [|reflexivity].
  rewrite IH. reflexivity.
Qed.

Section TypeClaim.
Context `{!DateLibrary} `{!Repository}.
Variables (base_url selected_epic selected_key : string) (new_start_date : date).

Lemma find_type_id_Some issue_types child_type_name id :
  find_type_id issue_types child_type_name = Some id ->
  exists itype,
    In itype issue_types
    /\ child_type_name = Some (it_name itype)
    /\ it_id itype = Some id.
Proof.
  induction issue_types as [|itype rest IH]; simpl; [discriminate|].
  destruct child_type_name as [n|].
  - destruct (String.eqb_spec (it_name itype) n) as [Heq|Hne].
    + intros Hid. exists itype. subst n. auto.
    + intros Hid. destruct (IH Hid) as (t & Ht & Hn & Hi). exists t. auto.
  - intros Hid. destruct (IH Hid) as (t & Ht & Hn & Hi). discriminate.
Qed.

Lemma find_type_id_no_match issue_types child_type_name :
  (forall itype, In itype issue_types -> child_type_name <> Some (it_name itype)) ->
  find_type_id issue_types child_type_name = None.
Proof.
  intros Hno. destruct (find_type_id issue_types child_type_name) as [id|] eqn:Hf;
    [|reflexivity].
  apply find_type_id_Some in Hf as (t & Ht & Hn & _). now apply Hno in Ht.
Qed.

(** C7.  An issue type of the target project resolves the type of a
    child only when its name is, character for character, the name of
    the child's type.  When the handler has created the new Epic, found
    the children [before ++ ch :: after], migrated the children [before],
    and the target project then offers no issue type with the name of
    the type of [ch], the run issues the fetch of the project and no
    other call: no issue is created for [ch] nor for the children after
    it, and no link.  The handler ends on the single error message of
    line 661, which names the type and the project. *)
Theorem unsupported_issue_type_aborts (w w0 w1 w2 w3 : world)
    (new_epic_key : string) (epic_start_dt : option datetime)
    (before after : list issue) (ch : issue) (maps : key_maps)
    (start due : option date) (issue_types : list issue_type) :
  show (st_write "📌 Migration under process...") w = (Ok tt, w0) ->
  create_new_epic selected_epic selected_key new_start_date w0
  = (Ok (new_epic_key, epic_start_dt), w1) ->
  get_child_issues_for_epic base_url selected_epic 200 w1
  = (Ok (before ++ ch :: after), w2) ->
  migrate_children selected_key new_epic_key epic_start_dt new_start_date before w2
  = (Ok maps, w3) ->
  new_child_start epic_start_dt new_start_date (customfield_10015 (fields ch)) = Ok start ->
  new_child_due start (customfield_10015 (fields ch)) (duedate (fields ch)) = Ok due ->
  jira_project (events w3) selected_key = Ok issue_types ->
  (forall itype, In itype issue_types -> issuetype (fields ch) <> Some (it_name itype)) ->
  (forall types name id,
     find_type_id types name = Some id ->
     exists itype, In itype types /\ name = Some (it_name itype) /\ it_id itype = Some id)
  /\ exists w',
       migrate_template base_url selected_epic selected_key new_start_date w = (Ok tt, w')
       /\ events w' =
            events w3 ++ [{| ev_call := JiraProject selected_key; ev_raised := None |}]
       /\ screen w' =
            screen w3
            ++ [st_error
                  ("Error while migrating : "
                   +:+ unsupported_type_message (issuetype (fields ch)) selected_key)].
Proof.
  intros Hshow Hepic Hsearch Hbefore Hstart Hdue Htypes Hno.
  split; [apply find_type_id_Some|].
  rewrite migrate_template_body. unfold migrate_body.
  rewrite (bind_ok _ _ _ _ _ Hshow), (bind_ok _ _ _ _ _ Hepic),
    (bind_ok _ _ _ _ _ Hsearch).
  simpl fst. simpl snd. unfold migrate_children in *.
  rewrite (bind_raise _ _ _
             (Exception_ (unsupported_type_message (issuetype (fields ch)) selected_key))
             (record_event {| ev_call := JiraProject selected_key; ev_raised := None |} w3)).
  - eexists. split; [reflexivity|]. simpl. auto.
  - rewrite for_fold_app, (bind_ok _ _ _ _ _ Hbefore). simpl.
    apply bind_raise. unfold migrate_child.
    unfold lift at 1. unfold bind at 1. rewrite Hstart.
    unfold lift at 1. unfold bind at 1. rewrite Hdue.
    unfold perform at 1. unfold bind at 1. rewrite Htypes.
    unfold child_type_id. rewrite (find_type_id_no_match _ _ Hno). reflexivity.
Qed.

End TypeClaim.

(** ** A failed search *)

(** [sub in s]. *)
Fixpoint contains (sub s : string) : bool :=
  String.prefix sub s
  || match s with
     | EmptyString => false
     | String _ s' => contains sub s'
     end.

Section SearchFailure.
Context `{!DateLibrary} `{!Repository}.

(** [rest_api_get], which no part of the page calls, reports a status of
    400 or more with the status and the body. *)
Lemma rest_api_get_raises base_url path params resp w :
  requests_get (events w) (rstrip_slash base_url +:+ path) params = Ok resp ->
  400 <= status_code resp ->
  fst (rest_api_get base_url path params w)
  = Raise (Exception_ ("API error " +:+ str_int (status_code resp) +:+ ": " +:+ text resp)).
Proof.
  intros Hresp Hstatus. unfold rest_api_get, bind, perform. rewrite Hresp.
  destruct (Z.leb_spec 400 (status_code resp)); [reflexivity|lia].
Qed.

(** The two search functions, after any status but 200, print the
    status and the body on the console and raise [UnboundLocalError] for
    [data]. *)
Lemma search_issues_not_200 base_url params resp w :
  requests_get (events w) (search_url base_url) params = Ok resp ->
  status_code resp <> 200 ->
  search_issues base_url params w
  = (Raise (UnboundLocalError "data"),
     {| events := events w
                  ++ [{| ev_call := RequestsGet (search_url base_url) params;
                         ev_raised := None |}];
        screen := screen w;
        console := console w
                   ++ ["Erreur HTTP " +:+ str_int (status_code resp) +:+ ": "
                       +:+ text resp] |}).
Proof.
  intros Hresp Hstatus. unfold search_issues. fold (search_url base_url).
  unfold bind at 1. unfold perform. rewrite Hresp.
  destruct (Z.eqb_spec (status_code resp) 200) as [Habs|_]; [contradiction|].
  reflexivity.
Qed.

(** What the operator reads after a search for the Epics that ended on
    a status other than 200: a fixed text, whatever the status and the
    body were. *)
Lemma select_template_not_200 base_url resp w :
  requests_get (events w) (search_url base_url)
    [("jql", "project = PPT AND issuetype = Epic ORDER BY created DESC");
     ("startAt", "0"); ("maxResults", "50");
     ("fields", "summary,description,status,assignee,customfield_10015")] = Ok resp ->
  status_code resp <> 200 ->
  screen (snd (select_template base_url w))
  = screen w
    ++ [st_error
          "Erreur en récupérant les Epics : cannot access local variable 'data' where it is not associated with a value"].
Proof.
  intros Hresp Hstatus. unfold select_template, try_except, get_jql_template_epic.
  unfold bind at 1. rewrite (search_issues_not_200 _ _ _ _ Hresp Hstatus). reflexivity.
Qed.

End SearchFailure.

(** C8, on the sample repository whose search answers 500 with the body
    [Internal Server Error]: the migration is aborted (the Epic was
    created, no child is), the status and the body go to the console,
    and the one error shown to the operator is the text of
    [UnboundLocalError], with neither the status nor the body in it. *)
Theorem search_failure_hides_status_and_body :
  let R := Sample.scripted Sample.epic Sample.server_error Sample.task_types
             (fun _ => true) in
  let w' := snd (@migrate_template Sample.iso R Sample.base_url "PPT-1" "DST"
                   Sample.new_start_date Sample.start_world) in
  let shown :=
    "Error while migrating : cannot access local variable 'data' where it is not associated with a value" in
  screen w'
  = [st_write "📌 Migration under process..."; st_success "New EPIC created : DST-1";
     st_error shown]
  /\ console w' = ["Erreur HTTP 500: Internal Server Error"]
  /\ map ev_call (writes (events w'))
     = [JiraCreateIssue
          {| cf_project := "DST"; cf_summary := Some "Template"; cf_description := None;
             cf_issuetype := ByName "Epic"; cf_customfield_10014 := None;
             cf_customfield_10015 := Some "2024-06-01";
             cf_duedate := Some "2024-06-22" |}]
  /\ contains "500" shown = false
  /\ contains "Internal Server Error" shown = false.
Proof. vm_compute. repeat split. Qed.

(** ** Runs on the sample repository *)

(** The template with two children: the Epic, then the children by
    start date ([PPT-3] before [PPT-2]), then the link between them,
    once for each of its two records. *)
Example sample_run_calls :
  let R := Sample.scripted Sample.epic (Sample.found [Sample.child_a; Sample.child_b])
             Sample.task_types (fun _ => true) in
  let w' := snd (@migrate_template Sample.iso R Sample.base_url "PPT-1" "DST"
                   Sample.new_start_date Sample.start_world) in
  map ev_call (writes (events w'))
  = [JiraCreateIssue
       {| cf_project := "DST"; cf_summary := Some "Template"; cf_description := None;
          cf_issuetype := ByName "Epic"; cf_customfield_10014 := None;
          cf_customfield_10015 := Some "2024-06-01"; cf_duedate := Some "2024-06-22" |};
     JiraCreateIssue
       {| cf_project := "DST"; cf_summary := Some "Step B"; cf_description := None;
          cf_issuetype := ById "10001"; cf_customfield_10014 := Some "DST-1";
          cf_customfield_10015 := Some "2024-06-03"; cf_duedate := Some "2024-06-11" |};
     JiraCreateIssue
       {| cf_project := "DST"; cf_summary := Some "Step A"; cf_description := None;
          cf_issuetype := ById "10001"; cf_customfield_10014 := Some "DST-1";
          cf_customfield_10015 := Some "2024-06-06"; cf_duedate := None |};
     JiraCreateIssueLink "Blocks" "DST-3" "DST-2";
     JiraCreateIssueLink "Blocks" "DST-3" "DST-2"]
  /\ last (screen w') = Some (st_success "Successful migration!").
Proof. vm_compute. split; reflexivity. Qed.

(** A search answered by a page of HTML with status 200: [resp.json()]
    raises, no child is created and the operator reads the text of that
    exception. *)
Example sample_run_not_json :
  let R := Sample.scripted Sample.epic Sample.html_page Sample.task_types
             (fun _ => true) in
  let w' := snd (@migrate_template Sample.iso R Sample.base_url "PPT-1" "DST"
                   Sample.new_start_date Sample.start_world) in
  length (writes (events w')) = 1%nat
  /\ last (screen w')
     = Some (st_error
               "Error while migrating : Expecting value: line 1 column 1 (char 0)")
  /\ fst (@select_template R Sample.base_url Sample.start_world) = Ok []
  /\ screen (snd (@select_template R Sample.base_url Sample.start_world))
     = [st_error
          "Erreur en récupérant les Epics : Expecting value: line 1 column 1 (char 0)"].
Proof. vm_compute. repeat split. Qed.

(** A refused creation of the Epic: nothing else is written. *)
Example sample_run_epic_refused :
  let R := Sample.scripted Sample.epic (Sample.found [Sample.child_a; Sample.child_b])
             Sample.task_types (fun _ => false) in
  let w' := snd (@migrate_template Sample.iso R Sample.base_url "PPT-1" "DST"
                   Sample.new_start_date Sample.start_world) in
  length (writes (events w')) = 1%nat
  /\ last (screen w') = Some (st_error "Error while migrating : create refused").
Proof. vm_compute. split; reflexivity. Qed.

(** The names of the issue types are compared as they are. *)
Example find_type_id_case_sensitive :
  find_type_id Sample.task_types (Some "task") = None
  /\ find_type_id Sample.task_types (Some "Task") = Some "10001".
Proof. split; reflexivity. Qed.



(** The rule of the specification for the duration of a copy: the new
    due date minus the new start date is the original due date minus the
    original start date. *)
Definition spec_duration_preserved (new_start new_due : date)
    (orig_start orig_due : datetime) : Prop :=
  date_sub new_due new_start = datetime_sub orig_due orig_start.

(** An Epic from 2024-01-10 at noon to 2024-01-12 at six in the
    morning. *)
Definition sample_timed_epic : issue :=
  {| key := "PPT-1";
     fields := Sample.dated "Template" "Epic" (Some "2024-01-10T12:00:00")
                 (Some "2024-01-12T06:00:00") [] |}.

(** C3 as stated fails for dates that carry a time.  The Epic lasts one
    day and eighteen hours, from the 10th to the 12th; its copy is
    created from 2024-06-01 to 2024-06-02: it lasts one day, which is
    neither the original duration nor the two days between the original
    dates. *)
Lemma duration_not_preserved_with_times :
  let R := Sample.scripted sample_timed_epic (Sample.found []) Sample.task_types
             (fun _ => true) in
  let w' := snd (@migrate_template Sample.iso R Sample.base_url "PPT-1" "DST"
                   Sample.new_start_date Sample.start_world) in
  let orig_start := midnight 738895 + 12 * 3600000000 in
  let orig_due := midnight 738897 + 6 * 3600000000 in
  Iso.fromisoformat "2024-01-10T12:00:00" = Some orig_start
  /\ Iso.fromisoformat "2024-01-12T06:00:00" = Some orig_due
  /\ map ev_call (writes (events w'))
     = [JiraCreateIssue
          {| cf_project := "DST"; cf_summary := Some "Template"; cf_description := None;
             cf_issuetype := ByName "Epic"; cf_customfield_10014 := None;
             cf_customfield_10015 := Some "2024-06-01";
             cf_duedate := Some "2024-06-02" |}]
  /\ Iso.strftime 739038 = "2024-06-01"
  /\ Iso.strftime 739039 = "2024-06-02"
  /\ ~ spec_duration_preserved 739038 739039 orig_start orig_due
  /\ 739039 - 739038 <> date_of orig_due - date_of orig_start.
Proof. vm_compute. repeat split; discriminate. Qed.

(** C3, amended, at work: the sample Epic, from 2024-01-10 to
    2024-01-31, for a start on 2024-06-01. *)
Lemma duration_preserved_in_whole_days_witness :
  let R := Sample.scripted Sample.epic (Sample.found [Sample.child_a; Sample.child_b])
             Sample.task_types (fun _ => true) in
  let w := Sample.start_world in
  let start_dt := midnight 738895 in
  let due_dt := midnight 738916 in
  let new_due := Sample.new_start_date + days (datetime_sub due_dt start_dt) in
  (exists eev rest,
     events (snd (@migrate_template Sample.iso R Sample.base_url "PPT-1" "DST"
                    Sample.new_start_date w))
     = events w ++ @fetch_event R "PPT-1" (events w) :: eev :: rest
     /\ ev_call eev
        = JiraCreateIssue
            {| cf_project := "DST";
               cf_summary := summary (fields Sample.epic);
               cf_description := description (fields Sample.epic);
               cf_issuetype := ByName "Epic";
               cf_customfield_10014 := None;
               cf_customfield_10015 := Some (Iso.strftime Sample.new_start_date);
               cf_duedate := Some (Iso.strftime new_due) |})
  /\ new_due - Sample.new_start_date
     = date_of due_dt - date_of start_dt
       - (if start_dt mod us_per_day <=? due_dt mod us_per_day then 0 else 1)
  /\ (forall (ch : issue) (child_start_dt child_due_dt : datetime),
        truthy (customfield_10015 (fields ch)) = true ->
        truthy (duedate (fields ch)) = true ->
        @parse_iso Sample.iso (replace_Z (str (customfield_10015 (fields ch))))
        = Ok child_start_dt ->
        @parse_iso Sample.iso (replace_Z (str (duedate (fields ch)))) = Ok child_due_dt ->
        Iso.utcoffset (replace_Z (str (customfield_10015 (fields ch)))) = None ->
        Iso.utcoffset (replace_Z (str (duedate (fields ch)))) = None ->
        let child_start :=
          Sample.new_start_date + days (datetime_sub child_start_dt start_dt) in
        let child_due := child_start + days (datetime_sub child_due_dt child_start_dt) in
        min_ordinal <= child_start <= max_ordinal ->
        min_ordinal <= child_due <= max_ordinal ->
        (forall (new_epic_key : string) (maps : key_maps) (w1 : world)
                (issue_types : list issue_type) (type_id : string),
            @jira_project R (events w1) "DST" = Ok issue_types ->
            child_type_id issue_types (issuetype (fields ch)) "DST" = Ok type_id ->
            let pev := @project_event R "DST" (events w1) in
            events (snd (@migrate_child Sample.iso R "DST" new_epic_key (Some start_dt)
                           Sample.new_start_date maps ch w1))
            = events w1
              ++ [pev;
                  @create_event R (events w1 ++ [pev])
                    (@create_payload Sample.iso "DST" new_epic_key type_id (fields ch)
                       (Some child_start) (Some child_due))])
        /\ child_due - child_start
           = date_of child_due_dt - date_of child_start_dt
             - (if child_start_dt mod us_per_day <=? child_due_dt mod us_per_day
                then 0 else 1)).
Proof.
  intros R w start_dt due_dt new_due.
  apply (@duration_preserved_in_whole_days Sample.iso R Sample.base_url "PPT-1" "DST"
           Sample.new_start_date w Sample.epic start_dt due_dt).
  - reflexivity.
  - reflexivity.
  - reflexivity.
  - vm_compute. reflexivity.
  - vm_compute. reflexivity.
  - vm_compute. reflexivity.
  - vm_compute. reflexivity.
  - vm_compute. split; discriminate.
Defined.

(** C7 at work: the child [PPT-4] is a [Bug], a type that the target
    project does not have.  The children before it were created; the
    run ends on the message for [Bug] and nothing is created after. *)
Lemma unsupported_issue_type_aborts_witness :
  let R := Sample.scripted Sample.epic
             (Sample.found [Sample.child_a; Sample.child_bug; Sample.child_b])
             Sample.task_types (fun _ => true) in
  exists w',
    @migrate_template Sample.iso R Sample.base_url "PPT-1" "DST"
      Sample.new_start_date Sample.start_world = (Ok tt, w')
    /\ last (events w') = Some {| ev_call := JiraProject "DST"; ev_raised := None |}
    /\ last (screen w')
       = Some (st_error
                 "Error while migrating : Error while migrating 'Bug' in the project DST").
Proof.
  intros R.
  edestruct (@unsupported_issue_type_aborts Sample.iso R Sample.base_url "PPT-1" "DST"
               Sample.new_start_date Sample.start_world)
    with (before := [Sample.child_b]) (ch := Sample.child_bug) (after := [Sample.child_a])
    as [_ (w' & Hrun & Hev & Hsc)].
  - reflexivity.
  - vm_compute. reflexivity.
  - vm_compute. reflexivity.
  - vm_compute. reflexivity.
  - vm_compute. reflexivity.
  - vm_compute. reflexivity.
  - vm_compute. reflexivity.
  - intros itype [<-|[<-|[]]]; discriminate.
  - exists w'. split; [exact Hrun|].
    rewrite Hev, Hsc, !last_snoc. split; reflexivity.
Defined.

(** C10 at work: [PPT-2] blocks [PPT-3], and each child records its end
    of the link. *)
Lemma symmetric_link_created_twice_witness :
  let R := Sample.scripted Sample.epic (Sample.found []) Sample.task_types
             (fun _ => true) in
  let maps :=
    {| child_links_map :=
         [("PPT-3", original_links (issuelinks (fields Sample.child_b)));
          ("PPT-2", original_links (issuelinks (fields Sample.child_a)))];
       old_to_new_keys := <["PPT-2" := "DST-3"]> (<["PPT-3" := "DST-2"]> ∅) |} in
  exists p1 p2 p3,
    planned_links maps =
      p1 ++ JiraCreateIssueLink "Blocks" "DST-3" "DST-2"
         :: p2 ++ JiraCreateIssueLink "Blocks" "DST-3" "DST-2" :: p3.
Proof.
  intros R maps.
  refine (proj1 (@symmetric_link_created_twice R maps Sample.start_world
                   "PPT-2" "PPT-3" "DST-3" "DST-2" "Blocks"
                   (original_links (issuelinks (fields Sample.child_a)))
                   (original_links (issuelinks (fields Sample.child_b)))
                   _ _ _ _ _ _ _)).
  - discriminate.
  - simpl. auto.
  - simpl. auto.
  - simpl. auto.
  - simpl. auto.
  - reflexivity.
  - reflexivity.
Defined.

(** * Further properties of the code *)

(** ** The verdict of the handler *)

Section Verdict.
Context `{!DateLibrary} `{!Repository}.
Variables (base_url selected_epic selected_key : string) (new_start_date : date).

(** The messages that report progress: the key of the new Epic and the
    key of each child created. *)
Definition progress_message (m : message) : Prop :=
  (exists k, m = st_success ("New EPIC created : " +:+ k))
  \/ (exists k, m = st_write ("Task migrated: " +:+ k)).

(** Rewrite the screens of the intermediate worlds away. *)
Ltac chain_screens :=
  repeat match goal with
         | Hsc : screen ?w = _ |- _ => try rewrite Hsc in *; clear Hsc
         end;
  rewrite <- ?app_assoc; simpl.

Lemma create_new_epic_screen w r w' :
  create_new_epic selected_epic selected_key new_start_date w = (r, w') ->
  screen w' =
    screen w ++ match r with
                | Ok new_epic => [st_success ("New EPIC created : " +:+ fst new_epic)]
                | Raise _ => []
                end.
Proof.
  unfold create_new_epic. intros Hc. inv_run; chain_screens;
    rewrite ?app_nil_r; reflexivity.
Qed.

Lemma migrate_child_screen sk nek esd nsd maps ch w r w' :
  migrate_child sk nek esd nsd maps ch w = (r, w') ->
  exists msgs, screen w' = screen w ++ msgs /\ Forall progress_message msgs.
Proof.
  unfold migrate_child. intros Hc. inv_run; chain_screens.
  - eexists. split; [reflexivity|]. constructor; [right; eauto|constructor].
  - exists []. rewrite app_nil_r. split; [reflexivity|constructor].
  - exists []. rewrite app_nil_r. split; [reflexivity|constructor].
  - exists []. rewrite app_nil_r. split; [reflexivity|constructor].
  - exists []. rewrite app_nil_r. split; [reflexivity|constructor].
  - exists []. rewrite app_nil_r. split; [reflexivity|constructor].
Qed.

Lemma migrate_children_screen sk nek esd nsd children maps w r w' :
  for_fold children maps (migrate_child sk nek esd nsd) w = (r, w') ->
  exists msgs, screen w' = screen w ++ msgs /\ Forall progress_message msgs.
Proof.
  revert maps w. induction children as [|ch rest IH]; simpl; intros maps w Hf.
  - inv_run. exists []. rewrite app_nil_r. split; [reflexivity|constructor].
  - apply bind_inv in Hf as [(maps1 & w1 & Hch & Hrest)|(e & Hch & ->)].
    + apply migrate_child_screen in Hch as (m1 & Hs1 & Hp1).
      apply IH in Hrest as (m2 & Hs2 & Hp2).
      exists (m1 ++ m2). rewrite Hs2, Hs1, app_assoc. split; [reflexivity|].
      apply Forall_app. auto.
    + eapply migrate_child_screen; eauto.
Qed.

Lemma get_child_issues_for_epic_screen epic_key maxResults w r w' :
  get_child_issues_for_epic base_url epic_key maxResults w = (r, w') ->
  screen w' = screen w.
Proof.
  unfold get_child_issues_for_epic. intros Hg.
  apply bind_inv in Hg as [(issues & w1 & Hs & Hr)|(e & Hs & ->)].
  - apply search_issues_inv in Hs as (_ & _ & Hsc & _).
    apply lift_inv in Hr as [_ ->]. exact Hsc.
  - apply search_issues_inv in Hs as (_ & _ & Hsc & _). exact Hsc.
Qed.

(** What the body of the handler shows: the opening message, then
    progress messages, then the success message when it returns. *)
Lemma migrate_body_screen w r w' :
  migrate_body base_url selected_epic selected_key new_start_date w = (r, w') ->
  exists progress,
    Forall progress_message progress
    /\ screen w' =
         screen w ++ st_write "📌 Migration under process..." :: progress
         ++ match r with
            | Ok _ => [st_success "Successful migration!"]
            | Raise _ => []
            end.
Proof.
  unfold migrate_body. intros Hb.
  apply bind_inv in Hb as [([] & w0 & Hshow & Hb)|(e & Hshow & _)];
    [|apply show_inv in Hshow as [Habs _]; discriminate].
  apply show_inv in Hshow as (_ & _ & Hs0).
  apply bind_inv in Hb as [(new_epic & w1 & Hepic & Hb)|(e & Hepic & ->)].
  2: { apply create_new_epic_screen in Hepic. rewrite app_nil_r in Hepic.
       exists []. split; [constructor|]. rewrite Hepic, Hs0, <- ?app_assoc. reflexivity. }
  apply create_new_epic_screen in Hepic.
  assert (Hp1 : progress_message (st_success ("New EPIC created : " +:+ fst new_epic)))
    by (left; eauto).
  apply bind_inv in Hb as [(children & w2 & Hsearch & Hb)|(e & Hsearch & ->)].
  2: { apply get_child_issues_for_epic_screen in Hsearch.
       eexists [_]. split; [constructor; [exact Hp1|constructor]|].
       rewrite Hsearch, Hepic, Hs0, <- ?app_assoc. reflexivity. }
  apply get_child_issues_for_epic_screen in Hsearch.
  apply bind_inv in Hb as [(maps & w3 & Hchildren & Hb)|(e & Hchildren & ->)].
  2: { apply migrate_children_screen in Hchildren as (msgs & Hs3 & Hp3).
       exists (st_success ("New EPIC created : " +:+ fst new_epic) :: msgs).
       split; [constructor; assumption|].
       rewrite Hs3, Hsearch, Hepic, Hs0, <- ?app_assoc. simpl.
       now rewrite app_nil_r. }
  apply migrate_children_screen in Hchildren as (msgs & Hs3 & Hp3).
  apply bind_inv in Hb as [([] & w4 & Hlinks & Hb)|(e & Hlinks & ->)].
  - apply follows_plan_recreate_links in Hlinks as (_ & _ & Hs4 & _).
    apply show_inv in Hb as (-> & _ & Hs5).
    exists (st_success ("New EPIC created : " +:+ fst new_epic) :: msgs).
    split; [constructor; assumption|].
    rewrite Hs5, Hs4, Hs3, Hsearch, Hepic, Hs0, <- ?app_assoc. reflexivity.
  - apply follows_plan_recreate_links in Hlinks as (_ & _ & Hs4 & _).
    exists (st_success ("New EPIC created : " +:+ fst new_epic) :: msgs).
    split; [constructor; assumption|].
    rewrite Hs4, Hs3, Hsearch, Hepic, Hs0, <- ?app_assoc. simpl.
    now rewrite app_nil_r.
Qed.

(** X1.  The handler never lets an exception out.  What it shows is
    the opening message, then progress messages, then exactly one
    verdict: the success message when the body of the [try] returned,
    otherwise one error message made of the text of the exception. *)
Theorem migrate_template_verdict (w : world) :
  exists progress verdict,
    fst (migrate_template base_url selected_epic selected_key new_start_date w) = Ok tt
    /\ screen (snd (migrate_template base_url selected_epic selected_key new_start_date w))
       = screen w ++ st_write "📌 Migration under process..." :: progress ++ [verdict]
    /\ Forall progress_message progress
    /\ match fst (migrate_body base_url selected_epic selected_key new_start_date w) with
       | Ok _ => verdict = st_success "Successful migration!"
       | Raise e => verdict = st_error ("Error while migrating : " +:+ str_exn e)
       end.
Proof.
  rewrite migrate_template_body.
  destruct (migrate_body _ _ _ _ w) as [r w'] eqn:Hb.
  apply migrate_body_screen in Hb as (progress & Hp & Hs).
  exists progress. destruct r as [[]|e]; simpl.
  - eexists. repeat split; eauto.
  - eexists. split; [reflexivity|]. split; [|split; [exact Hp|reflexivity]].
    rewrite Hs, app_nil_r, <- app_assoc. reflexivity.
Qed.

End Verdict.

(** ** Complete runs and runs that stop at the Epic *)

Section Outcomes.
Context `{!DateLibrary} `{!Repository}.
Variables (base_url selected_epic selected_key : string) (new_start_date : date).

Lemma child_step_done_ok sk nek esd nsd ch evs :
  child_step sk nek esd nsd ch evs true -> Forall ev_ok evs.
Proof.
  intros Hstep. inversion Hstep; subst. repeat constructor; assumption.
Qed.

Lemma child_phase_done_ok sk nek esd nsd children evs :
  child_phase sk nek esd nsd children evs true -> Forall ev_ok evs.
Proof.
  intros Hphase. remember true as b eqn:Hb. revert Hb.
  induction Hphase as [|ch rest evs Hstep|ch rest evs1 evs2 b Hstep Hphase IH];
    intros Hb; [constructor|discriminate|].
  apply Forall_app. split; [eapply child_step_done_ok; eauto|auto].
Qed.

Lemma child_calls_created nek esd h ch evs new_key :
  child_calls selected_key new_start_date nek esd h ch evs (Ok new_key) ->
  exists cev, writes evs = [cev] /\ creates_child selected_key nek esd new_start_date ch cev.
Proof.
  intros Hc. inversion Hc as [| | |start due types type_id payload Hd Hp Ht Hpay Hevs Hk].
  subst. eexists. split.
  - rewrite writes_read by reflexivity. erewrite writes_create by reflexivity. reflexivity.
  - unfold child_dates in Hd.
    destruct (new_child_start _ _ _) as [start'|] eqn:Hstart; [|discriminate].
    simpl in Hd. destruct (new_child_due _ _ _) as [due'|] eqn:Hdue; [|discriminate].
    simpl in Hd. injection Hd as -> ->.
    exists type_id, start, due. auto.
Qed.

Lemma children_calls_created nek esd h children evs new_keys :
  children_calls selected_key new_start_date nek esd h children evs (Ok new_keys) ->
  Forall2 (creates_child selected_key nek esd new_start_date) children (writes evs)
  /\ length new_keys = length children.
Proof.
  intros Hc. remember (Ok new_keys) as r eqn:Hr. revert new_keys Hr.
  induction Hc as [h|h ch rest evs e Hch|h ch rest evs k evs' r Hch Hrest IH];
    intros new_keys Hr.
  - injection Hr as <-. split; [constructor|reflexivity].
  - discriminate.
  - destruct r as [ks|e]; [|discriminate]. simpl in Hr. injection Hr as <-.
    destruct (IH ks eq_refl) as [Hall Hlen].
    apply child_calls_created in Hch as (cev & Hw & Hcreates).
    rewrite writes_app, Hw. simpl. split; [now constructor|now rewrite Hlen].
Qed.

Lemma link_calls_done h plan evs : link_calls h plan evs (Ok tt) -> map ev_call evs = plan.
Proof.
  intros Hl. remember (Ok tt) as r eqn:Hr. revert Hr.
  induction Hl as [h|h type inw outw plan e He|h type inw outw plan evs r Hc Hrest IH];
    intros Hr; [reflexivity|discriminate|].
  simpl. now rewrite (IH Hr).
Qed.

(** X2.  When the body of the handler returns, which is when the
    success message is shown, no call of the run raised; the calls were
    the fetch of the Epic, the creation of its copy, one search, then
    for every child of the ordered list the fetch of the issue types
    and a creation (none is missing), then the creations of the links:
    exactly the calls planned from the two dictionaries that hold, for
    these children, their link snapshots and the keys [new_keys] that
    the repository gave to their copies. *)
Theorem successful_run_is_complete (w w' : world) :
  migrate_body base_url selected_epic selected_key new_start_date w = (Ok tt, w') ->
  exists epic epic_start_dt payload new_epic_key children cevs new_keys levs,
    let iev := fetch_event selected_epic (events w) in
    let eev := create_event (events w ++ [iev]) payload in
    let sev := search_event base_url selected_epic (events w ++ [iev; eev]) in
    events w' = events w ++ iev :: eev :: sev :: cevs ++ levs
    /\ Forall ev_ok (iev :: eev :: sev :: cevs ++ levs)
    /\ jira_issue (events w) selected_epic = Ok epic
    /\ new_epic_payload selected_key new_start_date epic = Ok (epic_start_dt, payload)
    /\ jira_create_issue (events w ++ [iev]) payload = Ok new_epic_key
    /\ children_of_answer (search_answer base_url selected_epic (events w ++ [iev; eev]))
       = Ok children
    /\ children_calls selected_key new_start_date new_epic_key epic_start_dt
         (events w ++ [iev; eev; sev]) children cevs (Ok new_keys)
    /\ Forall2 (creates_child selected_key new_epic_key epic_start_dt new_start_date)
         children (writes cevs)
    /\ length new_keys = length children
    /\ map ev_call levs = planned_links (key_maps_of children new_keys).
Proof.
  intros Hb. apply migrate_body_calls in Hb as (evs & Hev & Hcalls).
  pose proof (handler_calls_ok _ _ _ _ _ _ _ Hcalls) as [_ Hok].
  specialize (Hok eq_refl).
  inversion Hcalls as [| | | |
                       |epic esd payload nek iev eev sev children cevs ks levs r
                          Hj Hp Hiev Hc Heev Hs Hsev Hch Hl Hevs Hr].
  subst. exists epic, esd, payload, nek, children, cevs, ks, levs. cbv zeta.
  destruct (children_calls_created _ _ _ _ _ _ Hch) as [Hall Hlen].
  split; [assumption|]. split; [assumption|]. split; [assumption|].
  split; [assumption|]. split; [assumption|]. split; [assumption|].
  split; [assumption|]. split; [assumption|]. split; [assumption|].
  eapply link_calls_done. exact Hl.
Qed.

(** The text of the [TypeError] raised by [date + 0]. *)
Definition date_plus_int_message : string :=
  "unsupported operand type(s) for +: 'datetime.date' and 'int'".

(** X3.  When the Epic has no start date, or has a start date that
    parses and no due date, [epic_duration] is still the integer 0 when
    the payload of the new Epic is built: the handler stops there on a
    [TypeError], having issued the fetch of the Epic and no other call,
    and shows that error. *)
Theorem epic_without_dates_aborts (w : world) (epic : issue) :
  jira_issue (events w) selected_epic = Ok epic ->
  truthy (customfield_10015 (fields epic)) = false
  \/ (truthy (duedate (fields epic)) = false
      /\ exists esd,
           parse_iso (replace_Z (str (customfield_10015 (fields epic)))) = Ok esd) ->
  migrate_template base_url selected_epic selected_key new_start_date w
  = (Ok tt,
     {| events := events w ++ [{| ev_call := JiraIssue selected_epic; ev_raised := None |}];
        screen := screen w
                  ++ [st_write "📌 Migration under process..."]
                  ++ [st_error ("Error while migrating : " +:+ date_plus_int_message)];
        console := console w |}).
Proof.
  intros Hepic Hdates.
  assert (Hd : exists esd, epic_dates (customfield_10015 (fields epic))
                             (duedate (fields epic)) = Ok (esd, PyInt 0)).
  { unfold epic_dates. destruct Hdates as [->|(-> & esd & Hp)]; [eauto|].
    destruct (truthy (customfield_10015 (fields epic))); [|eauto].
    rewrite Hp. simpl. eauto. }
  destruct Hd as [esd Hd].
  rewrite migrate_template_body. unfold migrate_body, create_new_epic.
  unfold bind, show, perform, lift. simpl. rewrite Hepic, Hd.
  unfold new_epic_data. simpl. rewrite <- app_assoc. reflexivity.
Qed.

(** X4.  A template without children: when the Epic is fetched, its
    payload is built and its creation succeeds, and the search answers
    200 with a body that is JSON and holds no issue, the run consists of
    these three calls, creates nothing else and ends on the success
    message. *)
Theorem run_without_children (w : world) (epic : issue)
    (dates : option datetime * int_or_timedelta) (payload : create_fields)
    (new_epic_key : string) (resp : response) (body : json_body) :
  let iev := {| ev_call := JiraIssue selected_epic; ev_raised := None |} in
  let eev := {| ev_call := JiraCreateIssue payload; ev_raised := None |} in
  let sev := {| ev_call := RequestsGet (search_url base_url)
                             (children_params selected_epic);
                ev_raised := None |} in
  jira_issue (events w) selected_epic = Ok epic ->
  epic_dates (customfield_10015 (fields epic)) (duedate (fields epic)) = Ok dates ->
  new_epic_data selected_key (fields epic) new_start_date (snd dates) = Ok payload ->
  jira_create_issue (events w ++ [iev]) payload = Ok new_epic_key ->
  requests_get (events w ++ [iev; eev]) (search_url base_url)
    (children_params selected_epic) = Ok resp ->
  status_code resp = 200 ->
  json resp = Ok body ->
  default [] (body_issues body) = [] ->
  migrate_template base_url selected_epic selected_key new_start_date w
  = (Ok tt,
     {| events := events w ++ [iev; eev; sev];
        screen := screen w
                  ++ [st_write "📌 Migration under process...";
                      st_success ("New EPIC created : " +:+ new_epic_key);
                      st_success "Successful migration!"];
        console := console w |}).
Proof.
  intros iev eev sev Hepic Hdates Hpayload Hcreate Hresp H200 Hjson Hnone.
  rewrite migrate_template_body. unfold migrate_body, create_new_epic.
  unfold bind at 1. unfold show at 1.
  unfold bind at 1. unfold bind at 1. unfold perform at 1. simpl events.
  rewrite Hepic.
  unfold bind at 1. unfold lift at 1. rewrite Hdates.
  unfold bind at 1. unfold lift at 1. rewrite Hpayload.
  unfold bind at 1. unfold perform at 1. simpl events. fold iev. rewrite Hcreate.
  unfold bind at 1. unfold show at 1. unfold ret at 1.
  unfold get_child_issues_for_epic. change (str_int 200) with "200".
  fold (children_params selected_epic).
  unfold bind at 1. unfold bind at 1. unfold search_issues.
  fold (search_url base_url).
  unfold bind at 1. unfold perform at 1. simpl events. fold eev.
  rewrite <- app_assoc. simpl app. rewrite Hresp.
  rewrite H200. simpl Z.eqb. cbv iota.
  unfold bind at 1. unfold bind at 1. unfold lift at 1. rewrite Hjson. cbv iota beta.
  unfold bind at 1. rewrite Hnone. simpl for_each.
  unfold ret at 1. unfold ret at 1. cbv iota beta.
  rewrite Hnone. unfold ret at 1. unfold lift at 1. simpl ordre_child_issues.
  cbv iota beta. simpl fst. simpl snd.
  unfold migrate_children. simpl for_fold.
  unfold bind at 1. unfold ret at 1. unfold recreate_links. simpl for_each.
  unfold bind at 1. unfold ret at 1. unfold show. simpl.
  rewrite <- !app_assoc. reflexivity.
Qed.

End Outcomes.

(** ** The dictionaries built by the loop over the children *)

Section LinkEvents.
Context `{!Repository}.

(** Every call of the reconstruction comes from a record, with both
    ends in [old_to_new_keys]. *)
Lemma link_events_from_records (maps : key_maps) (w : world) :
  exists evs,
    events (snd (recreate_links maps w)) = events w ++ evs
    /\ forall ev,
         In ev evs ->
         exists old_key links link new_key linked_new_key,
           In (old_key, links) (child_links_map maps)
           /\ In link links
           /\ old_to_new_keys maps !! old_key = Some new_key
           /\ old_to_new_keys maps !! lr_key link = Some linked_new_key
           /\ links_from_to (ev_call ev) (lr_type link) (lr_direction link)
                new_key linked_new_key.
Proof.
  destruct (recreate_links maps w) as [r w'] eqn:Hrun. simpl.
  apply follows_plan_recreate_links in Hrun as (evs & Hev & _ & Hplan).
  exists evs. split; [assumption|].
  intros ev Hin. apply (plan_run_In _ _ _ _ Hplan) in Hin.
  apply In_planned_links in Hin as (old_key & links & link & new_key & He & Hl & Hn & Hc).
  apply link_call_Some in Hc as (linked & Hlinked & Hft).
  exists old_key, links, link, new_key, linked.
  repeat split; auto using get_truthy_lookup.
Qed.

End LinkEvents.

Section KeyMaps.
Context `{!DateLibrary} `{!Repository}.
Variables (selected_key new_epic_key : string).
Variables (epic_start_dt : option datetime) (new_start_date : date).

Lemma dict_set_keys {V} (d : list (string * V)) k v k' :
  In k' (map fst (dict_set d k v)) <-> In k' (map fst d) \/ k' = k.
Proof.
  induction d as [|[k0 v0] d IH]; simpl.
  - split.
    + intros [Heq|[]]. auto.
    + intros [[]|Heq]. auto.
  - destruct (String.eqb_spec k0 k) as [Hk|Hne]; simpl.
    + subst k0. split.
      * intros [Heq|Hin]; auto.
      * intros [[Heq|Hin]|Heq]; auto.
    + rewrite IH. tauto.
Qed.

Lemma dict_set_NoDup {V} (d : list (string * V)) k v :
  NoDup (map fst d) -> NoDup (map fst (dict_set d k v)).
Proof.
  induction d as [|[k0 v0] d IH]; simpl; intros Hnd.
  - repeat constructor. apply not_elem_of_nil.
  - apply NoDup_cons in Hnd as [Hnotin Hnd].
    destruct (String.eqb_spec k0 k) as [->|Hne]; simpl.
    + apply NoDup_cons. auto.
    + apply NoDup_cons. split; [|auto].
      rewrite list_elem_of_In, dict_set_keys, <- list_elem_of_In. intros [Hin|Heq]; auto.
Qed.

Lemma dict_set_In {V} (d : list (string * V)) k v k' v' :
  In (k', v') (dict_set d k v) -> (k' = k /\ v' = v) \/ In (k', v') d.
Proof.
  induction d as [|[k0 v0] d IH]; simpl.
  - intros [Heq|[]]. inversion Heq. auto.
  - destruct (String.eqb_spec k0 k) as [->|Hne]; simpl.
    + intros [Heq|Hin]; [inversion Heq; auto|auto].
    + intros [Heq|Hin]; [auto|]. destruct (IH Hin); auto.
Qed.

(** What one completed iteration does to the two dictionaries. *)
Lemma migrate_child_maps maps ch w maps' w' :
  migrate_child selected_key new_epic_key epic_start_dt new_start_date maps ch w
  = (Ok maps', w') ->
  child_links_map maps' =
    dict_set (child_links_map maps) (key ch) (original_links (issuelinks (fields ch)))
  /\ exists new_key,
       old_to_new_keys maps' = <[key ch := new_key]> (old_to_new_keys maps).
Proof.
  unfold migrate_child. intros Hc. inv_run. simpl. eauto.
Qed.

Lemma for_fold_maps children maps w maps' w' :
  for_fold children maps
    (migrate_child selected_key new_epic_key epic_start_dt new_start_date) w
  = (Ok maps', w') ->
  (forall k, is_Some (old_to_new_keys maps' !! k) <->
             is_Some (old_to_new_keys maps !! k) \/ In k (map key children))
  /\ (NoDup (map fst (child_links_map maps)) -> NoDup (map fst (child_links_map maps')))
  /\ (forall k, In k (map fst (child_links_map maps')) <->
                In k (map fst (child_links_map maps)) \/ In k (map key children))
  /\ (forall k links,
        In (k, links) (child_links_map maps') ->
        In (k, links) (child_links_map maps)
        \/ exists ch, In ch children /\ key ch = k
                      /\ links = original_links (issuelinks (fields ch))).
Proof.
  revert maps w. induction children as [|ch rest IH]; simpl; intros maps w Hf.
  - inv_run. repeat split; auto; tauto.
  - apply bind_inv in Hf as [(maps1 & w1 & Hch & Hrest)|(e & _ & Habs)]; [|discriminate].
    apply migrate_child_maps in Hch as (Hlinks & nk & Hkeys).
    destruct (IH _ _ Hrest) as (IHa & IHb & IHc & IHd).
    split; [|split; [|split]].
    + intros k. rewrite IHa, Hkeys.
      destruct (decide (key ch = k)) as [<-|Hne].
      * rewrite lookup_insert_eq. split; [auto|]. intros _. left. eauto.
      * rewrite lookup_insert_ne by assumption. split; intros [?|?]; auto.
        destruct H1 as [?|?]; [contradiction|auto].
    + intros Hnd. apply IHb. rewrite Hlinks. now apply dict_set_NoDup.
    + intros k. rewrite IHc, Hlinks, dict_set_keys. split.
      * intros [[? | ->] | ?]; auto.
      * intros [? | [<- | ?]]; auto.
    + intros k links Hin. destruct (IHd _ _ Hin) as [Hin1|(c & Hc & Hk & Hl)].
      * rewrite Hlinks in Hin1. apply dict_set_In in Hin1 as [[-> ->]|Hin0]; [|auto].
        right. exists ch. auto.
      * right. exists c. auto.
Qed.

(** The two dictionaries of a completed loop, from the empty ones. *)
Lemma migrate_children_dicts (children : list issue) (w w' : world) (maps : key_maps) :
  migrate_children selected_key new_epic_key epic_start_dt new_start_date children w
  = (Ok maps, w') ->
  (forall k, is_Some (old_to_new_keys maps !! k) <-> In k (map key children))
  /\ NoDup (map fst (child_links_map maps))
  /\ (forall k, In k (map fst (child_links_map maps)) <-> In k (map key children))
  /\ (forall k links,
        In (k, links) (child_links_map maps) ->
        exists ch, In ch children /\ key ch = k
                   /\ links = original_links (issuelinks (fields ch))).
Proof.
  unfold migrate_children. intros Hf.
  apply for_fold_maps in Hf as (Ha & Hb & Hc & Hd). simpl in *.
  split; [|split; [|split]].
  - intros k. rewrite Ha, lookup_empty. split; [intros [[? Habs]|?]; [discriminate|auto]|auto].
  - apply Hb. constructor.
  - intros k. rewrite Hc. tauto.
  - intros k links Hin. destruct (Hd _ _ Hin) as [[]|?]. assumption.
Qed.

(** X5.  After the loop over the children has completed,
    [old_to_new_keys] has an entry for exactly the keys of the children,
    whatever their dates; [child_links_map] has one entry for each of
    these keys and no other, and each entry holds the link snapshot of a
    child with that key. *)
Theorem migrate_children_maps (children : list issue) (w w' : world) (maps : key_maps) :
  migrate_children selected_key new_epic_key epic_start_dt new_start_date children w
  = (Ok maps, w') ->
  (forall k, is_Some (old_to_new_keys maps !! k) <-> In k (map key children))
  /\ NoDup (map fst (child_links_map maps))
  /\ (forall k, In k (map fst (child_links_map maps)) <-> In k (map key children))
  /\ (forall k links,
        In (k, links) (child_links_map maps) ->
        exists ch, In ch children /\ key ch = k
                   /\ links = original_links (issuelinks (fields ch))).
Proof. apply migrate_children_dicts. Qed.

(** X6.  Links stay inside the template: after a completed loop over
    the children, every call that the reconstruction issues joins the new
    keys of two of these children, and comes from a record of the link
    snapshot of the first that names the key of the second. *)
Theorem links_join_children (children : list issue) (w w' w2 : world) (maps : key_maps) :
  migrate_children selected_key new_epic_key epic_start_dt new_start_date children w
  = (Ok maps, w') ->
  exists evs,
    events (snd (recreate_links maps w2)) = events w2 ++ evs
    /\ forall ev,
         In ev evs ->
         exists ch far link new_key far_new_key,
           In ch children /\ In far children
           /\ In link (original_links (issuelinks (fields ch)))
           /\ lr_key link = key far
           /\ old_to_new_keys maps !! key ch = Some new_key
           /\ old_to_new_keys maps !! key far = Some far_new_key
           /\ links_from_to (ev_call ev) (lr_type link) (lr_direction link)
                new_key far_new_key.
Proof.
  intros Hmaps. apply migrate_children_dicts in Hmaps as (Hkeys & _ & _ & Hlinks).
  destruct (link_events_from_records maps w2) as (evs & Hev & Hall).
  exists evs. split; [exact Hev|]. intros ev Hin.
  destruct (Hall ev Hin) as (old_key & links & link & nk & fk & He & Hl & Hn & Hf & Hft).
  destruct (Hlinks _ _ He) as (ch & Hch & <- & ->).
  assert (Hfar : In (lr_key link) (map key children)) by (apply Hkeys; eauto).
  apply in_map_iff in Hfar as (far & Hfk & Hfar).
  exists ch, far, link, nk, fk. rewrite Hfk. repeat split; auto.
Qed.

End KeyMaps.

(** ** Sorting what is sorted, and the two GET helpers *)

Section Helpers.
Context `{!DateLibrary} `{!Repository}.

(** X7.  The search asks the server for the children by ascending
    start date; when the keys [get_start_date] of the list received
    compare with each other, being all offset-naive or all offset-aware,
    and the list is ascending for them, [ordre_child_issues] returns it
    as it is. *)
Theorem ordre_child_issues_sorted_input (issues : list issue) :
  one_kind get_start_date issues = true ->
  StronglySorted (key_le (fun i => instant (get_start_date i))) issues ->
  ordre_child_issues issues = Ok issues.
Proof.
  intros Hk Hs. unfold ordre_child_issues. rewrite sorted_outcome, Hk. f_equal.
  symmetry. apply stable_sort_unique; [exact Hs|reflexivity].
Qed.

(** X17.  When the keys of the children compare with each other, all
    offset-naive (as when no start date carries [Z] or an offset) or all
    offset-aware, [ordre_child_issues] returns the children it was
    given, in ascending order of the key; the key of a child is its
    parsed start date, and it is [datetime.max] when the start date is
    missing and just the same when it does not parse, so that no child
    with a smaller key follows such a child; children of equal key,
    those without a start date among them, keep the order in which they
    were fetched. *)
Theorem ordre_child_issues_ascending_stable (issues : list issue) :
  one_kind get_start_date issues = true ->
  exists children,
    ordre_child_issues issues = Ok children
    /\ Permutation issues children
    /\ StronglySorted (key_le (fun i => instant (get_start_date i))) children
    /\ (forall i dt, start_date_parsed i dt None -> get_start_date i = Naive dt)
    /\ (forall i, no_start_date i -> get_start_date i = Naive datetime_max)
    /\ (forall before i after,
          children = before ++ i :: after ->
          no_start_date i ->
          Forall (fun j => datetime_max <= instant (get_start_date j)) after)
    /\ (forall k,
          filter (fun i => instant (get_start_date i) = k) children
          = filter (fun i => instant (get_start_date i) = k) issues).
Proof.
  intros Hk. exists (stable_sort (fun i => instant (get_start_date i)) issues).
  split; [unfold ordre_child_issues; now rewrite sorted_outcome, Hk|].
  split; [apply stable_sort_perm|]. split; [apply stable_sort_ordered|].
  split; [apply get_start_date_naive|]. split; [apply get_start_date_missing|]. split.
  - intros before i after Heq Hi.
    pose proof (stable_sort_ordered (fun i => instant (get_start_date i)) issues) as Hs.
    rewrite Heq in Hs. apply ordered_after_max in Hs.
    now rewrite (get_start_date_missing i Hi) in Hs.
  - intros k. apply stable_sort_stable.
Qed.

(** [n] times the character [/]. *)
Fixpoint slashes (n : nat) : string :=
  match n with
  | O => EmptyString
  | S n' => String "/" (slashes n')
  end.

(** The last character of [s] is [/]. *)
Fixpoint ends_with_slash (s : string) : bool :=
  match s with
  | EmptyString => false
  | String c EmptyString => Ascii.eqb c "/"
  | String _ s' => ends_with_slash s'
  end.

Lemma append_nil_l (s : string) : EmptyString +:+ s = s.
Proof. reflexivity. Qed.

Lemma append_cons (c : ascii) (s t : string) : String c s +:+ t = String c (s +:+ t).
Proof. reflexivity. Qed.

Lemma rstrip_slash_spec (s : string) :
  exists n,
    s = rstrip_slash s +:+ slashes n /\ ends_with_slash (rstrip_slash s) = false.
Proof.
  induction s as [|c s (n & Hs & He)]; [exists O; auto|].
  simpl. destruct (rstrip_slash s) as [|c' r] eqn:Hr.
  - rewrite append_nil_l in Hs. destruct (Ascii.eqb_spec c "/") as [->|Hne].
    + exists (S n). rewrite append_nil_l. simpl. now rewrite <- Hs.
    + exists n. rewrite append_cons, append_nil_l, <- Hs. split; [reflexivity|].
      simpl. now apply Ascii.eqb_neq.
  - exists n. rewrite append_cons, <- Hs. split; [reflexivity|exact He].
Qed.

(** X8.  [rest_api_get] issues one GET, to the base URL without its
    trailing slashes followed by the path, and shows nothing.  For a
    status below 400 it returns what [resp.json()] returns, and raises
    what it raises when the body is not JSON; from 400 on it raises the
    exception that names the status and the body; it lets an exception
    of the request through. *)
Theorem rest_api_get_outcome (base_url path : string)
    (params : list (string * string)) (w : world) :
  exists stripped n,
    base_url = stripped +:+ slashes n
    /\ ends_with_slash stripped = false
    /\ events (snd (rest_api_get base_url path params w))
       = events w
         ++ [{| ev_call := RequestsGet (stripped +:+ path) params;
                ev_raised :=
                  match requests_get (events w) (stripped +:+ path) params with
                  | Ok _ => None
                  | Raise e => Some e
                  end |}]
    /\ screen (snd (rest_api_get base_url path params w)) = screen w
    /\ fst (rest_api_get base_url path params w)
       = match requests_get (events w) (stripped +:+ path) params with
         | Raise e => Raise e
         | Ok resp =>
             if 400 <=? status_code resp
             then Raise (Exception_ ("API error " +:+ str_int (status_code resp)
                                     +:+ ": " +:+ text resp))
             else json resp
         end.
Proof.
  destruct (rstrip_slash_spec base_url) as (n & Hs & He).
  exists (rstrip_slash base_url), n. split; [exact Hs|]. split; [exact He|].
  unfold rest_api_get, bind, perform.
  destruct (requests_get (events w) (rstrip_slash base_url +:+ path) params)
    as [resp|e]; simpl; [|auto].
  destruct (400 <=? status_code resp); simpl; auto.
Qed.

Lemma select_template_search (base_url : string) (w : world) :
  select_template base_url w =
  match get_jql_template_epic base_url 100 w with
  | (Ok [], w1) =>
      (Ok [],
       {| events := events w1;
          screen := screen w1 ++ [st_info "Aucun EPIC trouvé pour ce JQL."];
          console := console w1 |})
  | (Ok epics, w1) => (Ok epics, w1)
  | (Raise e, w1) =>
      (Ok [],
       {| events := events w1;
          screen := screen w1
                    ++ [st_error ("Erreur en récupérant les Epics : " +:+ str_exn e)];
          console := console w1 |})
  end.
Proof.
  unfold select_template, try_except, bind.
  destruct (get_jql_template_epic base_url 100 w) as [[[|i l]|e] w1]; reflexivity.
Qed.

(** X9.  The selection of the template never raises.  It issues one
    search; after a response of status 200 whose body is JSON it
    returns the issues of the response, with a notice when there is
    none; after a response of status 200 whose body is not JSON, after
    any other status, or after an exception of the request, it returns
    no Epic and shows one error message: the text of the exception of
    [resp.json()], of [UnboundLocalError] for [data], or of the
    exception of the request. *)
Theorem select_template_outcome (base_url : string) (w : world) :
  let params :=
    [("jql", "project = PPT AND issuetype = Epic ORDER BY created DESC");
     ("startAt", "0"); ("maxResults", "50");
     ("fields", "summary,description,status,assignee,customfield_10015")] in
  let w' := snd (select_template base_url w) in
  exists epics shown,
    fst (select_template base_url w) = Ok epics
    /\ screen w' = screen w ++ shown
    /\ (exists ev, events w' = events w ++ [ev]
                   /\ ev_call ev = RequestsGet (search_url base_url) params)
    /\ match requests_get (events w) (search_url base_url) params with
       | Ok resp =>
           if status_code resp =? 200 then
             match json resp with
             | Ok body =>
                 epics = default [] (body_issues body)
                 /\ shown = match epics with
                            | [] => [st_info "Aucun EPIC trouvé pour ce JQL."]
                            | _ => []
                            end
             | Raise e =>
                 epics = []
                 /\ shown = [st_error ("Erreur en récupérant les Epics : "
                                       +:+ str_exn e)]
             end
           else
             epics = []
             /\ shown = [st_error ("Erreur en récupérant les Epics : "
                                   +:+ str_exn (UnboundLocalError "data"))]
       | Raise e =>
           epics = []
           /\ shown = [st_error ("Erreur en récupérant les Epics : " +:+ str_exn e)]
       end.
Proof.
  intros params w'. subst w'. rewrite select_template_search.
  unfold get_jql_template_epic. fold params.
  destruct (search_issues_exact base_url params w) as (w1 & Hrun & Hev & Hsc).
  rewrite Hrun. unfold search_result.
  destruct (requests_get (events w) (search_url base_url) params) as [resp|e].
  - destruct (status_code resp =? 200).
    + destruct (json resp) as [body|e].
      * destruct (default [] (body_issues body)) as [|i l] eqn:Hd; simpl.
        -- eexists _, _. split; [reflexivity|]. split; [rewrite Hsc; reflexivity|].
           split; [eauto|]. auto.
        -- exists (i :: l), []. split; [reflexivity|].
           split; [now rewrite app_nil_r|]. split; [eauto|]. auto.
      * simpl. eexists _, _. split; [reflexivity|].
        split; [rewrite Hsc; reflexivity|]. split; [eauto|]. auto.
    + simpl. eexists _, _. split; [reflexivity|].
      split; [rewrite Hsc; reflexivity|]. split; [eauto|]. auto.
  - simpl. eexists _, _. split; [reflexivity|].
    split; [rewrite Hsc; reflexivity|]. split; [eauto|]. auto.
Qed.

End Helpers.

(** A list that the server has put in order. *)
Lemma ordre_child_issues_sorted_input_witness :
  @ordre_child_issues Sample.iso [Sample.child_b; Sample.child_bug; Sample.child_a]
  = Ok [Sample.child_b; Sample.child_bug; Sample.child_a].
Proof.
  apply (@ordre_child_issues_sorted_input Sample.iso).
  - reflexivity.
  - apply SSorted_cons;
      [apply SSorted_cons; [apply SSorted_cons; [apply SSorted_nil|]|]|].
    + apply Forall_nil_2.
    + apply Forall_cons. split; [vm_compute; discriminate|apply Forall_nil_2].
    + apply Forall_cons. split; [vm_compute; discriminate|].
      apply Forall_cons. split; [vm_compute; discriminate|apply Forall_nil_2].
Defined.

(** X17 at work: the sample children, whose start dates are plain
    dates. *)
Lemma ordre_child_issues_ascending_stable_witness :
  let issues := [Sample.child_a; Sample.child_b; Sample.child_bug] in
  exists children,
    @ordre_child_issues Sample.iso issues = Ok children
    /\ Permutation issues children
    /\ StronglySorted (key_le (fun i => instant (@get_start_date Sample.iso i))) children
    /\ (forall i dt,
          @start_date_parsed Sample.iso i dt None ->
          @get_start_date Sample.iso i = Naive dt)
    /\ (forall i,
          @no_start_date Sample.iso i -> @get_start_date Sample.iso i = Naive datetime_max)
    /\ (forall before i after,
          children = before ++ i :: after ->
          @no_start_date Sample.iso i ->
          Forall (fun j => datetime_max <= instant (@get_start_date Sample.iso j)) after)
    /\ (forall k,
          filter (fun i => instant (@get_start_date Sample.iso i) = k) children
          = filter (fun i => instant (@get_start_date Sample.iso i) = k) issues).
Proof.
  intros issues.
  apply (@ordre_child_issues_ascending_stable Sample.iso issues).
  reflexivity.
Defined.

(** C6 at work: [K-1] starts at a time given in UTC, [K-2] has no
    start date. *)
Lemma ordre_child_issues_raises_on_mixed_keys_witness :
  let child (k : string) (start : option string) :=
    {| key := k; fields := Sample.dated k "Task" start None [] |} in
  @ordre_child_issues Sample.iso
    [child "K-1" (Some "2024-01-10T09:00:00+00:00"); child "K-2" None]
  = Raise (TypeError "can't compare offset-naive and offset-aware datetimes").
Proof.
  intros child.
  refine (proj2 (proj2 (@ordre_child_issues_raises_on_mixed_keys Sample.iso
                          [child "K-1" (Some "2024-01-10T09:00:00+00:00");
                           child "K-2" None]
                          (child "K-1" (Some "2024-01-10T09:00:00+00:00"))
                          (child "K-2" None)
                          (midnight 738895 + 32400000000) 0 _ _ _ _))).
  - left. reflexivity.
  - right. left. reflexivity.
  - split; [reflexivity|]. split; reflexivity.
  - left. left. reflexivity.
Defined.

(** The same with the letter Z, and with a plain date in place of the
    missing one; without the offset the two children are put in order. *)
Example ordre_child_issues_with_offsets :
  let child (k : string) (start : option string) :=
    {| key := k; fields := Sample.dated k "Task" start None [] |} in
  @ordre_child_issues Sample.iso
    [child "K-1" (Some "2024-01-10T09:00:00Z"); child "K-2" (Some "2024-01-05")]
  = Raise (TypeError "can't compare offset-naive and offset-aware datetimes")
  /\ @ordre_child_issues Sample.iso
       [child "K-1" (Some "2024-01-10T09:00:00"); child "K-2" (Some "2024-01-05")]
     = Ok [child "K-2" (Some "2024-01-05"); child "K-1" (Some "2024-01-10T09:00:00")]
  /\ @ordre_child_issues Sample.iso
       [child "K-1" (Some "2024-01-10T09:00:00Z");
        child "K-2" (Some "2024-01-10T09:30:00+01:00")]
     = Ok [child "K-2" (Some "2024-01-10T09:30:00+01:00");
           child "K-1" (Some "2024-01-10T09:00:00Z")].
Proof. vm_compute. repeat split. Qed.

(** ** The rendering of a description: [adf_to_markdown] (lines 238-265) *)

(** A node of an Atlassian document: the entries [type], [text] and
    [content] of the dictionary, [None] for a missing [type] or [text]
    and the empty list for a missing [content]. *)
#[warnings="-register-all"]
Inductive adf : Type :=
| AdfNode (type : option string) (text : option string) (content : list adf).

Definition adf_type (n : adf) : option string :=
  match n with AdfNode type _ _ => type end.

Definition adf_text (n : adf) : option string :=
  match n with AdfNode _ text _ => text end.

Definition adf_content (n : adf) : list adf :=
  match n with AdfNode _ _ content => content end.

(** The exception of [c['text']] on a dictionary without that key. *)
Inductive key_error : Type := KeyError (key : string).

(** [str.strip], whose set of blank characters is not modelled. *)
Class StrLibrary : Type := {
  strip : string -> string
}.

Definition newline : string := String "010" EmptyString.

(** [n.get("type") == t]. *)
Definition has_type (n : adf) (t : string) : bool :=
  match adf_type n with
  | Some s => String.eqb s t
  | None => false
  end.

(** A loop that extends [md] and stops at the first [KeyError]. *)
Fixpoint for_md {A} (l : list A) (md : string)
    (body : string -> A -> key_error + string) : key_error + string :=
  match l with
  | [] => inr md
  | x :: l' =>
      match body md x with
      | inl e => inl e
      | inr md' => for_md l' md' body
      end
  end.

(** Lines 250-253: the line of a paragraph; a text node without [text]
    adds nothing. *)
Definition paragraph_line (content : list adf) : string :=
  fold_left
    (fun line c => if has_type c "text" then line +:+ default EmptyString (adf_text c)
                   else line)
    content EmptyString.

(** Lines 260-262: one inline node of a list item. *)
Definition bullet_text (md : string) (c : adf) : key_error + string :=
  if has_type c "text" then
    match adf_text c with
    | Some t => inr (md +:+ "- " +:+ t +:+ newline)
    | None => inl (KeyError "text")
    end
  else inr md.

(** Lines 246-263: one block of the document. *)
Definition adf_block (md : string) (block : adf) : key_error + string :=
  if has_type block "paragraph" then
    inr (md +:+ paragraph_line (adf_content block) +:+ newline +:+ newline)
  else if has_type block "bulletList" then
    match
      for_md (adf_content block) md
        (fun md item =>
           for_md (adf_content item) md
             (fun md p => for_md (adf_content p) md bullet_text))
    with
    | inl e => inl e
    | inr md' => inr (md' +:+ newline)
    end
  else inr md.

(** [adf_to_markdown]; the argument [None] stands for a falsy document,
    [None] itself or an empty dictionary. *)
Definition adf_to_markdown `{!StrLibrary} (doc : option adf) : key_error + string :=
  match doc with
  | None => inr EmptyString
  | Some d =>
      match for_md (adf_content d) EmptyString adf_block with
      | inl e => inl e
      | inr md => inr (strip md)
      end
  end.

Section Adf.
Context `{!StrLibrary}.

(** A text node of a list that has no [text]. *)
Definition textless (c : adf) : Prop := has_type c "text" = true /\ adf_text c = None.

(** A bullet list with a text node without [text] in one of its items. *)
Definition broken_list (block : adf) : Prop :=
  has_type block "paragraph" = false
  /\ has_type block "bulletList" = true
  /\ Exists (fun item => Exists (fun p => Exists textless (adf_content p))
                           (adf_content item))
       (adf_content block).

Definition raises (r : key_error + string) : Prop :=
  match r with inl _ => True | inr _ => False end.

Lemma for_md_raises {A} (body : string -> A -> key_error + string) (Q : A -> Prop) :
  (forall md x, raises (body md x) <-> Q x) ->
  forall l md, raises (for_md l md body) <-> Exists Q l.
Proof.
  intros Hbody. induction l as [|x l IH]; intros md; simpl.
  - rewrite Exists_nil. tauto.
  - rewrite Exists_cons, <- (Hbody md x).
    destruct (body md x) as [e|md'] eqn:Hb; simpl; [tauto|].
    rewrite IH. tauto.
Qed.

Lemma for_md_error {A} (body : string -> A -> key_error + string) (err : key_error) :
  (forall md x e, body md x = inl e -> e = err) ->
  forall l md e, for_md l md body = inl e -> e = err.
Proof.
  intros Hbody. induction l as [|x l IH]; intros md e; simpl; [discriminate|].
  destruct (body md x) as [e'|md'] eqn:Hb; [|apply IH].
  intros Heq. inversion Heq; subst. eauto.
Qed.

Lemma bullet_text_raises md c : raises (bullet_text md c) <-> textless c.
Proof.
  unfold bullet_text, textless.
  destruct (has_type c "text"), (adf_text c); simpl; intuition congruence.
Qed.

Lemma bullet_text_error md c e : bullet_text md c = inl e -> e = KeyError "text".
Proof.
  unfold bullet_text. destruct (has_type c "text"), (adf_text c); congruence.
Qed.

Lemma adf_block_raises md block : raises (adf_block md block) <-> broken_list block.
Proof.
  unfold adf_block, broken_list.
  destruct (has_type block "paragraph"); simpl; [intuition congruence|].
  destruct (has_type block "bulletList"); simpl; [|intuition congruence].
  match goal with
  | |- raises match ?r with _ => _ end <-> _ =>
      assert (Hr : raises r <->
                   Exists (fun item => Exists (fun p => Exists textless (adf_content p))
                                         (adf_content item)) (adf_content block));
      [|destruct r; simpl in *; intuition]
  end.
  apply for_md_raises. intros md1 item.
  apply for_md_raises. intros md2 p.
  apply for_md_raises. intros md3 c. apply bullet_text_raises.
Qed.

Lemma adf_block_error md block e : adf_block md block = inl e -> e = KeyError "text".
Proof.
  unfold adf_block.
  destruct (has_type block "paragraph"); [discriminate|].
  destruct (has_type block "bulletList"); [|discriminate].
  match goal with
  | |- match ?r with _ => _ end = _ -> _ => destruct r as [e'|md'] eqn:Hr; [|discriminate]
  end.
  intros Heq. inversion Heq; subst e'.
  revert Hr. apply for_md_error. intros md1 item e1.
  apply for_md_error. intros md2 p e2.
  apply for_md_error. intros md3 c e3. apply bullet_text_error.
Qed.

(** X10.  [adf_to_markdown] raises exactly when some bullet list of
    the document holds, in one of the paragraphs of one of its items, a
    text node without [text]; the exception is then [KeyError] for
    [text].  Paragraph blocks never raise: there a text node without
    [text] counts as empty. *)
Theorem adf_to_markdown_raises (d : adf) :
  (raises (adf_to_markdown (Some d)) <-> Exists broken_list (adf_content d))
  /\ (forall e, adf_to_markdown (Some d) = inl e -> e = KeyError "text")
  /\ (forall md text content,
        adf_block md (AdfNode (Some "paragraph") text content)
        = inr (md +:+ paragraph_line content +:+ newline +:+ newline)).
Proof.
  split; [|split].
  - unfold adf_to_markdown.
    rewrite <- (for_md_raises adf_block broken_list adf_block_raises
                  (adf_content d) EmptyString).
    destruct (for_md (adf_content d) EmptyString adf_block); simpl; tauto.
  - unfold adf_to_markdown. intros e.
    destruct (for_md (adf_content d) EmptyString adf_block) as [e'|md] eqn:Hr;
      [|discriminate].
    intros Heq. inversion Heq; subst e'.
    revert Hr. apply for_md_error. apply adf_block_error.
  - reflexivity.
Qed.

(** The blocks that [adf_to_markdown] renders. *)
Definition rendered_block (block : adf) : Prop :=
  has_type block "paragraph" = true \/ has_type block "bulletList" = true.

Global Instance rendered_block_dec block : Decision (rendered_block block).
Proof. unfold rendered_block. apply _. Defined.

Lemma for_md_skip {A} (body : string -> A -> key_error + string) (P : A -> Prop)
    `{!forall x, Decision (P x)} :
  (forall md x, ~ P x -> body md x = inr md) ->
  forall l md, for_md (filter P l) md body = for_md l md body.
Proof.
  intros Hskip. induction l as [|x l IH]; intros md; [reflexivity|].
  rewrite filter_cons. destruct (decide (P x)) as [Hp|Hn]; simpl.
  - destruct (body md x); [reflexivity|apply IH].
  - rewrite (Hskip md x Hn). apply IH.
Qed.

Lemma paragraph_line_from (content : list adf) (line : string) :
  fold_left
    (fun line c => if has_type c "text" then line +:+ default EmptyString (adf_text c)
                   else line)
    (filter (fun c => has_type c "text" = true) content) line
  = fold_left
      (fun line c => if has_type c "text" then line +:+ default EmptyString (adf_text c)
                     else line)
      content line.
Proof.
  revert line. induction content as [|c content IH]; intros line; [reflexivity|].
  rewrite filter_cons. destruct (decide (has_type c "text" = true)) as [Ht|Hn]; simpl.
  - apply IH.
  - destruct (has_type c "text"); [congruence|]. apply IH.
Qed.

(** X11.  Blocks of any type other than [paragraph] and [bulletList]
    leave no trace: the rendering of a document is the rendering of the
    document without them.  In the same way the line of a paragraph is
    made of its text nodes only. *)
Theorem adf_to_markdown_ignores_unknown (type text : option string) (blocks : list adf) :
  adf_to_markdown (Some (AdfNode type text (filter rendered_block blocks)))
  = adf_to_markdown (Some (AdfNode type text blocks))
  /\ (forall content,
        paragraph_line (filter (fun c => has_type c "text" = true) content)
        = paragraph_line content).
Proof.
  split.
  - unfold adf_to_markdown. simpl.
    rewrite (for_md_skip adf_block rendered_block); [reflexivity|].
    intros md block Hn. unfold rendered_block in Hn. unfold adf_block.
    destruct (has_type block "paragraph"); [tauto|].
    destruct (has_type block "bulletList"); [tauto|reflexivity].
  - intros content. apply paragraph_line_from.
Qed.

End Adf.

(** ** The further properties at work on the sample template *)

(** X2 at work: the run of the sample template with its two children. *)
Lemma successful_run_is_complete_witness :
  let R := Sample.scripted Sample.epic (Sample.found [Sample.child_a; Sample.child_b])
             Sample.task_types (fun _ => true) in
  let w := Sample.start_world in
  let w' := snd (@migrate_body Sample.iso R Sample.base_url "PPT-1" "DST"
                   Sample.new_start_date w) in
  exists epic epic_start_dt payload new_epic_key children cevs new_keys levs,
    let iev := @fetch_event R "PPT-1" (events w) in
    let eev := @create_event R (events w ++ [iev]) payload in
    let sev := @search_event R Sample.base_url "PPT-1" (events w ++ [iev; eev]) in
    events w' = events w ++ iev :: eev :: sev :: cevs ++ levs
    /\ Forall ev_ok (iev :: eev :: sev :: cevs ++ levs)
    /\ @jira_issue R (events w) "PPT-1" = Ok epic
    /\ @new_epic_payload Sample.iso "DST" Sample.new_start_date epic
       = Ok (epic_start_dt, payload)
    /\ @jira_create_issue R (events w ++ [iev]) payload = Ok new_epic_key
    /\ @children_of_answer Sample.iso
         (@search_answer R Sample.base_url "PPT-1" (events w ++ [iev; eev]))
       = Ok children
    /\ @children_calls Sample.iso R "DST" Sample.new_start_date new_epic_key epic_start_dt
         (events w ++ [iev; eev; sev]) children cevs (Ok new_keys)
    /\ Forall2 (@creates_child Sample.iso "DST" new_epic_key epic_start_dt
                  Sample.new_start_date)
         children (writes cevs)
    /\ length new_keys = length children
    /\ map ev_call levs = planned_links (key_maps_of children new_keys).
Proof.
  intros R w w'.
  apply (@successful_run_is_complete Sample.iso R Sample.base_url "PPT-1" "DST"
           Sample.new_start_date w w').
  vm_compute. reflexivity.
Defined.

(** X3 at work: the Epic without dates. *)
Lemma epic_without_dates_aborts_witness :
  let R := Sample.scripted Sample.undated_epic
             (Sample.found [Sample.child_a; Sample.child_b])
             Sample.task_types (fun _ => true) in
  @migrate_template Sample.iso R Sample.base_url "PPT-1" "DST"
    Sample.new_start_date Sample.start_world
  = (Ok tt,
     {| events := [{| ev_call := JiraIssue "PPT-1"; ev_raised := None |}];
        screen := [st_write "📌 Migration under process...";
                   st_error ("Error while migrating : " +:+ date_plus_int_message)];
        console := [] |}).
Proof.
  intros R.
  apply (@epic_without_dates_aborts Sample.iso R Sample.base_url "PPT-1" "DST"
           Sample.new_start_date Sample.start_world Sample.undated_epic).
  - reflexivity.
  - left. reflexivity.
Defined.

(** X4 at work: the sample Epic alone. *)
Lemma run_without_children_witness :
  let R := Sample.scripted Sample.epic (Sample.found []) Sample.task_types
             (fun _ => true) in
  let payload :=
    {| cf_project := "DST"; cf_summary := Some "Template"; cf_description := None;
       cf_issuetype := ByName "Epic"; cf_customfield_10014 := None;
       cf_customfield_10015 := Some "2024-06-01"; cf_duedate := Some "2024-06-22" |} in
  @migrate_template Sample.iso R Sample.base_url "PPT-1" "DST"
    Sample.new_start_date Sample.start_world
  = (Ok tt,
     {| events := [{| ev_call := JiraIssue "PPT-1"; ev_raised := None |};
                   {| ev_call := JiraCreateIssue payload; ev_raised := None |};
                   {| ev_call := RequestsGet (search_url Sample.base_url)
                                   (children_params "PPT-1");
                      ev_raised := None |}];
        screen := [st_write "📌 Migration under process...";
                   st_success ("New EPIC created : " +:+ "DST-1");
                   st_success "Successful migration!"];
        console := [] |}).
Proof.
  intros R payload.
  apply (@run_without_children Sample.iso R Sample.base_url "PPT-1" "DST"
           Sample.new_start_date Sample.start_world Sample.epic
           (Some (Datetime.midnight 738895), PyTimedelta (21 * Datetime.us_per_day))
           payload "DST-1" (Sample.found []) {| body_issues := Some [] |}).
  - reflexivity.
  - vm_compute. reflexivity.
  - vm_compute. reflexivity.
  - vm_compute. reflexivity.
  - reflexivity.
  - reflexivity.
  - reflexivity.
  - reflexivity.
Defined.

(** The dictionaries that the loop builds for the two sample children. *)
Definition sample_maps : key_maps :=
  {| child_links_map :=
       [("PPT-3", original_links (issuelinks (fields Sample.child_b)));
        ("PPT-2", original_links (issuelinks (fields Sample.child_a)))];
     old_to_new_keys := <["PPT-2" := "DST-2"]> (<["PPT-3" := "DST-1"]> ∅) |}.

(** X5 at work: the loop over the two sample children. *)
Lemma migrate_children_maps_witness :
  let children := [Sample.child_b; Sample.child_a] in
  (forall k, is_Some (old_to_new_keys sample_maps !! k) <-> In k (map key children))
  /\ NoDup (map fst (child_links_map sample_maps))
  /\ (forall k, In k (map fst (child_links_map sample_maps)) <-> In k (map key children))
  /\ (forall k links,
        In (k, links) (child_links_map sample_maps) ->
        exists ch, In ch children /\ key ch = k
                   /\ links = original_links (issuelinks (fields ch))).
Proof.
  intros children.
  apply (@migrate_children_maps Sample.iso
           (Sample.scripted Sample.epic (Sample.found children) Sample.task_types
              (fun _ => true))
           "DST" "DST-0" (Some (Datetime.midnight 738895)) Sample.new_start_date
           children Sample.start_world
           (snd (@migrate_children Sample.iso
                   (Sample.scripted Sample.epic (Sample.found children)
                      Sample.task_types (fun _ => true))
                   "DST" "DST-0" (Some (Datetime.midnight 738895)) Sample.new_start_date
                   children Sample.start_world))
           sample_maps).
  vm_compute. reflexivity.
Defined.

(** X6 at work: the link calls for the two sample children; the link of
    [PPT-2] to [OTHER-9] gives no call. *)
Lemma links_join_children_witness :
  let children := [Sample.child_b; Sample.child_a] in
  let R := Sample.scripted Sample.epic (Sample.found children) Sample.task_types
             (fun _ => true) in
  exists evs,
    events (snd (@recreate_links R sample_maps Sample.start_world))
    = events Sample.start_world ++ evs
    /\ forall ev,
         In ev evs ->
         exists ch far link new_key far_new_key,
           In ch children /\ In far children
           /\ In link (original_links (issuelinks (fields ch)))
           /\ lr_key link = key far
           /\ old_to_new_keys sample_maps !! key ch = Some new_key
           /\ old_to_new_keys sample_maps !! key far = Some far_new_key
           /\ links_from_to (ev_call ev) (lr_type link) (lr_direction link)
                new_key far_new_key.
Proof.
  intros children R.
  apply (@links_join_children Sample.iso R "DST" "DST-0"
           (Some (Datetime.midnight 738895)) Sample.new_start_date
           children Sample.start_world
           (snd (@migrate_children Sample.iso R "DST" "DST-0"
                   (Some (Datetime.midnight 738895)) Sample.new_start_date
                   children Sample.start_world))
           Sample.start_world sample_maps).
  vm_compute. reflexivity.
Defined.

(** * The chart of the template: [Show process issues] (lines 401-541)

    The handler computes the rows of [gantt_data] and hands them to the
    plot.  The values of [Start] and [Finish] are modelled with their
    Python types, since [new_start_date] is a date and a parsed field a
    datetime; the drawing itself is outside the model. *)

Module Chart.

(** A value of [epic_start_gantt] or [epic_due_gantt]. *)
Inductive pydate : Type :=
| PyDate (d : date)
| PyDatetime (dt : datetime).

(** [datetime.min]. *)
Definition datetime_min : datetime := midnight min_ordinal.

(** [dt + td] on a naive datetime. *)
Definition datetime_add (dt : datetime) (td : timedelta) : result datetime :=
  let r := dt + td in
  if (datetime_min <=? r) && (r <=? datetime_max) then Ok r
  else Raise (OverflowError "date value out of range").

(** [v + td]. *)
Definition pydate_add (v : pydate) (td : timedelta) : result pydate :=
  match v with
  | PyDate d => let? r := date_add d td in Ok (PyDate r)
  | PyDatetime dt => let? r := datetime_add dt td in Ok (PyDatetime r)
  end.

(** [a - b]: a date and a datetime do not subtract. *)
Definition pydate_sub (a b : pydate) : result timedelta :=
  match a, b with
  | PyDate x, PyDate y => Ok (date_sub x y)
  | PyDatetime x, PyDatetime y => Ok (datetime_sub x y)
  | PyDatetime _, PyDate _ =>
      Raise (TypeError
               "unsupported operand type(s) for -: 'datetime.datetime' and 'datetime.date'")
  | PyDate _, PyDatetime _ =>
      Raise (TypeError
               "unsupported operand type(s) for -: 'datetime.date' and 'datetime.datetime'")
  end.

(** A dictionary of [gantt_data]; only the rows of the children have
    the entry [Epic]. *)
Record gantt_row : Type := {
  Task : string;
  Start : pydate;
  Finish : pydate;
  Duration : option Z;
  Type_ : string;
  Epic : option (option string)
}.

(** [str(dt)] of a datetime, whose text is not modelled. *)
Class DatetimeText : Type := {
  datetime_str : datetime -> string
}.

Section Bars.
Context `{!DateLibrary} `{!Repository} `{!DatetimeText}.

(** [to_datetime_safe] (lines 267-276) with what it prints; [value] is a
    string of the Epic. *)
Definition to_datetime_safe (value : option string) : M (option datetime) :=
  if truthy value then
    match parse_iso (str value) with
    | Ok dt => print (datetime_str dt) >> ret (Some dt)
    | Raise e =>
        print ("Impossible de convertir '" +:+ str value +:+ "' (<class 'str'>): "
               +:+ str_exn e) >>
        ret None
    end
  else ret None.

(** Lines 421-461: the dates of the Epic; the result is [delta_epic] and
    [gantt_data], which holds the row of the Epic when the Epic has its
    two dates. *)
Definition epic_bar (selected_epic : string) (selected_summary : option string)
    (new_start_date : date) (epic_fields : issue_fields)
  : M (timedelta * list gantt_row) :=
  let epic_start_orig := customfield_10015 epic_fields in
  let epic_due_orig := duedate epic_fields in
  let* epic_start_dt :=
    (if truthy epic_start_orig then to_datetime_safe epic_start_orig else ret None) in
  let* epic_due_dt :=
    (if truthy epic_due_orig then to_datetime_safe epic_due_orig else ret None) in
  let delta := delta_epic epic_start_dt new_start_date in
  let* epic_start_gantt :=
    lift (match epic_start_dt with
          | Some dt => pydate_add (PyDatetime dt) delta
          | None => Ok (PyDate new_start_date)
          end) in
  let* epic_due_gantt :=
    lift (match epic_due_dt with
          | Some dt => pydate_add (PyDatetime dt) delta
          | None => pydate_add epic_start_gantt (timedelta_of_days 7)
          end) in
  if truthy epic_start_orig && truthy epic_due_orig then
    let* td := lift (pydate_sub epic_due_gantt epic_start_gantt) in
    ret (delta,
         [{| Task := selected_epic +:+ " — " +:+ str selected_summary;
             Start := epic_start_gantt;
             Finish := epic_due_gantt;
             Duration := Some (days td);
             Type_ := "Epic";
             Epic := None |}])
  else ret (delta, []).

(** Lines 464-505: the body of the loop over the children.  [None] as
    [summary] or [issuetype] is a missing entry; [start] and [end] are
    datetimes, so that their difference does not raise. *)
Definition child_bar (selected_summary : option string) (delta : timedelta)
    (gantt_data : list gantt_row) (ch : issue) : result (list gantt_row) :=
  let f := fields ch in
  let start_orig := customfield_10015 f in
  let due_orig := duedate f in
  let? start_gantt :=
    (if truthy start_orig then
       let? start_dt := parse_iso (replace_Z (str start_orig)) in
       let? g := datetime_add start_dt delta in
       Ok (Some g)
     else Ok None) in
  let? due_gantt :=
    (if truthy start_orig && truthy due_orig then
       let? due_dt := parse_iso (replace_Z (str due_orig)) in
       let? g := datetime_add due_dt delta in
       Ok (Some g)
     else Ok None) in
  let summary := default "—" (summary f) in
  let issue_type := default "—" (issuetype f) in
  match start_gantt, due_gantt with
  | Some start, Some end_ =>
      Ok (gantt_data
          ++ [{| Task := key ch +:+ " — " +:+ summary;
                 Start := PyDatetime start;
                 Finish := PyDatetime end_;
                 Duration := Some (days (datetime_sub end_ start));
                 Type_ := issue_type;
                 Epic := Some selected_summary |}])
  | _, _ => Ok gantt_data
  end.

(** The handler of the button: the rows handed to the plot, [None] when
    nothing is drawn. *)
Definition show_process_issues (base_url selected_epic : string)
    (selected_summary : option string) (new_start_date : date)
  : M (option (list gantt_row)) :=
  try_except
    (let* child_issues := get_child_issues_for_epic base_url selected_epic 200 in
     match child_issues with
     | [] =>
         show (st_info ("No issue found for : " +:+ selected_epic +:+ ".")) >> ret None
     | _ =>
         let* epic_issue :=
           perform (JiraIssue selected_epic) (fun h => jira_issue h selected_epic) in
         let* bar :=
           epic_bar selected_epic selected_summary new_start_date (fields epic_issue) in
         let* gantt_data :=
           for_fold child_issues (snd bar)
             (fun rows ch => lift (child_bar selected_summary (fst bar) rows ch)) in
         match gantt_data with
         | [] => show (st_info "No tasks has Start Date + Due Date.") >> ret None
         | _ => ret (Some gantt_data)
         end
     end)
    (fun e => show (st_error ("Error why gathering epic : " +:+ str_exn e)) >> ret None).

End Bars.

(** [str(dt)] for the sample runs: the ISO date, a space and the time. *)
Definition sample_text : DatetimeText :=
  {| datetime_str := fun dt =>
       let t := dt mod us_per_day in
       Iso.strftime (date_of dt) +:+ " "
       +:+ Iso.zero_padded 2 (t / 3600000000) +:+ ":"
       +:+ Iso.zero_padded 2 (t / 60000000 mod 60) +:+ ":"
       +:+ Iso.zero_padded 2 (t / 1000000 mod 60)
       +:+ (if t mod 1000000 =? 0 then EmptyString
            else "." +:+ Iso.zero_padded 6 (t mod 1000000)) |}.

End Chart.

(** The chart of the sample template for a start on 2024-06-01: the bar
    of the Epic and the bar of [PPT-3]; [PPT-2] has no due date. *)
Example sample_chart :
  let R := Sample.scripted Sample.epic (Sample.found [Sample.child_a; Sample.child_b])
             Sample.task_types (fun _ => true) in
  let run := @Chart.show_process_issues Sample.iso R Chart.sample_text Sample.base_url
               "PPT-1" (Some "Template") Sample.new_start_date Sample.start_world in
  fst run
  = Ok (Some [{| Chart.Task := "PPT-1 — Template";
                 Chart.Start := Chart.PyDatetime (midnight 739038);
                 Chart.Finish := Chart.PyDatetime (midnight 739059);
                 Chart.Duration := Some 21;
                 Chart.Type_ := "Epic";
                 Chart.Epic := None |};
              {| Chart.Task := "PPT-3 — Step B";
                 Chart.Start := Chart.PyDatetime (midnight 739040);
                 Chart.Finish := Chart.PyDatetime (midnight 739048);
                 Chart.Duration := Some 8;
                 Chart.Type_ := "Task";
                 Chart.Epic := Some (Some "Template") |}])
  /\ screen (snd run) = []
  /\ skipn 2 (console (snd run)) = ["2024-01-10 00:00:00"; "2024-01-31 00:00:00"].
Proof. vm_compute. repeat split; reflexivity. Qed.

(** ** What the chart shows *)

(** A child with a start date and a due date. *)
Definition has_both_dates (i : issue) : bool :=
  truthy (customfield_10015 (fields i)) && truthy (duedate (fields i)).

Section ChartFacts.
Context `{!DateLibrary} `{!Repository} `{!Chart.DatetimeText}.






Lemma chart_to_datetime_safe value w :
  exists w1,
    Chart.to_datetime_safe value w = (Ok (to_datetime_safe value), w1)
    /\ events w1 = events w /\ screen w1 = screen w.
Proof.
  unfold Chart.to_datetime_safe, to_datetime_safe, parse_iso.
  destruct (truthy value); [|eexists; split; [reflexivity|auto]].
  destruct (fromisoformat (str value)); eexists; (split; [reflexivity|auto]).
Qed.

(** The dates of the Epic, as the chart reads them. *)
Lemma epic_dates_read (v : option string) w :
  exists w1,
    (if truthy v then Chart.to_datetime_safe v else ret None) w
    = (Ok (to_datetime_safe v), w1)
    /\ events w1 = events w /\ screen w1 = screen w.
Proof.
  destruct (truthy v) eqn:Hv; [apply chart_to_datetime_safe|].
  exists w. unfold to_datetime_safe. rewrite Hv. auto.
Qed.

(** What [epic_bar] computes from the two parsed dates. *)
Definition epic_bar_value (selected_epic : string) (selected_summary : option string)
    (new_start_date : date) (epic_fields : issue_fields)
  : result (timedelta * list Chart.gantt_row) :=
  let epic_start_dt := to_datetime_safe (customfield_10015 epic_fields) in
  let epic_due_dt := to_datetime_safe (duedate epic_fields) in
  let delta := delta_epic epic_start_dt new_start_date in
  let? epic_start_gantt :=
    match epic_start_dt with
    | Some dt => Chart.pydate_add (Chart.PyDatetime dt) delta
    | None => Ok (Chart.PyDate new_start_date)
    end in
  let? epic_due_gantt :=
    match epic_due_dt with
    | Some dt => Chart.pydate_add (Chart.PyDatetime dt) delta
    | None => Chart.pydate_add epic_start_gantt (timedelta_of_days 7)
    end in
  if has_both_dates {| key := selected_epic; fields := epic_fields |} then
    let? td := Chart.pydate_sub epic_due_gantt epic_start_gantt in
    Ok (delta,
        [{| Chart.Task := selected_epic +:+ " — " +:+ str selected_summary;
            Chart.Start := epic_start_gantt;
            Chart.Finish := epic_due_gantt;
            Chart.Duration := Some (days td);
            Chart.Type_ := "Epic";
            Chart.Epic := None |}])
  else Ok (delta, []).

Lemma epic_bar_run selected_epic selected_summary new_start_date epic_fields w :
  exists w1,
    Chart.epic_bar selected_epic selected_summary new_start_date epic_fields w
    = (epic_bar_value selected_epic selected_summary new_start_date epic_fields, w1)
    /\ events w1 = events w /\ screen w1 = screen w.
Proof.
  unfold Chart.epic_bar, epic_bar_value, has_both_dates. simpl.
  destruct (epic_dates_read (customfield_10015 epic_fields) w) as (w1 & Hs & He1 & Hs1).
  destruct (epic_dates_read (duedate epic_fields) w1) as (w2 & Hd & He2 & Hs2).
  exists w2. split; [|split; congruence].
  rewrite (bind_ok _ _ _ _ _ Hs). rewrite (bind_ok _ _ _ _ _ Hd).
  unfold bind, lift, ret.
  destruct (match to_datetime_safe (customfield_10015 epic_fields) with
            | Some dt => _ | None => _ end) as [sg|e]; simpl; [|reflexivity].
  destruct (match to_datetime_safe (duedate epic_fields) with
            | Some dt => _ | None => _ end) as [dg|e]; simpl; [|reflexivity].
  destruct (truthy (customfield_10015 epic_fields) && truthy (duedate epic_fields));
    [|reflexivity].
  destruct (Chart.pydate_sub dg sg); reflexivity.
Qed.


Variables (base_url selected_epic : string) (selected_summary : option string).
Variable new_start_date : date.


End ChartFacts.

Section ChartDates.
Context `{!DateLibrary} `{!Repository} `{!Chart.DatetimeText}.
Variables (base_url selected_epic : string) (selected_summary : option string).
Variable new_start_date : date.

Lemma to_datetime_safe_truthy v dt : to_datetime_safe v = Some dt -> truthy v = true.
Proof. unfold to_datetime_safe. destruct (truthy v); [reflexivity|discriminate]. Qed.


(** The message of the [TypeError] of a datetime minus a date. *)
Definition datetime_minus_date_message : string :=
  "unsupported operand type(s) for -: 'datetime.datetime' and 'datetime.date'".

(** X14.  [to_datetime_safe] does not make the chart safe: when the
    start date of the Epic is there and does not parse while its due
    date parses, [epic_start_gantt] is the date chosen, [epic_due_gantt]
    a datetime, and their difference raises.  The handler then draws
    nothing and shows that error. *)
Theorem unparsable_epic_start_breaks_chart (w w1 : world) (ch : issue)
    (rest : list issue) (epic : issue) (d : datetime) :
  get_child_issues_for_epic base_url selected_epic 200 w = (Ok (ch :: rest), w1) ->
  jira_issue (events w1) selected_epic = Ok epic ->
  truthy (customfield_10015 (fields epic)) = true ->
  fromisoformat (str (customfield_10015 (fields epic))) = None ->
  to_datetime_safe (duedate (fields epic)) = Some d ->
  Chart.datetime_min <= d <= datetime_max ->
  exists w',
    Chart.show_process_issues base_url selected_epic selected_summary new_start_date w
    = (Ok None, w')
    /\ screen w'
       = screen w
         ++ [st_error ("Error why gathering epic : " +:+ datetime_minus_date_message)]
    /\ events w'
       = events w1 ++ [{| ev_call := JiraIssue selected_epic; ev_raised := None |}].
Proof.
  intros Hsearch Hepic Hstart Hbad Hdue Hrange.
  pose proof (get_child_issues_for_epic_screen _ _ _ _ _ _ Hsearch) as Hsc1.
  set (w2 := record_event {| ev_call := JiraIssue selected_epic; ev_raised := None |} w1).
  destruct (epic_bar_run selected_epic selected_summary new_start_date (fields epic) w2)
    as (w3 & Hbar & Hev3 & Hsc3).
  assert (Hvalue : epic_bar_value selected_epic selected_summary new_start_date
                     (fields epic)
                   = Raise (TypeError datetime_minus_date_message)).
  { unfold epic_bar_value, has_both_dates. simpl.
    rewrite (to_datetime_safe_truthy _ _ Hdue), Hstart, Hdue.
    unfold to_datetime_safe at 1 2 3. rewrite Hstart, Hbad. simpl.
    unfold Chart.datetime_add, delta_epic, timedelta_of_days.
    replace (d + 0 * us_per_day) with d by lia.
    destruct Hrange as [Hlo Hhi].
    apply Z.leb_le in Hlo. apply Z.leb_le in Hhi. rewrite Hlo, Hhi. reflexivity. }
  rewrite Hvalue in Hbar.
  eexists. split; [|split].
  - unfold Chart.show_process_issues, try_except.
    rewrite (bind_ok _ _ _ _ _ Hsearch).
    unfold bind at 1. unfold perform at 1. rewrite Hepic. fold w2.
    unfold bind at 1. rewrite Hbar.
    unfold bind, show, ret. reflexivity.
  - simpl. rewrite Hsc3. unfold w2. simpl. rewrite Hsc1. reflexivity.
  - simpl. rewrite Hev3. reflexivity.
Qed.


End ChartDates.

(** ** The properties of the chart at work on the sample template *)





(** An Epic whose start date is not an ISO date. *)
Definition sample_unparsable_epic : issue :=
  {| key := "PPT-1";
     fields := Sample.dated "Template" "Epic" (Some "10/01/2024") (Some "2024-01-31") [] |}.

(** X14 at work: the chart of a template whose Epic starts on
    [10/01/2024]. *)
Lemma unparsable_epic_start_breaks_chart_witness :
  let R := Sample.scripted sample_unparsable_epic (Sample.found [Sample.child_b])
             Sample.task_types (fun _ => true) in
  let w1 := snd (@get_child_issues_for_epic Sample.iso R Sample.base_url "PPT-1" 200
                   Sample.start_world) in
  exists w',
    @Chart.show_process_issues Sample.iso R Chart.sample_text Sample.base_url "PPT-1"
      (Some "Template") Sample.new_start_date Sample.start_world
    = (Ok None, w')
    /\ screen w'
       = screen Sample.start_world
         ++ [st_error ("Error why gathering epic : " +:+ datetime_minus_date_message)]
    /\ events w'
       = events w1 ++ [{| ev_call := JiraIssue "PPT-1"; ev_raised := None |}].
Proof.
  intros R w1.
  apply (@unparsable_epic_start_breaks_chart Sample.iso R Chart.sample_text
           Sample.base_url "PPT-1" (Some "Template") Sample.new_start_date
           Sample.start_world w1 Sample.child_b [] sample_unparsable_epic
           (midnight 738916)).
  - vm_compute. reflexivity.
  - reflexivity.
  - reflexivity.
  - vm_compute. reflexivity.
  - vm_compute. reflexivity.
  - vm_compute. split; discriminate.
Defined.


(** * The choice of the target project (lines 145-149 and 316-354) *)

(** [p.projectCategory], when the attribute is there and is not [None]:
    an object of the Jira library, with its attribute [name] if it has
    one, or a dictionary of the REST API. *)
Inductive project_category : Type :=
| CategoryResource (name : option string)
| CategoryDict (entries : gmap string string).

(** A project of [jira.projects()]. *)
Record project : Type := {
  project_key : string;
  project_name : string;
  projectCategory : option project_category
}.

(** [safe_get_projects] (lines 145-149), given what [jira.projects()]
    answers. *)
Definition safe_get_projects (answer : result (list project)) : list project :=
  match answer with
  | Ok projects => projects
  | Raise _ => []
  end.

(** Lines 323-329: [cat]; an empty dictionary is falsy. *)
Definition category_name (p : project) : option string :=
  match projectCategory p with
  | Some (CategoryResource name) => name
  | Some (CategoryDict entries) =>
      if decide (entries = ∅) then None else entries !! "name"
  | None => None
  end.

(** [cat == "Production"]. *)
Definition is_production (p : project) : bool :=
  match category_name p with
  | Some cat => String.eqb cat "Production"
  | None => false
  end.

(** [d[k]]; [None] stands for [KeyError]. *)
Fixpoint dict_get {V} (d : list (string * V)) (k : string) : option V :=
  match d with
  | [] => None
  | (k', v) :: d' => if String.eqb k' k then Some v else dict_get d' k
  end.

(** [{keyf(p): valf(p) for p in l}]. *)
Definition dict_of {A V} (keyf : A -> string) (valf : A -> V) (l : list A)
  : list (string * V) :=
  fold_left (fun d p => dict_set d (keyf p) (valf p)) l [].

(** The label of a project in the select box. *)
Definition project_label (p : project) : string :=
  project_key p +:+ " – " +:+ project_name p.

(** Where the page stands after lines 316-354. *)
Inductive page_state : Type :=
| Stopped
| NoProject
| Selected (selected_key : string).

(** Lines 316-354: the messages shown and the state of the page.
    [selectbox] is the choice of the operator among the options. *)
Definition select_project (answer : result (list project))
    (selectbox : list string -> string) : key_error + (list message * page_state) :=
  let projects := safe_get_projects answer in
  let filtered_projects := List.filter is_production projects in
  match filtered_projects with
  | [] => inr ([st_info "Aucun projet dans la catégorie Production."], Stopped)
  | _ =>
      let projects_map := dict_of project_key (fun p => p) filtered_projects in
      let project_keys := map fst projects_map in
      let project_labels := dict_of project_label project_key filtered_projects in
      match project_keys with
      | [] => inr ([st_info "Aucun projet trouvé ou pas accès."], NoProject)
      | _ =>
          let selected_label := selectbox (map fst project_labels) in
          match dict_get project_labels selected_label with
          | None => inl (KeyError selected_label)
          | Some selected_key =>
              match dict_get projects_map selected_key with
              | None => inl (KeyError selected_key)
              | Some p =>
                  inr ([st_write ("Selected Project : **" +:+ selected_key +:+ "** — "
                                  +:+ project_name p)],
                       Selected selected_key)
              end
          end
      end
  end.

Section Projects.

Lemma dict_get_In {V} (d : list (string * V)) k v : dict_get d k = Some v -> In (k, v) d.
Proof.
  induction d as [|[k0 v0] d IH]; simpl; [discriminate|].
  destruct (String.eqb_spec k0 k) as [->|Hne]; [|auto].
  intros Heq. injection Heq as ->. auto.
Qed.

Lemma dict_get_key {V} (d : list (string * V)) k :
  In k (map fst d) -> exists v, dict_get d k = Some v.
Proof.
  induction d as [|[k0 v0] d IH]; simpl; [intros []|].
  destruct (String.eqb_spec k0 k) as [->|Hne]; [eauto|].
  intros [Heq|Hin]; [contradiction|auto].
Qed.

Lemma dict_of_from {A V} (keyf : A -> string) (valf : A -> V) (l : list A) d0 :
  let d := fold_left (fun d p => dict_set d (keyf p) (valf p)) l d0 in
  (forall k, In k (map fst d) <-> In k (map fst d0) \/ In k (map keyf l))
  /\ (forall k v, In (k, v) d -> In (k, v) d0 \/ exists p, In p l /\ k = keyf p /\ v = valf p).
Proof.
  revert d0. induction l as [|p l IH]; simpl; intros d0.
  - split; [intros k; tauto|auto].
  - destruct (IH (dict_set d0 (keyf p) (valf p))) as [IHk IHv]. split.
    + intros k. rewrite IHk, dict_set_keys. split.
      * intros [[? | ->] | ?]; auto.
      * intros [? | [<- | ?]]; auto.
    + intros k v Hin. destruct (IHv _ _ Hin) as [Hin0|(q & Hq & -> & ->)].
      * apply dict_set_In in Hin0 as [[-> ->]|Hin0]; [|auto].
        right. exists p. auto.
      * right. exists q. auto.
Qed.

Lemma dict_of_keys {A V} (keyf : A -> string) (valf : A -> V) (l : list A) k :
  In k (map fst (dict_of keyf valf l)) <-> In k (map keyf l).
Proof.
  unfold dict_of. destruct (dict_of_from keyf valf l []) as [Hk _].
  rewrite Hk. simpl. tauto.
Qed.

Lemma dict_of_In {A V} (keyf : A -> string) (valf : A -> V) (l : list A) k v :
  In (k, v) (dict_of keyf valf l) -> exists p, In p l /\ k = keyf p /\ v = valf p.
Proof.
  unfold dict_of. destruct (dict_of_from keyf valf l []) as [_ Hv].
  intros Hin. destruct (Hv _ _ Hin) as [[]|?]. assumption.
Qed.

(** X16.  Whatever [jira.projects()] answers, and whichever option
    the operator picks, the choice of the target project raises no
    [KeyError] and never shows the message of line 339, whose branch
    cannot be reached.  Either no project of the answer (none at all
    when the call raised) is in the category [Production], and the page
    stops on the message of line 332; or the key selected is the key of
    a project of the answer that is in that category, with the label
    picked, and so is the project whose name is shown. *)
Theorem select_project_is_production (answer : result (list project))
    (selectbox : list string -> string) :
  (forall options, options <> [] -> In (selectbox options) options) ->
  (select_project answer selectbox
   = inr ([st_info "Aucun projet dans la catégorie Production."], Stopped)
   /\ Forall (fun p => is_production p = false) (safe_get_projects answer))
  \/ (exists p shown,
        select_project answer selectbox
        = inr ([st_write ("Selected Project : **" +:+ project_key p +:+ "** — "
                          +:+ project_name shown)],
               Selected (project_key p))
        /\ In p (safe_get_projects answer) /\ is_production p = true
        /\ project_label p
           = selectbox (map fst (dict_of project_label project_key
                                   (List.filter is_production
                                      (safe_get_projects answer))))
        /\ In shown (safe_get_projects answer) /\ is_production shown = true
        /\ project_key shown = project_key p).
Proof.
  intros Hbox. unfold select_project. cbv zeta.
  set (projects := safe_get_projects answer).
  destruct (List.filter is_production projects) as [|p0 rest] eqn:Hf.
  - left. split; [reflexivity|].
    apply List.Forall_forall. intros p Hin.
    destruct (is_production p) eqn:Hp; [|reflexivity].
    assert (Habs : In p (List.filter is_production projects))
      by (apply filter_In; auto).
    rewrite Hf in Habs. destruct Habs.
  - right. cbv iota. rewrite <- Hf.
    set (filtered := List.filter is_production projects).
    assert (Hp0 : In p0 filtered) by (unfold filtered; rewrite Hf; left; reflexivity).
    assert (Hkeys : In (project_key p0)
                      (map fst (dict_of project_key (fun p => p) filtered)))
      by (apply dict_of_keys, in_map, Hp0).
    destruct (map fst (dict_of project_key (fun p => p) filtered)) as [|k ks] eqn:Hm;
      [destruct Hkeys|].
    cbv iota. clear Hkeys Hm.
    set (labels := dict_of project_label project_key filtered).
    assert (Hopts : map fst labels <> []).
    { intros Habs.
      assert (Hin : In (project_label p0) (map fst labels))
        by (apply dict_of_keys, in_map, Hp0).
      rewrite Habs in Hin. destruct Hin. }
    pose proof (Hbox _ Hopts) as Hsel.
    destruct (dict_get_key _ _ Hsel) as (selected_key & Hget). rewrite Hget.
    apply dict_get_In, dict_of_In in Hget as (p & Hp & Hlabel & ->).
    assert (Hk : In (project_key p) (map fst (dict_of project_key (fun p => p) filtered)))
      by (apply dict_of_keys, in_map, Hp).
    destruct (dict_get_key _ _ Hk) as (shown & Hshown). rewrite Hshown.
    apply dict_get_In, dict_of_In in Hshown as (q & Hq & Hkq & ->).
    apply filter_In in Hp as [Hp Hprod]. apply filter_In in Hq as [Hq Hqprod].
    exists p, q. split; [reflexivity|]. auto 10.
Qed.

End Projects.

(** Three projects: one in the category [Production] as an object,
    one as a dictionary, one in another category. *)
Definition sample_projects : list project :=
  [{| project_key := "OPS"; project_name := "Operations";
      projectCategory := Some (CategoryResource (Some "Support")) |};
   {| project_key := "DST"; project_name := "Game A";
      projectCategory := Some (CategoryResource (Some "Production")) |};
   {| project_key := "DS2"; project_name := "Game B";
      projectCategory := Some (CategoryDict {["name" := "Production"]}) |}].

(** The select box as it opens: on its first option. *)
Definition first_option (options : list string) : string := hd EmptyString options.

(** X16 at work: the three sample projects, the select box left on its
    first option. *)
Lemma select_project_is_production_witness :
  (select_project (Ok sample_projects) first_option
   = inr ([st_info "Aucun projet dans la catégorie Production."], Stopped)
   /\ Forall (fun p => is_production p = false) (safe_get_projects (Ok sample_projects)))
  \/ (exists p shown,
        select_project (Ok sample_projects) first_option
        = inr ([st_write ("Selected Project : **" +:+ project_key p +:+ "** — "
                          +:+ project_name shown)],
               Selected (project_key p))
        /\ In p (safe_get_projects (Ok sample_projects)) /\ is_production p = true
        /\ project_label p
           = first_option (map fst (dict_of project_label project_key
                                      (List.filter is_production
                                         (safe_get_projects (Ok sample_projects)))))
        /\ In shown (safe_get_projects (Ok sample_projects))
        /\ is_production shown = true
        /\ project_key shown = project_key p).
Proof.
  apply (select_project_is_production (Ok sample_projects) first_option).
  intros [|option options] Hne; [contradiction|left; reflexivity].
Defined.

(** The page for the three sample projects. *)
Example sample_select_project :
  select_project (Ok sample_projects) first_option
  = inr ([st_write "Selected Project : **DST** — Game A"], Selected "DST")
  /\ select_project (Raise (JIRAError "401")) first_option
     = inr ([st_info "Aucun projet dans la catégorie Production."], Stopped).
Proof. split; vm_compute; reflexivity. Qed.
